(** * cred_checker: a shallow embedding of [src/cred_checker.py]

    The development follows the Python source function by function:
    [parse_url], [_save_result], [scan_with_nmap], [scan_with_custom],
    [scan_target], the counting loop of [scan_targets], the reading of the
    targets in [main] and the query and the renderers of
    [generate_reports].

    Conventions.
    - Python [str] is [string], the bytes of the UTF-8 encoding of the
      text; [Utf8.chars] gives its characters.  Searching, cutting and
      joining texts work on the bytes as they work on the characters.
      [str.strip] and the [\w] of [re] work on characters; the tables of
      the interpreter that say which characters beyond ASCII are
      alphanumeric, and what NFKC normalization makes of a text, are
      arguments.  [Str.lower] is [str.lower] on the ASCII letters and
      keeps the other characters, which Python lower-cases too.
    - Python [int] is [Z].
    - An exception that leaves a function is a [Raise] of the [except] type.
    - The SQLite table [scans] is the list of its rows in insertion order;
      the other files on disk are a finite map from paths to contents;
      everything the program reads from outside (the script of nmap, the
      child process, the HTTP peer, the clock, the random generator,
      whether a file can be written) is an explicit argument.  Unlinking
      the transient script and the statements on the table are taken to
      succeed. *)

From Stdlib Require Import ZArith Lia Bool List Ascii String DecimalString DecimalZ.
From Stdlib Require Import Permutation Sorted.
From stdpp Require Import base decidable option list strings gmap.

Import ListNotations.
Local Open Scope Z_scope.

(** stdpp keeps [simpl] from unfolding the append of texts; the proofs
    below compute with it. *)
#[local] Arguments String.append !_ _ : simpl nomatch.

(** ** Exceptions *)

(** The [ValueError]s of [urllib.parse], by the place that raises them. *)
Inductive value_error : Type :=
| Invalid_IPv6_URL
| Invalid_bracketed_netloc
| Invalid_under_NFKC
| Port_not_integer
| Port_out_of_range.

Inductive exn : Type :=
| ValueError (why : value_error).

Inductive except (A : Type) : Type :=
| Return (a : A)
| Raise (e : exn).
Arguments Return {A} a.
Arguments Raise {A} e.

#[global] Instance except_ret : MRet except := fun _ a => Return a.

#[global] Instance except_bind : MBind except := fun _ _ k m =>
  match m with
  | Return a => k a
  | Raise e => Raise e
  end.

Definition raises {A : Type} (m : except A) : bool :=
  match m with
  | Return _ => false
  | Raise _ => true
  end.

(** ** Python [str] operations used by the program *)

Module Str.

(** [s.startswith(p)] *)
Fixpoint startswith (s p : string) {struct p} : bool :=
  match p, s with
  | EmptyString, _ => true
  | String a p', String b s' => Ascii.eqb a b && startswith s' p'
  | String _ _, EmptyString => false
  end.

(** [s.find(c)]; [None] stands for Python's [-1]. *)
Fixpoint find (c : ascii) (s : string) : option nat :=
  match s with
  | EmptyString => None
  | String a s' => if Ascii.eqb a c then Some O else option_map S (find c s')
  end.

(** [c in s] for a one-character [c]. *)
Definition has (c : ascii) (s : string) : bool :=
  match find c s with
  | Some _ => true
  | None => false
  end.

(** [s[:n]] and [s[n:]] for [0 <= n]. *)
Fixpoint take (n : nat) (s : string) : string :=
  match n, s with
  | S n', String a s' => String a (take n' s')
  | _, _ => EmptyString
  end.

Fixpoint drop (n : nat) (s : string) : string :=
  match n, s with
  | S n', String _ s' => drop n' s'
  | _, _ => s
  end.

(** [s[:-1]] *)
Fixpoint drop_last (s : string) : string :=
  match s with
  | EmptyString => EmptyString
  | String a EmptyString => EmptyString
  | String a s' => String a (drop_last s')
  end.

(** [s.find(c, start)] *)
Definition find_from (c : ascii) (start : nat) (s : string) : option nat :=
  option_map (Nat.add start) (find c (drop start s)).

(** [s.rfind(c)] *)
Fixpoint rfind (c : ascii) (s : string) : option nat :=
  match s with
  | EmptyString => None
  | String a s' =>
      match rfind c s' with
      | Some i => Some (S i)
      | None => if Ascii.eqb a c then Some O else None
      end
  end.

(** [s.partition(c)]: the text before the first [c], whether [c] was
    found, and the text after it. *)
Fixpoint partition (c : ascii) (s : string) : string * bool * string :=
  match s with
  | EmptyString => (EmptyString, false, EmptyString)
  | String a s' =>
      if Ascii.eqb a c then (EmptyString, true, s')
      else let '(h, b, t) := partition c s' in (String a h, b, t)
  end.

(** [s.rpartition(c)]: splits at the last [c]; when there is none the
    whole text is the third component. *)
Fixpoint rpartition (c : ascii) (s : string) : string * bool * string :=
  match s with
  | EmptyString => (EmptyString, false, EmptyString)
  | String a s' =>
      let '(h, b, t) := rpartition c s' in
      if b then (String a h, true, t)
      else if Ascii.eqb a c then (EmptyString, true, s')
      else (EmptyString, false, String a t)
  end.

(** [s.replace(c, empty)]: every [c] is removed. *)
Fixpoint remove (c : ascii) (s : string) : string :=
  match s with
  | EmptyString => EmptyString
  | String a s' => if Ascii.eqb a c then remove c s' else String a (remove c s')
  end.

Definition is_upper (c : ascii) : bool :=
  (65 <=? nat_of_ascii c)%nat && (nat_of_ascii c <=? 90)%nat.

Definition is_lower (c : ascii) : bool :=
  (97 <=? nat_of_ascii c)%nat && (nat_of_ascii c <=? 122)%nat.

Definition is_digit (c : ascii) : bool :=
  (48 <=? nat_of_ascii c)%nat && (nat_of_ascii c <=? 57)%nat.

Definition is_alpha (c : ascii) : bool := is_upper c || is_lower c.

(** The ASCII characters of the [\w] of a regular expression. *)
Definition is_word (c : ascii) : bool :=
  is_alpha c || is_digit c || Ascii.eqb c "_".

Definition lower_char (c : ascii) : ascii :=
  if is_upper c then ascii_of_nat (nat_of_ascii c + 32) else c.

(** [s.lower()] on the ASCII letters.  Python lower-cases the letters
    beyond ASCII too.  Two of them give an ASCII letter, U+0130 an [i]
    that a combining dot follows and U+212A a [k]; none of the phrases
    the program looks for in a lower-cased text can come from these. *)
Fixpoint lower (s : string) : string :=
  match s with
  | EmptyString => EmptyString
  | String a s' => String (lower_char a) (lower s')
  end.

Fixpoint all (p : ascii -> bool) (s : string) : bool :=
  match s with
  | EmptyString => true
  | String a s' => p a && all p s'
  end.

(** [s.isascii()] *)
Definition is_ascii (c : ascii) : bool := (nat_of_ascii c <? 128)%nat.

Definition isascii (s : string) : bool := all is_ascii s.

(** [s.isdigit() and s.isascii()] *)
Definition isdigit (s : string) : bool :=
  match s with
  | EmptyString => false
  | _ => all is_digit s
  end.

(** [int(s)] for a text of decimal digits. *)
Fixpoint int_acc (acc : Z) (s : string) : Z :=
  match s with
  | EmptyString => acc
  | String a s' => int_acc (10 * acc + (Z.of_nat (nat_of_ascii a) - 48)) s'
  end.

Definition int (s : string) : Z := int_acc 0 s.

(** [str(n)] *)
Definition of_int (n : Z) : string := NilZero.string_of_int (Z.to_int n).

(** [sub in s]: [sub] occurs in [s] as a contiguous run. *)
Fixpoint contains (s sub : string) : bool :=
  startswith s sub ||
  match s with
  | EmptyString => false
  | String _ s' => contains s' sub
  end.

(** [s.lstrip(chars)] for the set of characters a predicate accepts. *)
Fixpoint lstrip (p : ascii -> bool) (s : string) : string :=
  match s with
  | EmptyString => EmptyString
  | String a s' => if p a then lstrip p s' else s
  end.

End Str.

(** ** The characters of a text *)

Module Utf8.

(** A byte that continues the encoding of a character. *)
Definition is_continuation (c : ascii) : bool :=
  (128 <=? nat_of_ascii c)%nat && (nat_of_ascii c <? 192)%nat.

Definition starts_with_continuation (s : string) : bool :=
  match s with
  | EmptyString => false
  | String a _ => is_continuation a
  end.

(** The characters of a text, each one the bytes of its encoding: a
    character is a byte and the continuation bytes that follow it. *)
Fixpoint chars (s : string) : list string :=
  match s with
  | EmptyString => []
  | String a s' =>
      match chars s' with
      | c :: cs =>
          if starts_with_continuation s' then String a c :: cs
          else String a EmptyString :: c :: cs
      | [] => [String a EmptyString]
      end
  end.

(** The text made of the characters, [''.join(cs)]. *)
Definition join (cs : list string) : string :=
  fold_right String.append EmptyString cs.

(** One character: a byte and continuation bytes. *)
Definition is_char (c : string) : bool :=
  match c with
  | EmptyString => false
  | String _ t => Str.all is_continuation t
  end.

(** Characters that follow each other in a text: none but the first
    starts with a continuation byte. *)
Definition segmented (cs : list string) : bool :=
  forallb is_char cs && forallb (fun c => negb (starts_with_continuation c)) (tl cs).

End Utf8.

(** ** [urllib.parse.urlparse], as in CPython 3.11's [urllib/parse.py] *)

Module Urllib.

Record SplitResult : Type := mkSplitResult {
  sr_scheme : string;
  sr_netloc : string;
  sr_path : string;
  sr_query : string;
  sr_fragment : string
}.

Record ParseResult : Type := mkParseResult {
  scheme : string;
  netloc : string;
  path : string;
  params : string;
  query : string;
  fragment : string
}.

Definition uses_params : list string :=
  [EmptyString; "ftp"; "hdl"; "prospero"; "http"; "imap"; "https"; "shttp"; "rtsp";
   "rtspu"; "sip"; "sips"; "mms"; "sftp"; "tel"].

Definition scheme_chars : string :=
  "abcdefghijklmnopqrstuvwxyzABCDEFGHIJKLMNOPQRSTUVWXYZ0123456789+-.".

(** [_WHATWG_C0_CONTROL_OR_SPACE]: the code points 0 to 0x20. *)
Definition c0_control_or_space (c : ascii) : bool := (nat_of_ascii c <=? 32)%nat.

(** [_UNSAFE_URL_BYTES_TO_REMOVE] *)
Definition unsafe_url_bytes_to_remove : list ascii :=
  ["009"%char; "013"%char; "010"%char].

Definition str_in_list (s : string) (l : list string) : bool :=
  existsb (String.eqb s) l.

Definition _splitparams (url : string) : string * string :=
  if Str.has "/" url then
    match Str.rfind "/" url with
    | Some r =>
        match Str.find_from ";" r url with
        | None => (url, EmptyString)
        | Some i => (Str.take i url, Str.drop (S i) url)
        end
    | None => (url, EmptyString)
    end
  else
    match Str.find ";" url with
    | Some i => (Str.take i url, Str.drop (S i) url)
    | None => (Str.drop_last url, url)
    end.

Definition _splitnetloc (url : string) (start : nat) : string * string :=
  let delim :=
    fold_left
      (fun delim c =>
         match Str.find_from c start url with
         | Some wdelim => Nat.min delim wdelim
         | None => delim
         end)
      ["/"%char; "?"%char; "#"%char] (String.length url) in
  (Str.take (delim - start) (Str.drop start url), Str.drop delim url).

(** [_hostinfo]: the host text and the port text of a netloc. *)
Definition _hostinfo (netloc : string) : string * option string :=
  let '(_, _, hostinfo) := Str.rpartition "@" netloc in
  let '(_, have_open_br, bracketed) := Str.partition "[" hostinfo in
  let '(hostname, port) :=
    if have_open_br then
      let '(hostname, _, port) := Str.partition "]" bracketed in
      let '(_, _, port) := Str.partition ":" port in
      (hostname, port)
    else
      let '(hostname, _, port) := Str.partition ":" hostinfo in
      (hostname, port) in
  (hostname, match port with EmptyString => None | _ => Some port end).

(** The [hostname] property. *)
Definition hostname (netloc : string) : option string :=
  match fst (_hostinfo netloc) with
  | EmptyString => None
  | h =>
      let '(h, percent, zone) := Str.partition "%" h in
      Some (Str.lower h +:+ (if percent then "%" else EmptyString) +:+ zone)
  end.

(** The [port] property. *)
Definition port (netloc : string) : except (option Z) :=
  match snd (_hostinfo netloc) with
  | None => Return None
  | Some p =>
      if Str.isdigit p then
        let n := Str.int p in
        if (0 <=? n) && (n <=? 65535) then Return (Some n)
        else Raise (ValueError Port_out_of_range)
      else Raise (ValueError Port_not_integer)
  end.

(** The first steps of [urlsplit]: the leading control characters and
    spaces are stripped and tabs and line ends removed; ... *)
Definition clean_url (url : string) : string :=
  fold_left (fun u b => Str.remove b u) unsafe_url_bytes_to_remove
            (Str.lstrip c0_control_or_space url).

(** ... the scheme is split off at the first colon, when what precedes
    it starts with a letter and is made of scheme characters; ... *)
Definition split_scheme (url : string) : string * string :=
  match Str.find ":" url, url with
  | Some (S i), String c0 _ =>
      if Str.is_alpha c0
         && Str.all (fun c => Str.has c scheme_chars) (Str.take (S i) url)
      then (Str.lower (Str.take (S i) url), Str.drop (S (S i)) url)
      else (EmptyString, url)
  | _, _ => (EmptyString, url)
  end.

(** ... and the netloc is what follows a leading [//]. *)
Definition split_authority (url : string) : string * string :=
  if String.eqb (Str.take 2 url) "//" then _splitnetloc url 2
  else (EmptyString, url).

(** The netloc [urlsplit] finds in a URL. *)
Definition netloc_of (url : string) : string :=
  fst (split_authority (snd (split_scheme (clean_url url)))).

Section UrlParse.

(** The check urlsplit makes of a netloc that has both brackets differs
    between CPython releases (none before 3.11.4, [ipaddress]-based
    afterwards); its verdict is left open: [true] accepts the netloc,
    [false] is a [ValueError]. *)
Variable check_bracketed_netloc : string -> bool.

(** [unicodedata.normalize('NFKC', s)], a table of the interpreter. *)
Variable nfkc : string -> string.

(** [_checknetloc]: a netloc that is not ASCII must not gain one of the
    characters that delimit the parts of a URL when it is normalized. *)
Definition _checknetloc (netloc : string) : except unit :=
  if Str.isascii netloc then Return tt
  else
    let n := Str.remove "@" netloc in
    let n := Str.remove ":" n in
    let n := Str.remove "#" n in
    let n := Str.remove "?" n in
    let netloc2 := nfkc n in
    if String.eqb n netloc2 then Return tt
    else if existsb (fun c => Str.has c netloc2)
                    ["/"%char; "?"%char; "#"%char; "@"%char; ":"%char]
    then Raise (ValueError Invalid_under_NFKC)
    else Return tt.

Definition urlsplit (url : string) : except SplitResult :=
  let url := clean_url url in
  let '(scheme, url) := split_scheme url in
  '(netloc, url) ←
    (let '(netloc, url) := split_authority url in
     if (Str.has "[" netloc && negb (Str.has "]" netloc))
        || (Str.has "]" netloc && negb (Str.has "[" netloc))
     then Raise (ValueError Invalid_IPv6_URL)
     else if Str.has "[" netloc && Str.has "]" netloc
             && negb (check_bracketed_netloc netloc)
     then Raise (ValueError Invalid_bracketed_netloc)
     else Return (netloc, url));
  let '(url, fragment) :=
    if Str.has "#" url
    then let '(u, _, f) := Str.partition "#" url in (u, f)
    else (url, EmptyString) in
  let '(url, query) :=
    if Str.has "?" url
    then let '(u, _, q) := Str.partition "?" url in (u, q)
    else (url, EmptyString) in
  _ ← _checknetloc netloc;
  Return (mkSplitResult scheme netloc url query fragment).

Definition urlparse (url : string) : except ParseResult :=
  r ← urlsplit url;
  let '(url, params) :=
    if str_in_list (sr_scheme r) uses_params && Str.has ";" (sr_path r)
    then _splitparams (sr_path r)
    else (sr_path r, EmptyString) in
  Return (mkParseResult (sr_scheme r) (sr_netloc r) url params
                        (sr_query r) (sr_fragment r)).

End UrlParse.

End Urllib.

(** ** [parse_url] *)

Module Target.
(** The dict [parse_url] returns. *)
Record t : Type := mk {
  url : string;
  proto : string;
  host : string;
  port : Z;
  path : string
}.
End Target.

(** [x or d] on text: the empty text is falsy. *)
Definition str_or (x d : string) : string :=
  match x with
  | EmptyString => d
  | _ => x
  end.

(** [s.split(':')[0]] *)
Definition split_colon_0 (s : string) : string :=
  let '(h, _, _) := Str.partition ":" s in h.

Section ParseUrl.

Variable check_bracketed_netloc : string -> bool.
Variable nfkc : string -> string.

(** Lines 181-182: the scheme prefix is added when neither is there. *)
Definition with_scheme (url : string) : string :=
  if negb (Str.startswith url "http://" || Str.startswith url "https://")
  then "http://" +:+ url
  else url.

Definition parse_url (url : string) : except Target.t :=
  let url := with_scheme url in
  parsed ← Urllib.urlparse check_bracketed_netloc nfkc url;
  let proto := str_or (Urllib.scheme parsed) "http" in
  let host :=
    match Urllib.hostname (Urllib.netloc parsed) with
    | Some h => str_or h (split_colon_0 (Urllib.netloc parsed))
    | None => split_colon_0 (Urllib.netloc parsed)
    end in
  port ← Urllib.port (Urllib.netloc parsed);
  let port :=
    match port with
    | None | Some 0 => if String.eqb proto "https" then 443 else 80
    | Some p => p
    end in
  Return (Target.mk url proto host port (str_or (Urllib.path parsed) "/")).

End ParseUrl.

(** ** The program's data *)

Module Cred.
(** An entry of [DEFAULT_CREDS]. *)
Record t : Type := mk {
  username : string;
  password : string;
  service : string
}.
End Cred.

Definition DEFAULT_CREDS : list Cred.t :=
  [ Cred.mk "admin" "admin" "generic";
    Cred.mk "admin" "password" "generic";
    Cred.mk "root" "root" "generic";
    Cred.mk "root" "toor" "generic";
    Cred.mk "administrator" "administrator" "generic";
    Cred.mk "admin" EmptyString "generic";
    Cred.mk "admin" "1234" "generic";
    Cred.mk "admin" "12345" "generic";
    Cred.mk "tomcat" "tomcat" "tomcat";
    Cred.mk "tomcat" "s3cret" "tomcat" ].

Definition USER_AGENTS : list string :=
  [ "Mozilla/5.0 (Windows NT 10.0; Win64; x64) AppleWebKit/537.36 (KHTML, like Gecko) Chrome/119.0.0.0 Safari/537.36";
    "Mozilla/5.0 (Macintosh; Intel Mac OS X 10_15_7) AppleWebKit/537.36 (KHTML, like Gecko) Chrome/119.0.0.0 Safari/537.36";
    "Mozilla/5.0 (Windows NT 10.0; Win64; x64; rv:109.0) Gecko/20100101 Firefox/119.0";
    "Mozilla/5.0 (X11; Linux x86_64) AppleWebKit/537.36 (KHTML, like Gecko) Chrome/119.0.0.0 Safari/537.36" ].

Module Result.
(** The [result] dict of the two scans.  The keys [username], [password],
    [response] and [cached] are not always set: [None] is an absent key. *)
Record t : Type := mk {
  url : string;
  host : string;
  port : Z;
  proto : string;
  method : string;
  username : option string;
  password : option string;
  success : bool;
  response : option string;
  cached : option bool
}.

Definition set_success (b : bool) (r : t) : t :=
  mk (url r) (host r) (port r) (proto r) (method r) (username r) (password r)
     b (response r) (cached r).

Definition set_username (u : string) (r : t) : t :=
  mk (url r) (host r) (port r) (proto r) (method r) (Some u) (password r)
     (success r) (response r) (cached r).

Definition set_password (p : string) (r : t) : t :=
  mk (url r) (host r) (port r) (proto r) (method r) (username r) (Some p)
     (success r) (response r) (cached r).

Definition set_response (x : string) (r : t) : t :=
  mk (url r) (host r) (port r) (proto r) (method r) (username r) (password r)
     (success r) (Some x) (cached r).

Definition set_cached (b : bool) (r : t) : t :=
  mk (url r) (host r) (port r) (proto r) (method r) (username r) (password r)
     (success r) (response r) (Some b).
End Result.

Module Row.
(** A row of the table [scans] (lines 95-106). *)
Record t : Type := mk {
  id : Z;
  url : string;
  host : string;
  port : Z;
  proto : string;
  method : string;
  username : string;
  password : string;
  success : bool;
  response : string;
  timestamp : string
}.
End Row.

Module Request.
(** What [client.get] is called with (lines 313-321). *)
Record t : Type := mk {
  url : string;
  auth : string * string;
  user_agent : option string;
  timeout : Z;
  verify : bool;
  follow_redirects : bool
}.
End Request.

(** The parts of [self] and [self.args] the scans read. *)
Record checker : Type := mkChecker {
  no_cache : bool;
  evasion : bool;
  timeout : Z;
  SCRIPT_DIR : string;
  fingerprints : string
}.

(** The state the scans change: the table [scans], the list
    [self.results], the files on disk (path to content) and the HTTP
    requests sent so far. *)
Record world : Type := mkWorld {
  db : list Row.t;
  self_results : list Result.t;
  files : gmap string string;
  requests : list Request.t
}.

Definition empty_world : world := mkWorld [] [] ∅ [].

(** How a child process ends. *)
Inductive proc_outcome : Type :=
| Completed (stdout : string)
| TimeoutExpired
| ProcError (msg : string).

(** How reading a file ends. *)
Inductive read_outcome : Type :=
| ReadOk (content : string)
| ReadError (msg : string).

(** How an HTTP request ends. *)
Inductive http_outcome : Type :=
| Response (status_code : Z) (text : string)
| RequestError (msg : string).

(** Everything the scans get from outside the program.  [now] is the
    clock read at the insertion of a row, indexed by the number of rows
    already in the table; [send] may depend on the requests that came
    before; [random_choice] is indexed by the number of requests sent;
    [write_error] is the message of the exception that opening a path for
    writing raises, [None] when the file can be written; [isalnum] is
    [str.isalnum] on a character that is not ASCII, a table of the
    interpreter. *)
Record env : Type := mkEnv {
  read_nmap_script : read_outcome;
  subprocess_run : list string -> Z -> proc_outcome;
  httpx_installed : bool;
  send : list Request.t -> Request.t -> http_outcome;
  random_choice : nat -> nat;
  now : nat -> string;
  write_error : string -> option string;
  isalnum : string -> bool
}.

(** ** [_save_result] (lines 110-123) *)

Definition row_of (id : Z) (result : Result.t) (ts : string) : Row.t :=
  Row.mk id (Result.url result) (Result.host result) (Result.port result)
         (Result.proto result) (Result.method result)
         (default EmptyString (Result.username result))
         (default EmptyString (Result.password result))
         (Result.success result)
         (default EmptyString (Result.response result))
         ts.

Definition _save_result (e : env) (result : Result.t) (w : world) : world :=
  let row := row_of (Z.of_nat (length (db w)) + 1) result (now e (length (db w))) in
  mkWorld (db w ++ [row]) (self_results w ++ [result]) (files w) (requests w).

(** ** The two queries *)

(** [ORDER BY timestamp DESC]: an insertion sort on the text of the
    timestamps, the larger first; rows with equal timestamps keep their
    insertion order (SQL leaves their order open). *)
Fixpoint insert_desc (r : Row.t) (l : list Row.t) : list Row.t :=
  match l with
  | [] => [r]
  | x :: l' =>
      if String.leb (Row.timestamp x) (Row.timestamp r)
      then r :: l
      else x :: insert_desc r l'
  end.

Definition order_by_timestamp_desc (l : list Row.t) : list Row.t :=
  fold_right insert_desc [] l.

(** The cache query of [scan_with_nmap] (lines 215-218). *)
Definition cache_match (target : Target.t) (r : Row.t) : bool :=
  String.eqb (Row.host r) (Target.host target)
  && (Row.port r =? Target.port target)
  && String.eqb (Row.proto r) (Target.proto target)
  && String.eqb (Row.method r) "nmap-nse".

Definition select_cached (target : Target.t) (rows : list Row.t) : option Row.t :=
  head (order_by_timestamp_desc (List.filter (cache_match target) rows)).

(** The query of [generate_reports] (line 439). *)
Definition listSucceeded (rows : list Row.t) : list Row.t :=
  order_by_timestamp_desc (List.filter Row.success rows).

(** ** [scan_with_nmap] (lines 200-279) *)

Fixpoint take_while {A : Type} (p : A -> bool) (l : list A) : list A :=
  match l with
  | [] => []
  | a :: l' => if p a then a :: take_while p l' else []
  end.

Fixpoint drop_while {A : Type} (p : A -> bool) (l : list A) : list A :=
  match l with
  | [] => []
  | a :: l' => if p a then drop_while p l' else l
  end.

(** [\w] of a regular expression on [str], for one character: the ASCII
    letters and digits and the underscore, and what [str.isalnum] accepts
    of the other characters. *)
Definition is_word (isalnum : string -> bool) (ch : string) : bool :=
  match ch with
  | String a EmptyString => if Str.is_ascii a then Str.is_word a else isalnum ch
  | _ => isalnum ch
  end.

(** A match of [(\w+):(\w+)] that starts at the head of the characters:
    the first group is the whole run of word characters, since only a
    colon may follow it. *)
Definition match_cred_here (word : string -> bool) (cs : list string)
  : option (string * string) :=
  match take_while word cs, drop_while word cs with
  | g :: g1, c :: rest =>
      if String.eqb c ":" then
        match take_while word rest with
        | [] => None
        | g2 => Some (Utf8.join (g :: g1), Utf8.join g2)
        end
      else None
  | _, _ => None
  end.

Fixpoint search_chars (word : string -> bool) (cs : list string)
  : option (string * string) :=
  match match_cred_here word cs with
  | Some m => Some m
  | None =>
      match cs with
      | [] => None
      | _ :: cs' => search_chars word cs'
      end
  end.

(** [re.search(r'(\w+):(\w+)', s)]: the leftmost match. *)
Definition search_cred (isalnum : string -> bool) (s : string)
  : option (string * string) :=
  search_chars (is_word isalnum) (Utf8.chars s).

Definition newline : ascii := "010"%char.
Definition tab : ascii := "009"%char.
Definition carriage_return : ascii := "013"%char.
Definition dquote : string := String "034"%char EmptyString.

(** [s.split('\n')] and its inverse. *)
Fixpoint lines (s : string) : list string :=
  match s with
  | EmptyString => [EmptyString]
  | String a s' =>
      if Ascii.eqb a newline then EmptyString :: lines s'
      else match lines s' with
           | l :: ls => String a l :: ls
           | [] => [String a EmptyString]
           end
  end.

Fixpoint unlines (ls : list string) : string :=
  match ls with
  | [] => EmptyString
  | [l] => l
  | l :: ls' => l +:+ String newline (unlines ls')
  end.

Definition portrule (port : Z) : string :=
  "portrule = shortport.port_or_service( {" +:+ Str.of_int port +:+ "}, {"
  +:+ dquote +:+ "http" +:+ dquote +:+ ", " +:+ dquote +:+ "https" +:+ dquote
  +:+ "}, " +:+ dquote +:+ "tcp" +:+ dquote +:+ ", " +:+ dquote +:+ "open"
  +:+ dquote +:+ ")".

(** [re.sub(r'^portrule =.*$', ..., script_content, flags=re.MULTILINE)]:
    every line that starts with [portrule =] is replaced as a whole. *)
Definition sub_portrule (port : Z) (script_content : string) : string :=
  unlines (map (fun l => if Str.startswith l "portrule =" then portrule port else l)
               (lines script_content)).

Definition temp_script_path (self : checker) (target : Target.t) : string :=
  SCRIPT_DIR self +:+ "/temp_" +:+ Target.host target +:+ "_"
  +:+ Str.of_int (Target.port target) +:+ ".nse".

Definition nmap_cmd (self : checker) (target : Target.t) (temp_script : string)
  : list string :=
  [ "nmap"; "-sT"; "-p"; Str.of_int (Target.port target); "-Pn"; "-n";
    "--script"; temp_script;
    "--script-args"; "http-default-accounts.fingerprintfile=" +:+ fingerprints self;
    Target.host target ].

Definition write_file (path content : string) (w : world) : world :=
  mkWorld (db w) (self_results w) (<[path := content]> (files w)) (requests w).

(** [unlink(missing_ok=True)] *)
Definition unlink (path : string) (w : world) : world :=
  mkWorld (db w) (self_results w) (delete path (files w)) (requests w).

(** What left the [try] block of lines 230-271. *)
Inductive raised : Type :=
| NoException
| RaisedTimeoutExpired
| RaisedException (msg : string).

(** The body of the [try] block; the state reached when an exception
    leaves it is the state the handlers see. *)
Definition nmap_try (self : checker) (e : env) (target : Target.t)
    (result : Result.t) (w : world) : raised * Result.t * world :=
  let temp_script := temp_script_path self target in
  match read_nmap_script e with
  | ReadError msg => (RaisedException msg, result, w)
  | ReadOk script_content =>
      let script_content := sub_portrule (Target.port target) script_content in
      match write_error e temp_script with
      | Some msg => (RaisedException msg, result, w)
      | None =>
          let w := write_file temp_script script_content w in
          let cmd := nmap_cmd self target temp_script in
          match subprocess_run e cmd (timeout self) with
          | TimeoutExpired => (RaisedTimeoutExpired, result, w)
          | ProcError msg => (RaisedException msg, result, w)
          | Completed output =>
              let result :=
                if Str.contains (Str.lower output) "credentials found"
                   || Str.contains (Str.lower output) "valid credentials"
                then
                  let result := Result.set_success true result in
                  match search_cred (isalnum e) output with
                  | Some (u, p) => Result.set_password p (Result.set_username u result)
                  | None => result
                  end
                else result in
              let result := Result.set_response output result in
              let w := unlink temp_script w in
              (NoException, result, w)
          end
      end
  end.

Definition scan_with_nmap (self : checker) (e : env) (target : Target.t)
    (w : world) : Result.t * world :=
  let result :=
    Result.mk (Target.url target) (Target.host target) (Target.port target)
              (Target.proto target) "nmap-nse" None None false None None in
  match (if no_cache self then None else select_cached target (db w)) with
  | Some cached =>
      (Result.set_cached true
         (Result.set_response (Row.response cached)
            (Result.set_password (Row.password cached)
               (Result.set_username (Row.username cached)
                  (Result.set_success (Row.success cached) result)))), w)
  | None =>
      let '(exc, result, w) := nmap_try self e target result w in
      let result :=
        match exc with
        | NoException => result
        | RaisedTimeoutExpired => Result.set_response "Timeout" result
        | RaisedException msg => Result.set_response ("Error: " +:+ msg) result
        end in
      (result, _save_result e result w)
  end.

(** ** [scan_with_custom] (lines 281-341) *)

Definition success_indicators : list string := ["logout"; "dashboard"; "welcome"].

(** Lines 324-326. *)
Definition authenticated (status_code : Z) (text : string) : bool :=
  (status_code =? 200)
  && existsb (fun indicator => Str.contains (Str.lower text) indicator)
             success_indicators.

Definition request_of (self : checker) (e : env) (target : Target.t)
    (cred : Cred.t) (sent : nat) : Request.t :=
  Request.mk
    (Target.proto target +:+ "://" +:+ Target.host target +:+ ":"
     +:+ Str.of_int (Target.port target) +:+ Target.path target)
    (Cred.username cred, Cred.password cred)
    (if evasion self
     then Some (nth (random_choice e sent mod length USER_AGENTS)%nat USER_AGENTS EmptyString)
     else None)
    (timeout self) false true.

Definition log_request (r : Request.t) (w : world) : world :=
  mkWorld (db w) (self_results w) (files w) (requests w ++ [r]).

(** How one turn of the loop of line 296 ends: with [break] or not, and
    with which [result] dict. *)
Inductive turn : Type :=
| Break (result : Result.t)
| Continue (result : Result.t).

(** The dict a turn of the loop starts with (lines 297-306). *)
Definition attempt_result (target : Target.t) (cred : Cred.t) : Result.t :=
  Result.mk (Target.url target) (Target.host target) (Target.port target)
            (Target.proto target) "custom-basic"
            (Some (Cred.username cred)) (Some (Cred.password cred))
            false None None.

(** One turn of the loop, for one credential. *)
Definition attempt (self : checker) (e : env) (target : Target.t)
    (cred : Cred.t) (w : world) : turn * world :=
  let result := attempt_result target cred in
  let req := request_of self e target cred (length (requests w)) in
  let outcome := send e (requests w) req in
  let w := log_request req w in
  match outcome with
  | Response status_code text =>
      if authenticated status_code text then
        let result := Result.set_success true result in
        let result :=
          Result.set_response ("HTTP " +:+ Str.of_int status_code +:+ " - Authenticated")
                              result in
        (Break result, _save_result e result w)
      else (Continue result, w)
  | RequestError msg =>
      (Continue (Result.set_response ("Error: " +:+ msg) result), w)
  end.

(** The loop over the credentials; [results] is the local list. *)
Fixpoint probe (self : checker) (e : env) (target : Target.t)
    (creds : list Cred.t) (results : list Result.t) (w : world)
  : list Result.t * world :=
  match creds with
  | [] => (results, w)
  | cred :: creds' =>
      match attempt self e target cred w with
      | (Break result, w') => (results ++ [result], w')
      | (Continue _, w') => probe self e target creds' results w'
      end
  end.

Definition scan_with_custom (self : checker) (e : env) (target : Target.t)
    (w : world) : list Result.t * world :=
  if httpx_installed e then probe self e target DEFAULT_CREDS [] w
  else ([], w).

(** A verdict for the bracketed netlocs that accepts them all, as the
    CPython releases before 3.11.4 do. *)
Definition accept_bracketed (_ : string) : bool := true.

(** A normalization that leaves a text as it is, as NFKC leaves every
    ASCII text. *)
Definition nfkc_fixed (s : string) : string := s.


(** [sub] occurs in [s]: the meaning of Python's [sub in s]. *)
Definition occurs (sub s : string) : Prop :=
  exists pre post, s = pre +:+ sub +:+ post.

(** When [urlsplit] rejects the brackets of a netloc (lines 511-516 of
    [urllib/parse.py]) and when the [port] property rejects its port
    text. *)
Definition bracket_error (check_bracketed_netloc : string -> bool)
    (netloc : string) : bool :=
  (Str.has "[" netloc && negb (Str.has "]" netloc))
  || (Str.has "]" netloc && negb (Str.has "[" netloc))
  || (Str.has "[" netloc && Str.has "]" netloc
      && negb (check_bracketed_netloc netloc)).

(** When [_checknetloc] rejects a netloc (lines 421-437 of
    [urllib/parse.py]): it is not ASCII, normalizing it without its own
    [@], [:], [#] and [?] changes it, and the normal form holds one of
    [/], [?], [#], [@] and [:]. *)
Definition nfkc_error (nfkc : string -> string) (netloc : string) : bool :=
  let n := Str.remove "?" (Str.remove "#" (Str.remove ":" (Str.remove "@" netloc))) in
  negb (Str.isascii netloc)
  && negb (String.eqb n (nfkc n))
  && existsb (fun c => Str.has c (nfkc n))
             ["/"%char; "?"%char; "#"%char; "@"%char; ":"%char].

Definition port_error (netloc : string) : bool :=
  match snd (Urllib._hostinfo netloc) with
  | None => false
  | Some p => negb (Str.isdigit p) || (65535 <? Str.int p)
  end.

(** The port a scheme stands for (line 190). *)
Definition default_port (proto : string) : Z :=
  if String.eqb proto "https" then 443 else 80.

(** [a] may stand before [b] in a newest-first listing. *)
Definition not_older (a b : Row.t) : Prop :=
  String.leb (Row.timestamp b) (Row.timestamp a) = true.




(** The worlds a run of the program goes through: it starts with an empty
    table and no file of its own, and every step is one of the two scans. *)
Inductive reachable : world -> Prop :=
| reach_start (fs : gmap string string) : reachable (mkWorld [] [] fs [])
| reach_nmap (self : checker) (e : env) (target : Target.t) (w : world) :
    reachable w -> reachable (snd (scan_with_nmap self e target w))
| reach_custom (self : checker) (e : env) (target : Target.t) (w : world) :
    reachable w -> reachable (snd (scan_with_custom self e target w)).


(** The requests the loop sends when it walks [creds] to the end, the log
    holding [sent] requests before. *)
Fixpoint requests_for (self : checker) (e : env) (target : Target.t)
    (creds : list Cred.t) (sent : nat) : list Request.t :=
  match creds with
  | [] => []
  | cred :: creds' =>
      request_of self e target cred sent :: requests_for self e target creds' (S sent)
  end.

(** Whether the answer to the request for the [k]-th credential is
    classified as a success, when the loop gets that far from [w]. *)
Definition wins (self : checker) (e : env) (target : Target.t)
    (creds : list Cred.t) (w : world) (k : nat) : bool :=
  match nth_error creds k with
  | None => false
  | Some cred =>
      let log := requests w
                 ++ requests_for self e target (firstn k creds) (length (requests w)) in
      match send e log (request_of self e target cred (length log)) with
      | Response status_code text => authenticated status_code text
      | RequestError _ => false
      end
  end.

(** The dict the loop appends and saves for a winning credential. *)
Definition success_result (target : Target.t) (cred : Cred.t) : Result.t :=
  Result.mk (Target.url target) (Target.host target) (Target.port target)
            (Target.proto target) "custom-basic"
            (Some (Cred.username cred)) (Some (Cred.password cred))
            true (Some "HTTP 200 - Authenticated") None.

(** The dict a cache hit returns (lines 223-227). *)
Definition cached_result (target : Target.t) (row : Row.t) : Result.t :=
  Result.mk (Target.url target) (Target.host target) (Target.port target)
            (Target.proto target) "nmap-nse"
            (Some (Row.username row)) (Some (Row.password row))
            (Row.success row) (Some (Row.response row)) (Some true).

(** The verdict of a turn of the loop. *)
Definition classified_success (t : turn) : bool :=
  match t with
  | Break result => Result.success result
  | Continue _ => false
  end.

(** ** A concrete run, for the examples *)

Module Demo.

Definition self : checker :=
  mkChecker false false 30 "/opt/cred_checker" "/opt/cred_checker/data/fingerprints.lua".

Definition target : Target.t :=
  Target.mk "http://10.0.0.1" "http" "10.0.0.1" 80 "/".

Definition clock (n : nat) : string :=
  "2024-01-01T00:00:0" +:+ Str.of_int (Z.of_nat n).

(** nmap runs out of time; the web server lets [root:root] in and answers
    401 to every other credential. *)
Definition e : env :=
  mkEnv (ReadOk "portrule = shortport.http")
        (fun _ _ => TimeoutExpired)
        true
        (fun _ req =>
           if String.eqb (fst (Request.auth req)) "root"
              && String.eqb (snd (Request.auth req)) "root"
           then Response 200 "<h1>Welcome Dashboard</h1>"
           else Response 401 "Unauthorized")
        (fun _ => O)
        clock
        (fun _ => None)
        (fun _ => false).

(** The same, with a network that fails every request. *)
Definition e_offline : env :=
  mkEnv (ReadOk "portrule = shortport.http")
        (fun _ _ => TimeoutExpired)
        true
        (fun _ _ => RequestError "connection refused")
        (fun _ => O)
        clock
        (fun _ => None)
        (fun _ => false).

End Demo.

(** * The rest of the program *)

(** [fst] of the pair the last steps of [urlsplit] keep: the text before
    the first [c], the whole text when there is none. *)
Definition before (c : ascii) (s : string) : string :=
  fst (fst (Str.partition c s)).

(** The text is empty or starts with one of the characters that end a
    netloc. *)
Definition at_delimiter (s : string) : bool :=
  match s with
  | EmptyString => true
  | String c _ => Ascii.eqb c "/" || Ascii.eqb c "?" || Ascii.eqb c "#"
  end.

(** What [re.sub] does to one line of the script (line 237). *)
Definition sub_portrule_line (port : Z) (l : string) : string :=
  if Str.startswith l "portrule =" then portrule port else l.

(** ** [scan_target] (lines 343-361) *)

(** The two switches of [self.args] that [scan_target] reads. *)
Record methods : Type := mkMethods {
  nmap : bool;
  custom : bool
}.

Module Scan.
(** The dict [scan_target] returns. *)
Record t : Type := mk {
  target : Target.t;
  nmap : option Result.t;
  custom : list Result.t
}.
End Scan.

Definition scan_target (check_bracketed_netloc : string -> bool)
    (nfkc : string -> string) (self : checker)
    (m : methods) (e : env) (url : string) (w : world) : except Scan.t * world :=
  match parse_url check_bracketed_netloc nfkc url with
  | Raise ex => (Raise ex, w)
  | Return target =>
      let '(by_nmap, w) :=
        if nmap m
        then let '(r, w) := scan_with_nmap self e target w in (Some r, w)
        else (None, w) in
      let '(by_custom, w) :=
        if custom m then scan_with_custom self e target w else ([], w) in
      (Return (Scan.mk target by_nmap by_custom), w)
  end.

(** ** [scan_targets] (lines 363-429) *)

(** The test of lines 393-394 and 417-418: some method found credentials. *)
Definition found (result : Scan.t) : bool :=
  match Scan.nmap result with
  | Some r => Result.success r
  | None => false
  end
  || existsb Result.success (Scan.custom result).




(** ** The targets [main] reads from a file (lines 627-629) *)

(** [c.isspace()] for a character, given by the bytes of its encoding:
    the ASCII white space (9 to 13, 28 to 32) and U+0085, U+00A0, U+1680,
    U+2000 to U+200A, U+2028, U+2029, U+202F, U+205F and U+3000. *)
Definition isspace (ch : string) : bool :=
  match map nat_of_ascii (list_ascii_of_string ch) with
  | [a] => ((9 <=? a) && (a <=? 13) || (28 <=? a) && (a <=? 32))%nat
  | [a; b] => ((a =? 194) && ((b =? 133) || (b =? 160)))%nat
  | [a; b; c] =>
      ((a =? 225) && (b =? 154) && (c =? 128)
       || (a =? 226) && (b =? 128)
          && ((128 <=? c) && (c <=? 138) || (c =? 168) || (c =? 169) || (c =? 175))
       || (a =? 226) && (b =? 129) && (c =? 159)
       || (a =? 227) && (b =? 128) && (c =? 128))%nat
  | _ => false
  end.

(** [s.strip()]: the white space characters at both ends are dropped. *)
Definition strip (s : string) : string :=
  Utf8.join (rev (drop_while isspace (rev (drop_while isspace (Utf8.chars s))))).

(** Line 629: the lines of the file that are not blank and do not start
    with [#], stripped. *)
Definition read_targets (file_lines : list string) : list string :=
  map strip
      (List.filter
         (fun line => negb (String.eqb (strip line) EmptyString)
                      && negb (Str.startswith line "#"))
         file_lines).

(** The URL the probe asks for (line 317). *)
Definition probe_url (target : Target.t) : string :=
  Target.proto target +:+ "://" +:+ Target.host target +:+ ":"
  +:+ Str.of_int (Target.port target) +:+ Target.path target.

(** The pair handed to [auth=] for a credential (line 318). *)
Definition auth_of (cred : Cred.t) : string * string :=
  (Cred.username cred, Cred.password cred).

(** What every request of the probe looks like. *)
Definition probe_request (self : checker) (target : Target.t) (r : Request.t) : Prop :=
  Request.url r = probe_url target
  /\ Request.timeout r = timeout self
  /\ Request.verify r = false
  /\ Request.follow_redirects r = true
  /\ match Request.user_agent r with
     | None => evasion self = false
     | Some ua => evasion self = true /\ In ua USER_AGENTS
     end.

(** The row of the table and the dict of [self.results] are one record. *)
Definition mirrors (row : Row.t) (result : Result.t) : Prop :=
  row = row_of (Row.id row) result (Row.timestamp row).

(** What holds of every row a run stores: it comes from one of the two
    methods, a row of the probe carries a credential of the list, and a
    row without success carries no credential. *)
Definition sound_row (row : Row.t) : Prop :=
  (Row.method row = "nmap-nse"
   \/ (Row.method row = "custom-basic"
       /\ exists cred, In cred DEFAULT_CREDS
                       /\ Row.username row = Cred.username cred
                       /\ Row.password row = Cred.password cred))
  /\ (Row.success row = false ->
      Row.username row = EmptyString /\ Row.password row = EmptyString).

(** A finished task that counts as successful. *)
Definition is_found (outcome : except Scan.t) : bool :=
  match outcome with
  | Return result => found result
  | Raise _ => false
  end.

(** ** The reports (lines 431-567) *)

(** A value of a column, as [sqlite3] hands it to Python. *)
Inductive sqlval : Type :=
| SqlInt (n : Z)
| SqlText (s : string).

(** A tuple of [SELECT * FROM scans]: the columns in the order of the
    table (lines 96-106); the boolean is stored as 0 or 1. *)
Definition select_star (r : Row.t) : list sqlval :=
  [ SqlInt (Row.id r); SqlText (Row.url r); SqlText (Row.host r);
    SqlInt (Row.port r); SqlText (Row.proto r); SqlText (Row.method r);
    SqlText (Row.username r); SqlText (Row.password r);
    SqlInt (if Row.success r then 1 else 0); SqlText (Row.response r);
    SqlText (Row.timestamp r) ].

(** The tuples [generate_reports] hands to the three renderers (lines
    437-441). *)
Definition successful_scans (w : world) : list (list sqlval) :=
  map select_star (listSucceeded (db w)).

(** [scan[i]]; the tuples of the query have eleven entries, so the
    default is never met. *)
Definition item (scan : list sqlval) (i : nat) : sqlval :=
  nth i scan (SqlText EmptyString).

(** A value inside an f-string. *)
Definition fmt (v : sqlval) : string :=
  match v with
  | SqlInt n => Str.of_int n
  | SqlText s => s
  end.

(** [v or 'N/A'] *)
Definition or_NA (v : sqlval) : sqlval :=
  match v with
  | SqlText EmptyString | SqlInt 0 => SqlText "N/A"
  | _ => v
  end.

(** The text shown as the URL of a finding (lines 473, 485 and 547). *)
Definition shown_url (scan : list sqlval) : string :=
  fmt (item scan 3) +:+ "://" +:+ fmt (item scan 2) +:+ ":" +:+ fmt (item scan 4).

(** [_generate_terminal_report] without [rich]: the texts printed, one
    per call of [print] (lines 483-489). *)
Definition terminal_report (scans : list (list sqlval)) : list string :=
  [String newline "=== Successful Credential Findings ==="]
  ++ flat_map
       (fun scan =>
          [ String newline ("URL: " +:+ shown_url scan);
            "Method: " +:+ fmt (item scan 5);
            "Username: " +:+ fmt (or_NA (item scan 6));
            "Password: " +:+ fmt (or_NA (item scan 7)) ])
       scans
  ++ [String newline ("Total successful: " +:+ Str.of_int (Z.of_nat (length scans)))].

(** [_generate_csv_report]: the rows handed to [writer.writerow] (lines
    497-502). *)
Definition csv_header : list string :=
  ["URL"; "Host"; "Port"; "Protocol"; "Method"; "Username"; "Password"; "Timestamp"].

Definition csv_record (scan : list sqlval) : list sqlval :=
  [ item scan 1; item scan 2; item scan 4; item scan 3; item scan 5;
    item scan 6; item scan 7; item scan 10 ].

Definition csv_report (scans : list (list sqlval)) : list (list sqlval) :=
  map SqlText csv_header :: map csv_record scans.

(** [_generate_html_report]: the text written to the file (lines 513-559);
    [scan_date] is the formatted time of the call. *)
Definition html_head (scan_date : string) (scans : list (list sqlval)) : string :=
  unlines [
    "<!DOCTYPE html>";
    "<html>";
    "<head>";
    "    <title>Credential Scan Report</title>";
    "    <style>";
    "        body { font-family: Arial, sans-serif; margin: 40px; background: #f5f5f5; }";
    "        h1 { color: #333; }";
    "        .summary { background: #fff; padding: 20px; border-radius: 5px; margin-bottom: 20px; }";
    "        table { width: 100%; border-collapse: collapse; background: #fff; }";
    "        th { background: #4CAF50; color: white; padding: 12px; text-align: left; }";
    "        td { padding: 12px; border-bottom: 1px solid #ddd; }";
    "        tr:hover { background: #f5f5f5; }";
    "        .critical { color: #d32f2f; font-weight: bold; }";
    "    </style>";
    "</head>";
    "<body>";
    "    <h1>Default Credential Scan Report</h1>";
    ("    <div class=" +:+ dquote +:+ "summary" +:+ dquote +:+ ">");
    ("        <p><strong>Scan Date:</strong> " +:+ scan_date +:+ "</p>");
    ("        <p><strong>Total Findings:</strong> <span class=" +:+ dquote +:+ "critical" +:+ dquote +:+ ">" +:+ Str.of_int (Z.of_nat (length scans)) +:+ "</span></p>");
    "    </div>";
    "    <table>";
    "        <tr>";
    "            <th>URL</th>";
    "            <th>Method</th>";
    "            <th>Username</th>";
    "            <th>Password</th>";
    "            <th>Timestamp</th>";
    "        </tr>";
    EmptyString ].

Definition html_row (scan : list sqlval) : string :=
  unlines [
    EmptyString;
    "        <tr>";
    "            <td>" +:+ shown_url scan +:+ "</td>";
    "            <td>" +:+ fmt (item scan 5) +:+ "</td>";
    "            <td>" +:+ fmt (or_NA (item scan 6)) +:+ "</td>";
    "            <td>" +:+ fmt (or_NA (item scan 7)) +:+ "</td>";
    "            <td>" +:+ fmt (item scan 10) +:+ "</td>";
    "        </tr>";
    EmptyString ].

Definition html_foot : string :=
  unlines [ EmptyString; "    </table>"; "</body>"; "</html>"; EmptyString ].

Definition html_report (scan_date : string) (scans : list (list sqlval)) : string :=
  fold_left (fun html scan => html +:+ html_row scan) scans (html_head scan_date scans)
  +:+ html_foot.

(** ** A concrete scan of two targets, for the examples *)

Module DemoRun.

Definition both : methods := mkMethods true true.



Definition stored : Row.t :=
  Row.mk 1 "http://10.0.0.2:8080/app" "10.0.0.2" 8080 "http" "custom-basic"
         "root" "root" true "HTTP 200 - Authenticated" "2024-01-01T00:00:01".

End DemoRun.

(** The characters that end the netloc of a URL. *)
Definition netloc_delimiters : list ascii := ["/"%char; "?"%char; "#"%char].

Module DemoRun2.

(** [httpx] is not installed. *)
Definition e_no_httpx : env :=
  mkEnv (ReadOk "portrule = shortport.http")
        (fun _ _ => TimeoutExpired)
        false
        (fun _ _ => Response 200 "Welcome")
        (fun _ => O)
        Demo.clock
        (fun _ => None)
        (fun _ => false).

(** A line of a file, with its line end. *)
Definition line (s : string) : string := s +:+ String newline EmptyString.

(** The lines of a file of targets; the second line holds a no-break
    space (U+00A0) and nothing else. *)
Definition targets_file : list string :=
  [ line "10.0.0.1";
    line (String (ascii_of_nat 194) (String (ascii_of_nat 160) EmptyString));
    line "  # staging hosts";
    line "# production";
    line "10.0.0.1";
    line EmptyString;
    "example.com:8443  " ].


(** A normalization that knows the fullwidth colon (U+FF1A) of one
    netloc and leaves every other text as it is. *)
Definition nfkc_fullwidth (s : string) : string :=
  if String.eqb s "example.com：80" then "example.com:80" else s.


End DemoRun2.

(** * Properties *)

(** ** Text *)

Lemma append_nil_r (s : string) : s +:+ EmptyString = s.
Proof. induction s as [|a s IH]; simpl; [reflexivity | now rewrite IH]. Qed.

Lemma append_assoc (a b c : string) : (a +:+ b) +:+ c = a +:+ b +:+ c.
Proof. induction a as [|x a IH]; simpl; [reflexivity | now rewrite IH]. Qed.

Lemma startswith_spec (s p : string) :
  Str.startswith s p = true <-> exists post, s = p +:+ post.
Proof.
  revert s. induction p as [|a p IH]; intros s; simpl.
  - split; [intros _; now exists s | intros _; reflexivity].
  - destruct s as [|b s].
    + split; [discriminate | intros [post H]; discriminate].
    + rewrite andb_true_iff, Ascii.eqb_eq, IH. split.
      * intros [-> [post ->]]. now exists post.
      * intros [post H]. injection H as -> ->. split; [reflexivity | now exists post].
Qed.

Lemma startswith_append (p s : string) : Str.startswith (p +:+ s) p = true.
Proof. apply startswith_spec. now exists s. Qed.

Lemma contains_spec (s sub : string) :
  Str.contains s sub = true <-> occurs sub s.
Proof.
  induction s as [|a s IH].
  - simpl. rewrite orb_false_r, startswith_spec. split.
    + intros [post H]. exists EmptyString, post. exact H.
    + intros (pre & post & H). destruct pre; [now exists post | discriminate].
  - cbn [Str.contains]. rewrite orb_true_iff, IH, startswith_spec. split.
    + intros [[post H] | (pre & post & H)].
      * exists EmptyString, post. exact H.
      * exists (String a pre), post. simpl. now rewrite H.
    + intros (pre & post & H). destruct pre as [|b pre].
      * left. now exists post.
      * right. simpl in H. injection H as _ H. now exists pre, post.
Qed.

(** ** The [except] monad *)

Lemma bind_Return_inv {A B : Type} (m : except A) (k : A -> except B) (b : B) :
  m ≫= k = Return b -> exists a, m = Return a /\ k a = Return b.
Proof. destruct m as [a|e]; [intros H; now exists a | discriminate]. Qed.

Lemma raises_bind {A B : Type} (m : except A) (k : A -> except B) :
  raises (m ≫= k) =
  match m with
  | Return a => raises (k a)
  | Raise _ => true
  end.
Proof. now destruct m. Qed.

(** ** [parse_url] *)

Section ParseUrlFacts.

Variable chk : string -> bool.
Variable nfkc : string -> string.

Lemma with_scheme_idem (url : string) : with_scheme (with_scheme url) = with_scheme url.
Proof.
  unfold with_scheme at 2 3.
  destruct (Str.startswith url "http://" || Str.startswith url "https://") eqn:E; simpl.
  - unfold with_scheme. now rewrite E.
  - reflexivity.
Qed.

Lemma with_scheme_cases (url : string) :
  (Str.startswith url "http://" || Str.startswith url "https://" = false
   /\ with_scheme url = "http://" +:+ url)
  \/ (exists rest, with_scheme url = "http://" +:+ rest)
  \/ (exists rest, with_scheme url = "https://" +:+ rest).
Proof.
  unfold with_scheme.
  destruct (Str.startswith url "http://") eqn:E1; cbn [orb negb].
  - right; left. now apply startswith_spec.
  - destruct (Str.startswith url "https://") eqn:E2; cbn [orb negb].
    + right; right. now apply startswith_spec.
    + now left.
Qed.

Lemma split_scheme_http (rest : string) :
  fst (Urllib.split_scheme (Urllib.clean_url ("http://" +:+ rest))) = "http".
Proof. reflexivity. Qed.

Lemma split_scheme_https (rest : string) :
  fst (Urllib.split_scheme (Urllib.clean_url ("https://" +:+ rest))) = "https".
Proof. reflexivity. Qed.

(** The last steps of [urlsplit] cut the fragment and the query off the
    rest [u]; they touch neither the scheme nor the netloc. *)
Ltac split_tail u :=
  destruct (Str.has "#" u); destruct (Str.partition "#" u) as [[? ?] ?];
  repeat match goal with
    | |- context [Str.has "?" ?x] => destruct (Str.has "?" x)
    | |- context [Str.partition "?" ?x] => destruct (Str.partition "?" x) as [[? ?] ?]
    end.

Lemma raises_checknetloc (netloc : string) :
  raises (Urllib._checknetloc nfkc netloc) = nfkc_error nfkc netloc.
Proof.
  unfold Urllib._checknetloc, nfkc_error.
  destruct (Str.isascii netloc); [reflexivity|]. cbn [negb andb].
  destruct (String.eqb _ _); [reflexivity|]. cbn [negb andb].
  now destruct (existsb _ _).
Qed.

Lemma checknetloc_Return (netloc : string) (u : unit) :
  Urllib._checknetloc nfkc netloc = Return u -> nfkc_error nfkc netloc = false.
Proof. intros H. rewrite <- raises_checknetloc, H. reflexivity. Qed.

Lemma urlsplit_Return (url : string) (r : Urllib.SplitResult) :
  Urllib.urlsplit chk nfkc url = Return r ->
  Urllib.sr_scheme r = fst (Urllib.split_scheme (Urllib.clean_url url))
  /\ Urllib.sr_netloc r = Urllib.netloc_of url
  /\ bracket_error chk (Urllib.netloc_of url) = false
  /\ nfkc_error nfkc (Urllib.netloc_of url) = false.
Proof.
  unfold Urllib.urlsplit, Urllib.netloc_of, bracket_error.
  destruct (Urllib.split_scheme (Urllib.clean_url url)) as [sch u]; simpl.
  destruct (Urllib.split_authority u) as [nl u']; simpl.
  destruct (_ || _); [discriminate|].
  destruct (_ && negb (chk nl)); [discriminate|]. simpl.
  split_tail u'; intros H; apply bind_Return_inv in H as (x & Hx & H);
    apply checknetloc_Return in Hx; injection H as <-; auto.
Qed.

Lemma raises_urlsplit (url : string) :
  raises (Urllib.urlsplit chk nfkc url)
  = bracket_error chk (Urllib.netloc_of url) || nfkc_error nfkc (Urllib.netloc_of url).
Proof.
  unfold Urllib.urlsplit, Urllib.netloc_of, bracket_error.
  destruct (Urllib.split_scheme (Urllib.clean_url url)) as [sch u]; simpl.
  destruct (Urllib.split_authority u) as [nl u']; simpl.
  destruct (_ || _); [reflexivity|].
  destruct (_ && negb (chk nl)); [reflexivity|]. simpl.
  split_tail u'; rewrite raises_bind, <- raises_checknetloc;
    now destruct (Urllib._checknetloc nfkc nl).
Qed.

Lemma urlparse_Return (url : string) (r : Urllib.ParseResult) :
  Urllib.urlparse chk nfkc url = Return r ->
  Urllib.scheme r = fst (Urllib.split_scheme (Urllib.clean_url url))
  /\ Urllib.netloc r = Urllib.netloc_of url
  /\ bracket_error chk (Urllib.netloc_of url) = false
  /\ nfkc_error nfkc (Urllib.netloc_of url) = false.
Proof.
  unfold Urllib.urlparse. intros H.
  apply bind_Return_inv in H as (sr & Hsr & H).
  apply urlsplit_Return in Hsr as (Hs & Hn & Hb & Hk).
  destruct (_ && _); [destruct (Urllib._splitparams _)|];
    injection H as <-; simpl; auto.
Qed.

Lemma raises_urlparse (url : string) :
  raises (Urllib.urlparse chk nfkc url)
  = bracket_error chk (Urllib.netloc_of url) || nfkc_error nfkc (Urllib.netloc_of url).
Proof.
  unfold Urllib.urlparse. rewrite raises_bind, <- raises_urlsplit.
  destruct (Urllib.urlsplit chk nfkc url) as [sr|]; [|reflexivity].
  destruct (_ && _); [destruct (Urllib._splitparams _)|]; reflexivity.
Qed.

Lemma int_acc_nonneg (s : string) (acc : Z) :
  0 <= acc -> Str.all Str.is_digit s = true -> 0 <= Str.int_acc acc s.
Proof.
  revert acc. induction s as [|a s IH]; intros acc Hacc Hd; simpl in *; [assumption|].
  apply andb_true_iff in Hd as [Ha Hs]. apply IH; [|assumption].
  unfold Str.is_digit in Ha. apply andb_true_iff in Ha as [Ha _].
  apply Nat.leb_le in Ha. lia.
Qed.

Lemma raises_port (netloc : string) :
  raises (Urllib.port netloc) = port_error netloc.
Proof.
  unfold Urllib.port, port_error.
  destruct (snd (Urllib._hostinfo netloc)) as [p|]; [|reflexivity].
  destruct (Str.isdigit p) eqn:Hd; [|reflexivity]. simpl.
  assert (0 <= Str.int p) as Hp.
  { apply int_acc_nonneg; [lia|]. destruct p; [discriminate | exact Hd]. }
  destruct (0 <=? Str.int p) eqn:E0; [|lia].
  destruct (Str.int p <=? 65535) eqn:E1; destruct (65535 <? Str.int p) eqn:E2;
    simpl; try reflexivity; lia.
Qed.

(** What a returning [parse_url] has computed. *)
Lemma parse_url_Return (url : string) (t : Target.t) :
  parse_url chk nfkc url = Return t ->
  exists parsed port,
    Urllib.urlparse chk nfkc (with_scheme url) = Return parsed
    /\ Urllib.port (Urllib.netloc parsed) = Return port
    /\ t = Target.mk (with_scheme url)
                     (str_or (Urllib.scheme parsed) "http")
                     (match Urllib.hostname (Urllib.netloc parsed) with
                      | Some h => str_or h (split_colon_0 (Urllib.netloc parsed))
                      | None => split_colon_0 (Urllib.netloc parsed)
                      end)
                     (match port with
                      | None | Some 0 => default_port (str_or (Urllib.scheme parsed) "http")
                      | Some p => p
                      end)
                     (str_or (Urllib.path parsed) "/").
Proof.
  unfold parse_url. intros H.
  apply bind_Return_inv in H as (parsed & Hp & H).
  apply bind_Return_inv in H as (port & Hport & H).
  exists parsed, port. repeat split; try assumption.
  injection H as <-. reflexivity.
Qed.

Lemma raises_parse_url (url : string) :
  raises (parse_url chk nfkc url) =
  bracket_error chk (Urllib.netloc_of (with_scheme url))
  || nfkc_error nfkc (Urllib.netloc_of (with_scheme url))
  || port_error (Urllib.netloc_of (with_scheme url)).
Proof.
  unfold parse_url. rewrite raises_bind, <- raises_urlparse.
  destruct (Urllib.urlparse chk nfkc (with_scheme url)) as [parsed|] eqn:Hp; [|reflexivity].
  apply urlparse_Return in Hp as (_ & Hn & _).
  rewrite raises_bind, <- Hn, <- raises_port.
  now destruct (Urllib.port (Urllib.netloc parsed)).
Qed.

Lemma parse_url_proto (url : string) (t : Target.t) :
  parse_url chk nfkc url = Return t ->
  Target.proto t = fst (Urllib.split_scheme (Urllib.clean_url (with_scheme url)))
  /\ (Target.proto t = "http" \/ Target.proto t = "https").
Proof.
  intros H. apply parse_url_Return in H as (parsed & port & Hp & _ & ->).
  apply urlparse_Return in Hp as (Hs & _ & _). simpl. rewrite Hs.
  destruct (with_scheme_cases url) as [[_ ->] | [[rest ->] | [rest ->]]];
    [rewrite split_scheme_http | rewrite split_scheme_http | rewrite split_scheme_https];
    simpl; auto.
Qed.

Lemma parse_url_proto_of_prefix (url : string) (t : Target.t) :
  parse_url chk nfkc url = Return t ->
  Target.proto t = if Str.startswith url "https://" then "https" else "http".
Proof.
  intros H. destruct (parse_url_proto url t H) as [-> _]. unfold with_scheme.
  destruct (Str.startswith url "http://") eqn:E1; cbn [orb negb].
  - apply startswith_spec in E1 as [rest ->]. reflexivity.
  - destruct (Str.startswith url "https://") eqn:E2; cbn [orb negb]; [|reflexivity].
    apply startswith_spec in E2 as [rest ->]. reflexivity.
Qed.

(** C8: a target without a scheme prefix gets the scheme [http], and the
    scheme of a parsed target is [https] exactly when the input starts
    with [https://]; whenever the netloc carries no port text the port is
    the default of that scheme, 80 for [http] and 443 for [https], and a
    port text that is not zero is the port; [parse_url] returns for every
    input whose netloc and port text [urllib] accepts; the input
    [192.168.1.1] parses to [http], [192.168.1.1], 80 and [/], and
    [https://example.com/login] to [https], [example.com], 443 and
    [/login]. *)
Theorem parse_url_defaults :
  (forall url,
      bracket_error chk (Urllib.netloc_of (with_scheme url))
      || nfkc_error nfkc (Urllib.netloc_of (with_scheme url))
      || port_error (Urllib.netloc_of (with_scheme url)) = false ->
      exists t, parse_url chk nfkc url = Return t)
  /\ (forall url t,
      parse_url chk nfkc url = Return t ->
      (Str.startswith url "http://" || Str.startswith url "https://" = false ->
       Target.proto t = "http" /\ Target.url t = "http://" +:+ url)
      /\ Target.proto t = (if Str.startswith url "https://" then "https" else "http")
      /\ (Target.proto t = "http" \/ Target.proto t = "https")
      /\ match snd (Urllib._hostinfo (Urllib.netloc_of (with_scheme url))) with
         | None =>
             Target.port t = default_port (Target.proto t)
             /\ Target.port t = (if Str.startswith url "https://" then 443 else 80)
         | Some p =>
             Target.port t =
             if Str.int p =? 0 then default_port (Target.proto t) else Str.int p
         end)
  /\ default_port "http" = 80
  /\ default_port "https" = 443
  /\ parse_url chk nfkc "192.168.1.1"
     = Return (Target.mk "http://192.168.1.1" "http" "192.168.1.1" 80 "/")
  /\ parse_url chk nfkc "https://example.com/login"
     = Return (Target.mk "https://example.com/login" "https" "example.com" 443 "/login")
  /\ parse_url chk nfkc "https://example.com:8443"
     = Return (Target.mk "https://example.com:8443" "https" "example.com" 8443 "/").
Proof.
  split.
  { intros url H. rewrite <- raises_parse_url in H.
    destruct (parse_url chk nfkc url) as [t|]; [now exists t | discriminate]. }
  split; [|repeat split; reflexivity].
  intros url t H. split; [|split; [|split]].
  - intros E. destruct (parse_url_proto url t H) as [Hs _].
    apply parse_url_Return in H as (parsed & port & _ & _ & Ht).
    assert (with_scheme url = "http://" +:+ url) as Hw
        by (unfold with_scheme; now rewrite E).
    rewrite Hs, Hw, split_scheme_http. rewrite Ht, Hw. auto.
  - apply (parse_url_proto_of_prefix url t H).
  - apply (parse_url_proto url t H).
  - pose proof (parse_url_proto_of_prefix url t H) as Hproto.
    apply parse_url_Return in H as (parsed & port & Hp & Hport & ->).
    apply urlparse_Return in Hp as (_ & Hn & _). rewrite Hn in Hport.
    unfold Urllib.port in Hport. cbn [Target.port Target.proto] in *.
    destruct (snd (Urllib._hostinfo _)) as [p|].
    + destruct (Str.isdigit p); [|discriminate].
      destruct (_ && _); [|discriminate].
      injection Hport as <-. now destruct (Str.int p).
    + injection Hport as <-. split; [reflexivity|].
      rewrite Hproto. now destruct (Str.startswith url "https://").
Qed.

(** C1, as the code has it: [parse_url] raises nothing of its own.  It
    fails exactly when [urlsplit] rejects the netloc, for its brackets or
    for what it becomes under NFKC normalization, or the [port] property
    rejects the port text (not made of digits, or above 65535), each a
    [ValueError]; with an empty netloc it returns, the host being the
    empty text and the port the default of the scheme. *)
Theorem parse_url_fails_iff (url : string) :
  raises (parse_url chk nfkc url) =
    bracket_error chk (Urllib.netloc_of (with_scheme url))
    || nfkc_error nfkc (Urllib.netloc_of (with_scheme url))
    || port_error (Urllib.netloc_of (with_scheme url))
  /\ (Urllib.netloc_of (with_scheme url) = EmptyString ->
      exists t, parse_url chk nfkc url = Return t
                /\ Target.host t = EmptyString
                /\ Target.port t = default_port (Target.proto t)).
Proof.
  split; [apply raises_parse_url|].
  intros Hn.
  destruct (parse_url chk nfkc url) as [t|e] eqn:H.
  - exists t. split; [reflexivity|].
    apply parse_url_Return in H as (parsed & port & Hp & Hport & ->).
    apply urlparse_Return in Hp as (_ & Hn' & _). rewrite Hn in Hn'.
    rewrite Hn' in *. simpl. injection Hport as <-. auto.
  - pose proof (raises_parse_url url) as R. rewrite H, Hn in R. discriminate R.
Qed.

End ParseUrlFacts.

(** ** The order of timestamps and the two queries *)

Lemma ascii_compare_refl (a : ascii) : Ascii.compare a a = Eq.
Proof. unfold Ascii.compare. apply N.compare_refl. Qed.

Lemma string_compare_trans (c : comparison) (x y z : string) :
  String.compare x y = c -> String.compare y z = c -> String.compare x z = c.
Proof.
  revert y z. induction x as [|a x IH]; intros [|b y] [|d z]; simpl; try congruence.
  destruct (Ascii.compare a b) eqn:Hab.
  - apply Ascii.compare_eq_iff in Hab as ->.
    destruct (Ascii.compare b d); [apply IH | congruence ..].
  - intros <-. destruct (Ascii.compare b d) eqn:Hbd; try congruence.
    + apply Ascii.compare_eq_iff in Hbd as <-. now rewrite Hab.
    + intros _. unfold Ascii.compare in *.
      rewrite N.compare_lt_iff in Hab, Hbd.
      now rewrite (proj2 (N.compare_lt_iff _ _) (N.lt_trans _ _ _ Hab Hbd)).
  - intros <-. destruct (Ascii.compare b d) eqn:Hbd; try congruence.
    + apply Ascii.compare_eq_iff in Hbd as <-. now rewrite Hab.
    + intros _. unfold Ascii.compare in *.
      rewrite N.compare_gt_iff in Hab, Hbd.
      now rewrite (proj2 (N.compare_gt_iff _ _) (N.lt_trans _ _ _ Hbd Hab)).
Qed.

Lemma string_leb_trans (x y z : string) :
  String.leb x y = true -> String.leb y z = true -> String.leb x z = true.
Proof.
  unfold String.leb.
  destruct (String.compare x y) eqn:Hxy; [| |discriminate]; intros _;
    destruct (String.compare y z) eqn:Hyz; try discriminate; intros _.
  - apply String.compare_eq_iff in Hxy as ->. now rewrite Hyz.
  - apply String.compare_eq_iff in Hxy as ->. now rewrite Hyz.
  - apply String.compare_eq_iff in Hyz as <-. now rewrite Hxy.
  - now rewrite (string_compare_trans Lt x y z Hxy Hyz).
Qed.

Lemma not_older_trans (a b c : Row.t) : not_older a b -> not_older b c -> not_older a c.
Proof. unfold not_older. intros H1 H2. exact (string_leb_trans _ _ _ H2 H1). Qed.

Lemma insert_desc_Permutation (r : Row.t) (l : list Row.t) :
  Permutation (insert_desc r l) (r :: l).
Proof.
  induction l as [|x l IH]; simpl; [reflexivity|].
  destruct (String.leb _ _); [reflexivity|].
  rewrite IH. apply perm_swap.
Qed.

Lemma insert_desc_sorted (r : Row.t) (l : list Row.t) :
  StronglySorted not_older l -> StronglySorted not_older (insert_desc r l).
Proof.
  induction l as [|x l IH]; simpl; intros Hs.
  - repeat constructor.
  - apply StronglySorted_inv in Hs as [Hl Hx].
    destruct (String.leb (Row.timestamp x) (Row.timestamp r)) eqn:E.
    + constructor; [now constructor|]. constructor; [exact E|].
      eapply List.Forall_impl; [|exact Hx]. intros y Hy. now apply (not_older_trans r x y).
    + constructor; [now apply IH|].
      rewrite (insert_desc_Permutation r l). constructor; [|exact Hx].
      unfold not_older.
      destruct (String.leb_total (Row.timestamp x) (Row.timestamp r)); congruence.
Qed.

Lemma order_by_Permutation (l : list Row.t) : Permutation (order_by_timestamp_desc l) l.
Proof.
  induction l as [|x l IH]; simpl; [reflexivity|].
  rewrite insert_desc_Permutation. now constructor.
Qed.

Lemma order_by_sorted (l : list Row.t) : StronglySorted not_older (order_by_timestamp_desc l).
Proof.
  induction l as [|x l IH]; simpl; [constructor | now apply insert_desc_sorted].
Qed.












(** ** [scan_with_nmap] *)

Lemma not_older_refl (a : Row.t) : not_older a a.
Proof. unfold not_older. now destruct (String.leb_total (Row.timestamp a) (Row.timestamp a)). Qed.

Lemma select_cached_Some (target : Target.t) (rows : list Row.t) (row : Row.t) :
  select_cached target rows = Some row ->
  In row rows /\ cache_match target row = true
  /\ (forall r, In r rows -> cache_match target r = true -> not_older row r).
Proof.
  unfold select_cached. intros H.
  pose proof (order_by_Permutation (List.filter (cache_match target) rows)) as HP.
  pose proof (order_by_sorted (List.filter (cache_match target) rows)) as HS.
  destruct (order_by_timestamp_desc _) as [|x l] eqn:E; [discriminate|].
  injection H as ->.
  assert (In row (List.filter (cache_match target) rows)) as Hin
      by (apply (Permutation_in _ HP); now left).
  apply List.filter_In in Hin as [Hin Hm]. repeat split; try assumption.
  intros r Hr Hrm.
  assert (In r (row :: l)) as [<- | Hl].
  { apply (Permutation_in _ (Permutation_sym HP)). now apply List.filter_In. }
  - apply not_older_refl.
  - apply StronglySorted_inv in HS as [_ HF].
    now apply (proj1 (List.Forall_forall _ _) HF).
Qed.

Lemma select_cached_None (target : Target.t) (rows : list Row.t) :
  select_cached target rows = None <->
  (forall r, In r rows -> cache_match target r = false).
Proof.
  unfold select_cached.
  pose proof (order_by_Permutation (List.filter (cache_match target) rows)) as HP.
  destruct (order_by_timestamp_desc _) as [|x l] eqn:E; simpl.
  - split; [intros _ r Hr | reflexivity].
    destruct (cache_match target r) eqn:Hm; [|reflexivity].
    apply Permutation_nil in HP.
    assert (In r (List.filter (cache_match target) rows)) as Hin
        by now apply List.filter_In.
    rewrite HP in Hin. destruct Hin.
  - split; [discriminate|]. intros H.
    assert (In x (List.filter (cache_match target) rows)) as Hin
        by (apply (Permutation_in _ HP); now left).
    apply List.filter_In in Hin as [Hin Hm]. rewrite (H x Hin) in Hm. discriminate.
Qed.

Lemma db_nmap_try (self : checker) (e : env) (target : Target.t)
    (result : Result.t) (w : world) :
  db (snd (nmap_try self e target result w)) = db w.
Proof.
  unfold nmap_try. destruct (read_nmap_script e); [|reflexivity].
  destruct (write_error e _); [reflexivity|].
  now destruct (subprocess_run e _ _).
Qed.

Lemma method_nmap_try (self : checker) (e : env) (target : Target.t)
    (result : Result.t) (w : world) :
  Result.method (snd (fst (nmap_try self e target result w))) = Result.method result
  /\ Result.cached (snd (fst (nmap_try self e target result w))) = Result.cached result.
Proof.
  unfold nmap_try. destruct (read_nmap_script e); [|split; reflexivity].
  destruct (write_error e _); [split; reflexivity|].
  destruct (subprocess_run e _ _); try (split; reflexivity). simpl.
  destruct (_ || _); [|split; reflexivity].
  now destruct (search_cred (isalnum e) stdout) as [[u p]|].
Qed.

(** What a cache miss does to the table: one row, made of the dict that is
    returned, with the method [nmap-nse]. *)
Lemma scan_with_nmap_miss (self : checker) (e : env) (target : Target.t) (w : world) :
  (if no_cache self then None else select_cached target (db w)) = None ->
  let out := scan_with_nmap self e target w in
  db (snd out) = db w ++ [row_of (Z.of_nat (length (db w)) + 1) (fst out)
                                 (now e (length (db w)))]
  /\ Result.method (fst out) = "nmap-nse"
  /\ Result.cached (fst out) = None.
Proof.
  intros Hc. unfold scan_with_nmap. rewrite Hc.
  pose proof (db_nmap_try self e target
                (Result.mk (Target.url target) (Target.host target) (Target.port target)
                   (Target.proto target) "nmap-nse" None None false None None) w) as Hdb.
  pose proof (method_nmap_try self e target
                (Result.mk (Target.url target) (Target.host target) (Target.port target)
                   (Target.proto target) "nmap-nse" None None false None None) w)
    as [Hm Hk].
  destruct (nmap_try _ _ _ _ _) as [[exc result] w1]. simpl in *.
  rewrite Hdb. split; [reflexivity|].
  destruct exc; simpl; rewrite Hm, Hk; split; reflexivity.
Qed.

(** C5: with the cache in use and a row of the method [nmap-nse] for the
    target's host, port and protocol in the table, the scan returns the
    fields of such a row, the one with the latest timestamp, tagged
    [cached], and leaves the table as it was; in every other execution it
    appends exactly one row, the one of the dict it returns. *)
Theorem scan_with_nmap_cache (self : checker) (e : env) (target : Target.t) (w : world) :
  (no_cache self = false ->
   (exists r, In r (db w) /\ cache_match target r = true) ->
   exists row,
     In row (db w) /\ cache_match target row = true
     /\ (forall r, In r (db w) -> cache_match target r = true -> not_older row r)
     /\ scan_with_nmap self e target w = (cached_result target row, w))
  /\ (no_cache self = true \/ (forall r, In r (db w) -> cache_match target r = false) ->
      let out := scan_with_nmap self e target w in
      db (snd out) = db w ++ [row_of (Z.of_nat (length (db w)) + 1) (fst out)
                                     (now e (length (db w)))]
      /\ Result.cached (fst out) = None).
Proof.
  split.
  - intros Hnc (r & Hr & Hm).
    destruct (select_cached target (db w)) as [row|] eqn:Hs.
    + exists row. destruct (select_cached_Some _ _ _ Hs) as (H1 & H2 & H3).
      repeat split; try assumption.
      unfold scan_with_nmap. now rewrite Hnc, Hs.
    + rewrite (proj1 (select_cached_None _ _) Hs r Hr) in Hm. discriminate.
  - intros H.
    assert ((if no_cache self then None else select_cached target (db w)) = None) as Hc.
    { destruct H as [-> | H]; [reflexivity|].
      destruct (no_cache self); [reflexivity | now apply select_cached_None]. }
    destruct (scan_with_nmap_miss self e target w Hc) as (H1 & _ & H3). auto.
Qed.

(** C2, what the code does with the transient script: when the script of
    nmap cannot be read, or the transient script cannot be written, no
    file is created; when the child process ends the file is gone; when
    the child process times out or fails otherwise, the file written
    before is still there on return. *)
Theorem temp_script_after_scan (self : checker) (e : env) (target : Target.t) (w : world) :
  (if no_cache self then None else select_cached target (db w)) = None ->
  let temp := temp_script_path self target in
  let after := files (snd (scan_with_nmap self e target w)) in
  match read_nmap_script e with
  | ReadError _ => after = files w
  | ReadOk content =>
      match write_error e temp with
      | Some _ => after = files w
      | None =>
          match subprocess_run e (nmap_cmd self target temp) (timeout self) with
          | Completed _ => after !! temp = None
          | TimeoutExpired | ProcError _ =>
              after !! temp = Some (sub_portrule (Target.port target) content)
          end
      end
  end.
Proof.
  intros Hc. unfold scan_with_nmap. rewrite Hc. unfold nmap_try.
  destruct (read_nmap_script e) as [content|msg]; [|reflexivity].
  destruct (write_error e _); [reflexivity|].
  destruct (subprocess_run e _ _); simpl.
  - apply lookup_delete_eq.
  - apply lookup_insert_eq.
  - apply lookup_insert_eq.
Qed.

(** ** [scan_with_custom] *)

Section Probe.

Variables (self : checker) (e : env) (target : Target.t).

Lemma authenticated_200 (status_code : Z) (text : string) :
  authenticated status_code text = true -> status_code = 200.
Proof. unfold authenticated. intros H. apply andb_true_iff in H as [H _]. lia. Qed.

(** A turn of the loop, by the answer to its request. *)
Lemma attempt_cases (cred : Cred.t) (w : world) :
  let req := request_of self e target cred (length (requests w)) in
  attempt self e target cred w =
  match send e (requests w) req with
  | Response status_code text =>
      if authenticated status_code text
      then (Break (success_result target cred),
            _save_result e (success_result target cred) (log_request req w))
      else (Continue (attempt_result target cred), log_request req w)
  | RequestError msg =>
      (Continue (Result.set_response ("Error: " +:+ msg) (attempt_result target cred)),
       log_request req w)
  end.
Proof.
  unfold attempt. simpl.
  destruct (send e _ _) as [status_code text|msg]; [|reflexivity].
  destruct (authenticated status_code text) eqn:Ha; [|reflexivity].
  apply authenticated_200 in Ha as ->. reflexivity.
Qed.

Lemma wins_0 (cred : Cred.t) (creds : list Cred.t) (w : world) :
  wins self e target (cred :: creds) w 0 =
  match send e (requests w) (request_of self e target cred (length (requests w))) with
  | Response status_code text => authenticated status_code text
  | RequestError _ => false
  end.
Proof. unfold wins. simpl. now rewrite app_nil_r. Qed.

Lemma wins_S (cred : Cred.t) (creds : list Cred.t) (w : world) (j : nat) :
  wins self e target (cred :: creds) w (S j) =
  wins self e target creds
       (log_request (request_of self e target cred (length (requests w))) w) j.
Proof.
  unfold wins. simpl. destruct (nth_error creds j); [|reflexivity].
  now rewrite last_length, <- app_assoc.
Qed.

Lemma probe_no_winner (creds : list Cred.t) (results : list Result.t) (w : world) :
  (forall j, wins self e target creds w j = false) ->
  probe self e target creds results w =
  (results,
   mkWorld (db w) (self_results w) (files w)
           (requests w ++ requests_for self e target creds (length (requests w)))).
Proof.
  revert w. induction creds as [|cred creds IH]; intros w H; simpl.
  - rewrite app_nil_r. now destruct w.
  - pose proof (H O) as H0. rewrite wins_0 in H0.
    rewrite attempt_cases. simpl.
    assert (forall j, wins self e target creds
                (log_request (request_of self e target cred (length (requests w))) w) j
              = false) as H' by (intros j; rewrite <- wins_S; apply H).
    destruct (send e _ _) as [status_code text|msg]; [rewrite H0|];
      rewrite (IH _ H'); simpl;
      now rewrite last_length, <- app_assoc.
Qed.

Lemma probe_winner (creds : list Cred.t) (results : list Result.t) (w : world)
    (k : nat) (cred : Cred.t) :
  nth_error creds k = Some cred ->
  wins self e target creds w k = true ->
  (forall j, (j < k)%nat -> wins self e target creds w j = false) ->
  probe self e target creds results w =
  (results ++ [success_result target cred],
   _save_result e (success_result target cred)
     (mkWorld (db w) (self_results w) (files w)
        (requests w
         ++ requests_for self e target (firstn (S k) creds) (length (requests w))))).
Proof.
  revert w k. induction creds as [|c creds IH]; intros w k Hn Hw Hlt.
  - destruct k; discriminate.
  - simpl probe. rewrite attempt_cases. simpl. destruct k as [|k].
    + injection Hn as ->. rewrite wins_0 in Hw.
      destruct (send e _ _) as [status_code text|msg]; [|discriminate].
      rewrite Hw. reflexivity.
    + pose proof (Hlt O (Nat.lt_0_succ k)) as H0. rewrite wins_0 in H0.
      rewrite wins_S in Hw.
      assert (forall j, (j < k)%nat ->
                wins self e target creds
                  (log_request (request_of self e target c (length (requests w))) w) j
                = false) as H'
          by (intros j Hj; rewrite <- wins_S; apply Hlt; lia).
      simpl in Hn.
      destruct (send e _ _) as [status_code text|msg]; [rewrite H0|];
        rewrite (IH _ _ Hn Hw H'); simpl;
        now rewrite last_length, <- app_assoc.
Qed.

Lemma probe_requests (creds : list Cred.t) (results : list Result.t) (w : world) :
  exists n, (n <= length creds)%nat
    /\ requests (snd (probe self e target creds results w))
       = requests w ++ requests_for self e target (firstn n creds) (length (requests w)).
Proof.
  revert w. induction creds as [|c creds IH]; intros w.
  - exists O. simpl. now rewrite app_nil_r.
  - simpl probe. rewrite attempt_cases. simpl.
    destruct (IH (log_request (request_of self e target c (length (requests w))) w))
      as (n & Hn & Hr).
    simpl in Hr. rewrite last_length, <- app_assoc in Hr.
    destruct (send e _ _) as [status_code text|msg];
      [destruct (authenticated status_code text)|].
    + exists 1%nat. simpl. split; [lia | reflexivity].
    + exists (S n). simpl. split; [lia | exact Hr].
    + exists (S n). simpl. split; [lia | exact Hr].
Qed.

Lemma probe_rows (creds : list Cred.t) (results : list Result.t) (w : world) :
  exists new, db (snd (probe self e target creds results w)) = db w ++ new
    /\ (length new <= 1)%nat
    /\ Forall (fun r => Row.method r = "custom-basic" /\ Row.success r = true) new.
Proof.
  revert w. induction creds as [|c creds IH]; intros w.
  - exists []. simpl. rewrite app_nil_r. repeat split; [lia | constructor].
  - simpl probe. rewrite attempt_cases. simpl.
    destruct (send e _ _) as [status_code text|msg];
      [destruct (authenticated status_code text)|];
      try exact (IH (log_request (request_of self e target c (length (requests w))) w)).
    eexists. simpl. split; [reflexivity|]. split; [simpl; lia|].
    constructor; [split; reflexivity | constructor].
Qed.

Lemma length_requests_for (creds : list Cred.t) (sent : nat) :
  length (requests_for self e target creds sent) = length creds.
Proof.
  revert sent. induction creds as [|c creds IH]; intros sent; simpl;
    [reflexivity | now rewrite IH].
Qed.

(** C3: the scan sends the requests of an initial part of the credential
    list, one each and in list order, so never more than the list has
    entries; when the answer for a credential is the first classified as
    a success, the requests stop with that credential, one row is added
    to the table and the dict of that credential alone is returned. *)
Theorem scan_with_custom_requests (w : world) :
  let out := scan_with_custom self e target w in
  (exists n, (n <= length DEFAULT_CREDS)%nat
     /\ requests (snd out)
        = requests w
          ++ requests_for self e target (firstn n DEFAULT_CREDS) (length (requests w)))
  /\ (length (requests (snd out)) <= length (requests w) + length DEFAULT_CREDS)%nat
  /\ (httpx_installed e = true ->
      forall k cred,
        nth_error DEFAULT_CREDS k = Some cred ->
        wins self e target DEFAULT_CREDS w k = true ->
        (forall j, (j < k)%nat -> wins self e target DEFAULT_CREDS w j = false) ->
        requests (snd out)
        = requests w
          ++ requests_for self e target (firstn (S k) DEFAULT_CREDS) (length (requests w))
        /\ db (snd out)
           = db w ++ [row_of (Z.of_nat (length (db w)) + 1)
                             (success_result target cred) (now e (length (db w)))]
        /\ fst out = [success_result target cred]).
Proof.
  intros out.
  assert (exists n, (n <= length DEFAULT_CREDS)%nat
     /\ requests (snd out)
        = requests w
          ++ requests_for self e target (firstn n DEFAULT_CREDS) (length (requests w)))
    as Hn.
  { unfold out, scan_with_custom. destruct (httpx_installed e).
    - apply probe_requests.
    - exists O. simpl. rewrite app_nil_r. split; [lia | reflexivity]. }
  split; [exact Hn|]. split.
  - destruct Hn as (n & Hn & ->).
    rewrite length_app, length_requests_for, length_firstn. lia.
  - intros Hx k cred Hk Hw Hlt. unfold out, scan_with_custom. rewrite Hx.
    rewrite (probe_winner DEFAULT_CREDS [] w k cred Hk Hw Hlt). simpl. auto.
Qed.

(** C7: when the request for a credential ends in a transport error, the
    dict of that attempt gets the error text as its [response] and stays
    unsuccessful, nothing is saved, and the loop goes on with the next
    credential; when every request fails that way the scan still walks the
    whole list and returns, with no result. *)
Theorem transport_error_continues (cred : Cred.t) (creds : list Cred.t)
    (results : list Result.t) (w : world) (msg : string) :
  let req := request_of self e target cred (length (requests w)) in
  send e (requests w) req = RequestError msg ->
  (exists result,
      attempt self e target cred w = (Continue result, log_request req w)
      /\ Result.response result = Some ("Error: " +:+ msg)
      /\ Result.success result = false)
  /\ probe self e target (cred :: creds) results w
     = probe self e target creds results (log_request req w)
  /\ ((forall log r, exists m, send e log r = RequestError m) ->
      httpx_installed e = true ->
      scan_with_custom self e target w
      = ([], mkWorld (db w) (self_results w) (files w)
               (requests w
                ++ requests_for self e target DEFAULT_CREDS (length (requests w))))).
Proof.
  intros req Hs. split; [|split].
  - eexists. rewrite attempt_cases. fold req. rewrite Hs. repeat split.
  - simpl probe. rewrite attempt_cases. fold req. now rewrite Hs.
  - intros Hall Hx. unfold scan_with_custom. rewrite Hx.
    apply probe_no_winner. intros j. unfold wins.
    destruct (nth_error DEFAULT_CREDS j) as [c|]; [|reflexivity].
    match goal with |- context [send e ?l ?r] => destruct (Hall l r) as [m ->] end.
    reflexivity.
Qed.

End Probe.

(** C4: an answer is classified as a success exactly when its status is
    200 and its body, in lower case, holds one of [logout], [dashboard]
    and [welcome]; a turn of the loop is a success exactly when it got
    such an answer. *)
Theorem authenticated_iff :
  (forall status_code text,
      authenticated status_code text = true <->
      status_code = 200
      /\ exists m, In m ["logout"; "dashboard"; "welcome"] /\ occurs m (Str.lower text))
  /\ (forall self e target cred w,
        classified_success (fst (attempt self e target cred w)) =
        match send e (requests w)
                   (request_of self e target cred (length (requests w))) with
        | Response status_code text => authenticated status_code text
        | RequestError _ => false
        end).
Proof.
  split.
  - intros status_code text. unfold authenticated, success_indicators.
    rewrite andb_true_iff, Z.eqb_eq, List.existsb_exists. split.
    + intros [H (m & Hin & Hm)]. split; [exact H|].
      exists m. split; [exact Hin | now apply contains_spec].
    + intros [H (m & Hin & Hm)]. split; [exact H|].
      exists m. split; [exact Hin | now apply contains_spec].
  - intros self e target cred w. rewrite attempt_cases. simpl.
    destruct (send e _ _) as [status_code text|msg]; [|reflexivity].
    now destruct (authenticated status_code text).
Qed.

(** ** The table over a run *)

Lemma db_scan_with_custom (self : checker) (e : env) (target : Target.t) (w : world) :
  exists new, db (snd (scan_with_custom self e target w)) = db w ++ new
    /\ (length new <= 1)%nat
    /\ Forall (fun r => Row.method r = "custom-basic" /\ Row.success r = true) new.
Proof.
  unfold scan_with_custom. destruct (httpx_installed e); [apply probe_rows|].
  exists []. simpl. rewrite app_nil_r. repeat split; [lia | constructor].
Qed.

(** C10: the probe scan appends at most one row, a row of the method
    [custom-basic] with [success] set; so in every table a run of the
    program reaches, each row of the method [custom-basic] has [success]
    set. *)
Theorem custom_rows_are_successes :
  (forall self e target w,
      exists new, db (snd (scan_with_custom self e target w)) = db w ++ new
        /\ (length new <= 1)%nat
        /\ Forall (fun r => Row.method r = "custom-basic" /\ Row.success r = true) new)
  /\ (forall w, reachable w ->
        Forall (fun r => Row.method r = "custom-basic" -> Row.success r = true) (db w)).
Proof.
  split; [exact db_scan_with_custom|].
  intros w H. induction H as [fs | self e target w H IH | self e target w H IH].
  - constructor.
  - destruct (if no_cache self then None else select_cached target (db w)) as [row|] eqn:Hc.
    + unfold scan_with_nmap. now rewrite Hc.
    + destruct (scan_with_nmap_miss self e target w Hc) as (Hdb & Hm & _).
      rewrite Hdb. apply Forall_app. split; [exact IH|].
      constructor; [|constructor]. simpl. rewrite Hm. discriminate.
  - destruct (db_scan_with_custom self e target w) as (new & -> & _ & Hnew).
    apply Forall_app. split; [exact IH|].
    eapply List.Forall_impl; [|exact Hnew]. now intros r [_ Hr] _.
Qed.

(** ** The theorems at concrete inputs *)

(** C1: the two directions of the specification's sentence fail.  The
    empty input has an empty netloc, yet [parse_url] returns, with the
    empty host; [example.com:99999] has the host [example.com], yet
    [parse_url] raises, and so it does for a host followed by a fullwidth
    colon, which NFKC turns into a colon. *)
Lemma parse_url_host_and_failure_unrelated :
  Urllib.netloc_of (with_scheme EmptyString) = EmptyString
  /\ parse_url accept_bracketed nfkc_fixed EmptyString
     = Return (Target.mk "http://" "http" EmptyString 80 "/")
  /\ Urllib.hostname (Urllib.netloc_of (with_scheme "example.com:99999"))
     = Some "example.com"
  /\ parse_url accept_bracketed nfkc_fixed "example.com:99999"
     = Raise (ValueError Port_out_of_range)
  /\ parse_url accept_bracketed DemoRun2.nfkc_fullwidth "example.com：80"
     = Raise (ValueError Invalid_under_NFKC).
Proof. repeat split; reflexivity. Qed.

Lemma parse_url_fails_iff_witness :
  exists t, parse_url accept_bracketed nfkc_fixed EmptyString = Return t
            /\ Target.host t = EmptyString
            /\ Target.port t = default_port (Target.proto t).
Proof.
  exact (proj2 (parse_url_fails_iff accept_bracketed nfkc_fixed EmptyString) eq_refl).
Defined.

Lemma parse_url_defaults_witness :
  parse_url accept_bracketed nfkc_fixed "example.com:8080/x"
  = Return (Target.mk "http://example.com:8080/x" "http" "example.com" 8080 "/x")
  /\ (Target.proto (Target.mk "http://example.com:8080/x" "http" "example.com" 8080 "/x")
      = "http"
      /\ Target.url (Target.mk "http://example.com:8080/x" "http" "example.com" 8080 "/x")
         = "http://" +:+ "example.com:8080/x")
  /\ exists t, parse_url accept_bracketed nfkc_fixed "https://example.com" = Return t
               /\ Target.proto t = "https" /\ Target.port t = 443.
Proof.
  split; [reflexivity|].
  pose proof (parse_url_defaults accept_bracketed nfkc_fixed) as (Hret & Hshape & _).
  split; [exact (proj1 (Hshape "example.com:8080/x" _ eq_refl) eq_refl)|].
  destruct (Hret "https://example.com" eq_refl) as [t Ht]. exists t.
  destruct (Hshape "https://example.com" t Ht) as (_ & Hproto & _ & Hport).
  split; [exact Ht|]. split; [exact Hproto | exact (proj2 Hport)].
Defined.

Lemma scan_with_nmap_cache_witness :
  let w1 := snd (scan_with_nmap Demo.self Demo.e Demo.target empty_world) in
  length (db w1) = 1%nat
  /\ (exists row,
        In row (db w1) /\ cache_match Demo.target row = true
        /\ (forall r, In r (db w1) -> cache_match Demo.target r = true -> not_older row r)
        /\ scan_with_nmap Demo.self Demo.e Demo.target w1
           = (cached_result Demo.target row, w1))
  /\ (let out := scan_with_nmap Demo.self Demo.e Demo.target empty_world in
      db (snd out)
      = db empty_world
        ++ [row_of (Z.of_nat (length (db empty_world)) + 1) (fst out)
                   (now Demo.e (length (db empty_world)))]
      /\ Result.cached (fst out) = None).
Proof.
  intros w1. split; [reflexivity|]. split.
  - apply (proj1 (scan_with_nmap_cache Demo.self Demo.e Demo.target w1)); [reflexivity|].
    eexists. split; [left; reflexivity | reflexivity].
  - apply (proj2 (scan_with_nmap_cache Demo.self Demo.e Demo.target empty_world)).
    right. intros r [].
Defined.

Lemma temp_script_after_scan_witness :
  files (snd (scan_with_nmap Demo.self Demo.e Demo.target empty_world))
    !! "/opt/cred_checker/temp_10.0.0.1_80.nse"
  = Some (sub_portrule 80 "portrule = shortport.http").
Proof.
  exact (temp_script_after_scan Demo.self Demo.e Demo.target empty_world eq_refl).
Defined.

Lemma scan_with_custom_requests_witness :
  let out := scan_with_custom Demo.self Demo.e Demo.target empty_world in
  requests (snd out)
  = requests_for Demo.self Demo.e Demo.target (firstn 3 DEFAULT_CREDS) 0
  /\ db (snd out)
     = [row_of 1 (success_result Demo.target (Cred.mk "root" "root" "generic"))
               (Demo.clock 0)]
  /\ fst out = [success_result Demo.target (Cred.mk "root" "root" "generic")].
Proof.
  refine (proj2 (proj2 (scan_with_custom_requests Demo.self Demo.e Demo.target empty_world))
                eq_refl 2%nat (Cred.mk "root" "root" "generic") eq_refl eq_refl _).
  intros j Hj. destruct j as [|[|j]]; [reflexivity | reflexivity | lia].
Defined.

Lemma transport_error_continues_witness :
  (exists result,
      attempt Demo.self Demo.e_offline Demo.target (Cred.mk "admin" "admin" "generic")
              empty_world
      = (Continue result,
         log_request (request_of Demo.self Demo.e_offline Demo.target
                                 (Cred.mk "admin" "admin" "generic") 0) empty_world)
      /\ Result.response result = Some "Error: connection refused"
      /\ Result.success result = false)
  /\ length (requests (snd (scan_with_custom Demo.self Demo.e_offline Demo.target
                                             empty_world))) = 10%nat.
Proof.
  pose proof (transport_error_continues Demo.self Demo.e_offline Demo.target
                (Cred.mk "admin" "admin" "generic") (tl DEFAULT_CREDS) [] empty_world
                "connection refused" eq_refl) as (H1 & _ & H3).
  split; [exact H1|].
  rewrite (H3 (fun _ _ => ex_intro _ "connection refused" eq_refl) eq_refl).
  reflexivity.
Defined.

Lemma custom_rows_are_successes_witness :
  let w := snd (scan_with_custom Demo.self Demo.e Demo.target
                  (snd (scan_with_nmap Demo.self Demo.e Demo.target empty_world))) in
  length (db w) = 2%nat
  /\ Forall (fun r => Row.method r = "custom-basic" -> Row.success r = true) (db w).
Proof.
  intros w. split; [reflexivity|].
  apply (proj2 custom_rows_are_successes).
  apply reach_custom, reach_nmap. exact (reach_start ∅).
Defined.

(** * More of [parse_url] *)

Section TargetShape.

Variable chk : string -> bool.
Variable nfkc : string -> string.

Lemma before_cons (c a : ascii) (s : string) :
  before c (String a s) = if Ascii.eqb a c then EmptyString else String a (before c s).
Proof.
  unfold before. simpl. destruct (Ascii.eqb a c); [reflexivity|].
  now destruct (Str.partition c s) as [[h b] t].
Qed.

Lemma before_no_sep (c : ascii) (s : string) :
  Str.has c s = false -> before c s = s.
Proof.
  unfold Str.has. induction s as [|a s IH]; [reflexivity|].
  rewrite before_cons. simpl. destruct (Ascii.eqb a c); [discriminate|].
  destruct (Str.find c s); [discriminate|]. intros _. now rewrite IH.
Qed.

Lemma cut_at_fst (c : ascii) (s : string) :
  (if Str.has c s
   then let '(u, _, f) := Str.partition c s in (u, f)
   else (s, EmptyString)).1 = before c s.
Proof.
  destruct (Str.has c s) eqn:E; [|rewrite (before_no_sep _ _ E); reflexivity].
  unfold before. destruct (Str.partition c s) as [[? ?] ?]. reflexivity.
Qed.

(** The rest of a URL after [urlsplit] cut the fragment and the query. *)
Lemma urlsplit_path (url : string) (r : Urllib.SplitResult) :
  Urllib.urlsplit chk nfkc url = Return r ->
  Urllib.sr_path r =
  before "?" (before "#" (snd (Urllib.split_authority
                                 (snd (Urllib.split_scheme (Urllib.clean_url url)))))).
Proof.
  unfold Urllib.urlsplit.
  destruct (Urllib.split_scheme (Urllib.clean_url url)) as [sch u]; simpl.
  destruct (Urllib.split_authority u) as [nl u']; simpl.
  destruct (_ || _); [discriminate|].
  destruct (_ && negb (chk nl)); [discriminate|]. simpl.
  pose proof (cut_at_fst "#" u') as H1.
  destruct (if Str.has "#" u' then _ else _) as [u1 f]. simpl in H1. subst u1.
  pose proof (cut_at_fst "?" (before "#" u')) as H2.
  destruct (if Str.has "?" (before "#" u') then _ else _) as [u2 q]. simpl in H2. subst u2.
  intros H. apply bind_Return_inv in H as (x & _ & H). now injection H as <-.
Qed.

Lemma find_drop (c : ascii) (s : string) (i : nat) :
  Str.find c s = Some i -> exists t, Str.drop i s = String c t.
Proof.
  revert i. induction s as [|a s IH]; intros i; simpl; [discriminate|].
  destruct (Ascii.eqb a c) eqn:E.
  - intros H. injection H as <-. apply Ascii.eqb_eq in E as ->. now exists s.
  - destruct (Str.find c s) as [j|]; [|discriminate].
    intros H. injection H as <-. simpl. now apply IH.
Qed.

Lemma drop_drop (a b : nat) (s : string) :
  Str.drop (a + b) s = Str.drop b (Str.drop a s).
Proof.
  revert s. induction a as [|a IH]; intros s; [reflexivity|].
  destruct s as [|x s]; simpl; [now destruct b | apply IH].
Qed.

Lemma drop_length (s : string) : Str.drop (String.length s) s = EmptyString.
Proof. induction s as [|a s IH]; [reflexivity | exact IH]. Qed.

Lemma at_delimiter_step (url : string) (start d : nat) (c : ascii) :
  Ascii.eqb c "/" || Ascii.eqb c "?" || Ascii.eqb c "#" = true ->
  at_delimiter (Str.drop d url) = true ->
  at_delimiter
    (Str.drop match Str.find_from c start url with
              | Some wdelim => Nat.min d wdelim
              | None => d
              end url) = true.
Proof.
  intros Hc Hd. unfold Str.find_from.
  destruct (Str.find c (Str.drop start url)) as [i|] eqn:E; simpl; [|exact Hd].
  destruct (Nat.min_dec d (start + i)) as [-> | ->]; [exact Hd|].
  apply find_drop in E as [t E]. rewrite drop_drop, E. exact Hc.
Qed.

(** What [_splitnetloc] leaves after the netloc starts at a delimiter. *)
Lemma splitnetloc_rest (url : string) (start : nat) :
  at_delimiter (snd (Urllib._splitnetloc url start)) = true.
Proof.
  unfold Urllib._splitnetloc. simpl.
  repeat (apply at_delimiter_step; [reflexivity|]).
  now rewrite drop_length.
Qed.

Lemma path_after_cuts (s : string) :
  at_delimiter s = true ->
  before "?" (before "#" s) = EmptyString
  \/ exists t, before "?" (before "#" s) = String "/" t.
Proof.
  destruct s as [|c s]; [now left|]. simpl. rewrite !orb_true_iff, !Ascii.eqb_eq.
  intros [[-> | ->] | ->].
  - right. rewrite before_cons. simpl. rewrite before_cons. simpl. eauto.
  - left. rewrite before_cons. simpl. now rewrite before_cons.
  - left. now rewrite before_cons.
Qed.

Lemma splitparams_slash (t : string) :
  exists t', fst (Urllib._splitparams (String "/" t)) = String "/" t'.
Proof.
  unfold Urllib._splitparams.
  change (Str.has "/" (String "/" t)) with true. cbv iota.
  change (Str.rfind "/" (String "/" t))
    with (match Str.rfind "/" t with Some i => Some (S i) | None => Some O end).
  destruct (Str.rfind "/" t) as [i|].
  - unfold Str.find_from.
    destruct (Str.find ";" (Str.drop (S i) (String "/" t))) as [j|]; simpl; eauto.
  - unfold Str.find_from. simpl.
    destruct (Str.find ";" t) as [j|]; simpl; eauto.
Qed.

(** The path [urlparse] returns for a URL that has a netloc part. *)
Lemma urlparse_path (x : string) (sch : string) (url : string) (p : Urllib.ParseResult) :
  Urllib.split_scheme (Urllib.clean_url url) = (sch, String "/" (String "/" x)) ->
  Urllib.urlparse chk nfkc url = Return p ->
  Urllib.path p = EmptyString \/ exists t, Urllib.path p = String "/" t.
Proof.
  intros Hs H. unfold Urllib.urlparse in H.
  apply bind_Return_inv in H as (sr & Hsr & H).
  apply urlsplit_path in Hsr. rewrite Hs in Hsr. cbn [snd] in Hsr.
  assert (at_delimiter (snd (Urllib.split_authority (String "/" (String "/" x)))) = true)
    as Hd by exact (splitnetloc_rest (String "/" (String "/" x)) 2).
  apply path_after_cuts in Hd. rewrite <- Hsr in Hd.
  destruct (_ && _) eqn:E.
  - destruct Hd as [Hd | [t Hd]].
    + rewrite Hd in E. rewrite andb_comm in E. discriminate.
    + rewrite Hd in H. destruct (splitparams_slash t) as [t' Ht'].
      destruct (Urllib._splitparams (String "/" t)) as [u q].
      injection H as <-. simpl in *. eauto.
  - injection H as <-. exact Hd.
Qed.

Lemma scheme_split_http (rest : string) :
  exists x, Urllib.split_scheme (Urllib.clean_url ("http://" +:+ rest))
            = ("http", String "/" (String "/" x)).
Proof. eexists. reflexivity. Qed.

Lemma scheme_split_https (rest : string) :
  exists x, Urllib.split_scheme (Urllib.clean_url ("https://" +:+ rest))
            = ("https", String "/" (String "/" x)).
Proof. eexists. reflexivity. Qed.

(** X1: the dict of a returning [parse_url] is fit for building the request
    URL: the port is between 1 and 65535, the path starts with a slash and
    the [url] entry starts with the scheme of [proto] and [://]. *)
Theorem parse_url_wellformed (url : string) (t : Target.t) :
  parse_url chk nfkc url = Return t ->
  1 <= Target.port t <= 65535
  /\ Str.startswith (Target.path t) "/" = true
  /\ Str.startswith (Target.url t) (Target.proto t +:+ "://") = true.
Proof.
  intros H. apply parse_url_Return in H as (parsed & port & Hp & Hport & ->). simpl.
  assert (exists sch x,
             Urllib.split_scheme (Urllib.clean_url (with_scheme url))
             = (sch, String "/" (String "/" x))
             /\ (sch = "http" \/ sch = "https")
             /\ Str.startswith (with_scheme url) (sch +:+ "://") = true)
    as (sch & x & Hs & Hsch & Hpre).
  { destruct (with_scheme_cases url) as [[_ ->] | [[rest ->] | [rest ->]]].
    - destruct (scheme_split_http url) as [x Hx]. exists "http", x. auto.
    - destruct (scheme_split_http rest) as [x Hx]. exists "http", x. auto.
    - destruct (scheme_split_https rest) as [x Hx]. exists "https", x. auto. }
  pose proof (urlparse_path x sch _ parsed Hs Hp) as Hpath.
  apply urlparse_Return in Hp as (Hscheme & Hn & _).
  rewrite Hs in Hscheme. simpl in Hscheme. rewrite Hscheme.
  split; [|split].
  - unfold Urllib.port in Hport.
    destruct (snd (Urllib._hostinfo _)) as [ptxt|].
    + destruct (Str.isdigit ptxt); [|discriminate].
      destruct (0 <=? Str.int ptxt) eqn:E0; [|discriminate].
      destruct (Str.int ptxt <=? 65535) eqn:E1; [|discriminate].
      injection Hport as <-. apply Z.leb_le in E0, E1.
      destruct (Str.int ptxt) eqn:Ei; [|lia|lia].
      destruct Hsch as [-> | ->]; simpl; unfold default_port; simpl; lia.
    + injection Hport as <-.
      destruct Hsch as [-> | ->]; simpl; unfold default_port; simpl; lia.
  - destruct Hpath as [-> | [t' ->]]; reflexivity.
  - destruct Hsch as [-> | ->]; exact Hpre.
Qed.

End TargetShape.

(** * The characters of a text *)

Lemma join_app (a b : list string) : Utf8.join (a ++ b) = Utf8.join a +:+ Utf8.join b.
Proof.
  induction a as [|x a IH]; [reflexivity|]. simpl. now rewrite IH, append_assoc.
Qed.

Lemma join_chars (s : string) : Utf8.join (Utf8.chars s) = s.
Proof.
  induction s as [|a s IH]; [reflexivity|]. cbn [Utf8.chars].
  destruct (Utf8.chars s) as [|c cs].
  - simpl in *. now rewrite <- IH.
  - destruct (Utf8.starts_with_continuation s); simpl in *; now rewrite IH.
Qed.

(** The characters of a byte, continuation bytes and a text that starts
    with a character. *)
Lemma chars_group (a : ascii) (t rest : string) :
  Str.all Utf8.is_continuation t = true ->
  Utf8.starts_with_continuation rest = false ->
  Utf8.chars (String a (t +:+ rest)) = String a t :: Utf8.chars rest.
Proof.
  revert a. induction t as [|x t IH]; intros a Ht Hrest.
  - cbn [String.append Utf8.chars]. rewrite Hrest. now destruct (Utf8.chars rest).
  - simpl in Ht. apply andb_true_iff in Ht as [Hx Ht].
    change (String a (String x t +:+ rest)) with (String a (String x (t +:+ rest))).
    cbn [Utf8.chars] in *. rewrite (IH x Ht Hrest).
    cbn [Utf8.starts_with_continuation]. now rewrite Hx.
Qed.

Lemma starts_join (c : string) (cs : list string) :
  Utf8.is_char c = true ->
  Utf8.starts_with_continuation (Utf8.join (c :: cs)) = Utf8.starts_with_continuation c.
Proof. destruct c; [discriminate | reflexivity]. Qed.

Lemma segmented_cons (c : string) (cs : list string) :
  Utf8.segmented (c :: cs) = true ->
  Utf8.is_char c = true /\ Utf8.segmented cs = true
  /\ Utf8.starts_with_continuation (Utf8.join cs) = false.
Proof.
  unfold Utf8.segmented. cbn [forallb tl]. intros H.
  apply andb_true_iff in H as [H1 H2]. apply andb_true_iff in H1 as [Hc H1].
  split; [exact Hc|]. destruct cs as [|d cs]; [now repeat split|].
  cbn [forallb tl] in *. apply andb_true_iff in H2 as [Hd H2].
  apply andb_true_iff in H1 as [Hd1 H1'].
  split; [now rewrite Hd1, H1', H2|].
  rewrite (starts_join d cs Hd1). now apply negb_true_iff.
Qed.

(** The characters of a text made of characters are these characters. *)
Lemma chars_join (cs : list string) :
  Utf8.segmented cs = true -> Utf8.chars (Utf8.join cs) = cs.
Proof.
  induction cs as [|c cs IH]; [reflexivity|]. intros H.
  apply segmented_cons in H as (Hc & Hs & Hstart).
  destruct c as [|a t]; [discriminate|]. cbn [Utf8.is_char] in Hc.
  change (Utf8.join (String a t :: cs)) with (String a (t +:+ Utf8.join cs)).
  now rewrite (chars_group a t _ Hc Hstart), (IH Hs).
Qed.

Lemma segmented_chars (s : string) : Utf8.segmented (Utf8.chars s) = true.
Proof.
  unfold Utf8.segmented.
  assert (forallb Utf8.is_char (Utf8.chars s) = true
          /\ forallb (fun c => negb (Utf8.starts_with_continuation c)) (tl (Utf8.chars s))
             = true
          /\ match Utf8.chars s with
             | [] => s = EmptyString
             | c :: _ =>
                 Utf8.starts_with_continuation c = Utf8.starts_with_continuation s
             end) as (H1 & H2 & _); [|now rewrite H1, H2].
  induction s as [|a s (H1 & H2 & H3)]; [now repeat split|]. cbn [Utf8.chars].
  destruct (Utf8.chars s) as [|c cs].
  - subst s. now repeat split.
  - destruct (Utf8.starts_with_continuation s) eqn:E; cbn [forallb tl] in *.
    + apply andb_true_iff in H1 as [Hc H1]. rewrite H1, H2.
      destruct c as [|x c]; [discriminate|]. simpl in *. rewrite H3, Hc.
      now repeat split.
    + rewrite H1, H2, H3. now repeat split.
Qed.

Lemma segmented_app (a b : list string) :
  Utf8.segmented (a ++ b) = true -> Utf8.segmented a = true /\ Utf8.segmented b = true.
Proof.
  unfold Utf8.segmented. intros H. apply andb_true_iff in H as [H1 H2].
  rewrite forallb_app in H1. apply andb_true_iff in H1 as [Ha Hb]. rewrite Ha, Hb.
  destruct a as [|x a]; simpl in *.
  - split; [reflexivity | exact H2].
  - rewrite forallb_app in H2. apply andb_true_iff in H2 as [H2 H3]. rewrite H2.
    split; [reflexivity|]. destruct b as [|y b]; [reflexivity|].
    simpl in *. now apply andb_true_iff in H3 as [_ ->].
Qed.

Lemma length_join_pos (cs : list string) :
  Utf8.segmented cs = true -> cs <> [] -> (0 < String.length (Utf8.join cs))%nat.
Proof.
  destruct cs as [|c cs]; [congruence|]. intros H _.
  apply segmented_cons in H as (Hc & _). destruct c; [discriminate|]. simpl. lia.
Qed.

(** * More of [scan_with_nmap] *)

Lemma take_drop_while {A : Type} (p : A -> bool) (l : list A) :
  take_while p l ++ drop_while p l = l.
Proof.
  induction l as [|a l IH]; [reflexivity|]. simpl.
  destruct (p a); simpl; [now rewrite IH | reflexivity].
Qed.

Lemma all_take_while {A : Type} (p : A -> bool) (l : list A) :
  forallb p (take_while p l) = true.
Proof.
  induction l as [|a l IH]; [reflexivity|]. simpl.
  destruct (p a) eqn:E; simpl; [now rewrite E | reflexivity].
Qed.

Lemma match_cred_here_Some (word : string -> bool) (cs : list string) (u p : string) :
  match_cred_here word cs = Some (u, p) ->
  exists us ps post,
    cs = us ++ ":" :: ps ++ post
    /\ u = Utf8.join us /\ p = Utf8.join ps /\ us <> [] /\ ps <> []
    /\ forallb word us = true /\ forallb word ps = true.
Proof.
  unfold match_cred_here.
  pose proof (take_drop_while word cs) as Hs.
  pose proof (all_take_while word cs) as Hu.
  destruct (take_while word cs) as [|g g1]; [discriminate|].
  destruct (drop_while word cs) as [|c rest]; [discriminate|].
  destruct (String.eqb c ":") eqn:Ec; [|discriminate].
  apply String.eqb_eq in Ec as ->.
  pose proof (take_drop_while word rest) as Hr.
  pose proof (all_take_while word rest) as Hp.
  destruct (take_while word rest) as [|b g2]; [discriminate|].
  intros H. injection H as <- <-.
  exists (g :: g1), (b :: g2), (drop_while word rest).
  rewrite Hr. repeat split; try assumption; try discriminate. now rewrite Hs.
Qed.

Lemma search_chars_Some (word : string -> bool) (cs : list string) (u p : string) :
  search_chars word cs = Some (u, p) ->
  exists pre us ps post,
    cs = pre ++ us ++ ":" :: ps ++ post
    /\ u = Utf8.join us /\ p = Utf8.join ps /\ us <> [] /\ ps <> []
    /\ forallb word us = true /\ forallb word ps = true.
Proof.
  induction cs as [|x cs IH]; cbn [search_chars].
  - destruct (match_cred_here word []) as [m|] eqn:Hm; [|discriminate].
    intros H. injection H as ->.
    apply match_cred_here_Some in Hm as (us & ps & post & H). now exists [], us, ps, post.
  - destruct (match_cred_here word (x :: cs)) as [m|] eqn:Hm.
    + intros H. injection H as ->.
      apply match_cred_here_Some in Hm as (us & ps & post & H).
      now exists [], us, ps, post.
    + intros H. destruct (IH H) as (pre & us & ps & post & -> & H').
      now exists (x :: pre), us, ps, post.
Qed.

(** X2: the pair [re.search] finds for [(\w+):(\w+)] is made of two
    non-empty runs of word characters that stand in the text with a colon
    between them, and a pair is found whenever the text holds a word
    character, a colon and a word character in a row.  A word character
    is an ASCII letter or digit, an underscore, or a character beyond
    ASCII that [str.isalnum] accepts. *)
Theorem search_cred_spec (isalnum : string -> bool) (s : string) :
  (forall u p,
      search_cred isalnum s = Some (u, p) ->
      (0 < String.length u)%nat /\ (0 < String.length p)%nat
      /\ forallb (is_word isalnum) (Utf8.chars u) = true
      /\ forallb (is_word isalnum) (Utf8.chars p) = true
      /\ occurs (u +:+ ":" +:+ p) s)
  /\ (forall pre a b post,
        is_word isalnum a = true -> is_word isalnum b = true ->
        Utf8.chars s = pre ++ a :: ":" :: b :: post ->
        exists m, search_cred isalnum s = Some m).
Proof.
  unfold search_cred. split.
  - intros u p H.
    apply search_chars_Some in H
      as (pre & us & ps & post & Hcs & -> & -> & Hus & Hps & Hwu & Hwp).
    pose proof (segmented_chars s) as Hseg. rewrite Hcs in Hseg.
    apply segmented_app in Hseg as [_ Hseg].
    apply segmented_app in Hseg as [Hsu Hseg].
    change (":" :: ps ++ post) with ([":"] ++ ps ++ post) in Hseg.
    apply segmented_app in Hseg as [_ Hseg].
    apply segmented_app in Hseg as [Hsp _].
    rewrite (chars_join us Hsu), (chars_join ps Hsp).
    split; [now apply length_join_pos|]. split; [now apply length_join_pos|].
    split; [exact Hwu|]. split; [exact Hwp|].
    exists (Utf8.join pre), (Utf8.join post).
    rewrite <- (join_chars s), Hcs.
    change (":" :: ps ++ post) with ([":"] ++ ps ++ post).
    rewrite !join_app. change (Utf8.join [":"]) with ":".
    now rewrite !append_assoc.
  - intros pre a b post Ha Hb ->.
    induction pre as [|x pre IH].
    + cbn [app search_chars]. unfold match_cred_here. cbn [take_while drop_while].
      rewrite Ha. change (is_word isalnum ":") with false. cbn [take_while drop_while].
      change (String.eqb ":" ":") with true. rewrite Hb. eauto.
    + cbn [app search_chars]. destruct (match_cred_here _ _); [eauto | exact IH].
Qed.

Lemma has_cons (c a : ascii) (s : string) :
  Str.has c (String a s) = Ascii.eqb a c || Str.has c s.
Proof.
  unfold Str.has. simpl. destruct (Ascii.eqb a c); [reflexivity|].
  now destruct (Str.find c s).
Qed.

Lemma has_append (c : ascii) (s t : string) :
  Str.has c (s +:+ t) = Str.has c s || Str.has c t.
Proof.
  induction s as [|a s IH]; [reflexivity|].
  simpl. rewrite !has_cons, IH. apply orb_assoc.
Qed.

Lemma lines_one (l : string) :
  Str.has newline l = false -> lines l = [l].
Proof.
  induction l as [|a l IH]; [reflexivity|].
  rewrite has_cons. intros H. apply orb_false_iff in H as [Ha Hl].
  simpl. rewrite Ha, (IH Hl). reflexivity.
Qed.

Lemma lines_append_line (l rest : string) :
  Str.has newline l = false ->
  lines (l +:+ String newline rest) = l :: lines rest.
Proof.
  induction l as [|a l IH].
  - intros _. reflexivity.
  - rewrite has_cons. intros H. apply orb_false_iff in H as [Ha Hl].
    simpl. rewrite Ha, (IH Hl). reflexivity.
Qed.

Lemma lines_unlines (l : string) (ls : list string) :
  Forall (fun x => Str.has newline x = false) (l :: ls) ->
  lines (unlines (l :: ls)) = l :: ls.
Proof.
  revert l. induction ls as [|l' ls IH]; intros l H.
  - apply lines_one. now inversion H.
  - inversion H as [|? ? Hl Hr]; subst.
    cbn [unlines]. rewrite (lines_append_line _ _ Hl). f_equal. now apply IH.
Qed.

Lemma lines_shape (s : string) :
  exists l ls, lines s = l :: ls
               /\ Forall (fun x => Str.has newline x = false) (l :: ls).
Proof.
  induction s as [|a s (l & ls & E & H)].
  - exists EmptyString, []. split; [reflexivity | now repeat constructor].
  - simpl. rewrite E. destruct (Ascii.eqb a newline) eqn:Ha.
    + exists EmptyString, (l :: ls). split; [reflexivity | now constructor].
    + exists (String a l), ls. split; [reflexivity|].
      inversion H; subst. constructor; [|assumption].
      rewrite has_cons, Ha. assumption.
Qed.

Lemma unlines_lines (s : string) : unlines (lines s) = s.
Proof.
  induction s as [|a s IH]; [reflexivity|].
  simpl. destruct (lines_shape s) as (l & ls & E & _). rewrite E in *.
  destruct (Ascii.eqb a newline) eqn:Ha.
  - apply Ascii.eqb_eq in Ha as ->.
    change (unlines (EmptyString :: l :: ls))
      with (String newline (unlines (l :: ls))).
    now rewrite IH.
  - destruct ls as [|l' ls].
    + simpl in *. now rewrite IH.
    + change (unlines (String a l :: l' :: ls))
        with (String a (l +:+ String newline (unlines (l' :: ls)))).
      change (unlines (l :: l' :: ls))
        with (l +:+ String newline (unlines (l' :: ls))) in IH.
      now rewrite IH.
Qed.

Lemma uint_no_newline (d : Decimal.uint) :
  Str.has newline (NilEmpty.string_of_uint d) = false.
Proof. induction d; simpl; rewrite ?has_cons; simpl; auto. Qed.

Lemma of_int_no_newline (n : Z) : Str.has newline (Str.of_int n) = false.
Proof.
  unfold Str.of_int, NilZero.string_of_int, NilZero.string_of_uint.
  destruct (Z.to_int n) as [d|d]; [|rewrite has_cons];
    (destruct d; [reflexivity | apply uint_no_newline ..]).
Qed.

Lemma portrule_no_newline (port : Z) : Str.has newline (portrule port) = false.
Proof.
  unfold portrule. rewrite !has_append, of_int_no_newline. reflexivity.
Qed.

Lemma sub_portrule_line_again (p q : Z) (l : string) :
  sub_portrule_line q (sub_portrule_line p l) = sub_portrule_line q l.
Proof.
  unfold sub_portrule_line.
  destruct (Str.startswith l "portrule =") eqn:E; [reflexivity | now rewrite E].
Qed.

(** X3: rewriting the port rule works line by line and keeps the number
    of lines: a line that starts with [portrule =] becomes the rule of the
    port, every other line stays; rewriting an already rewritten script for
    another port gives what rewriting the original for that port gives, so
    rewriting twice for one port changes nothing more; a script without
    such a line is left as it is. *)
Theorem sub_portrule_lines (p q : Z) (script_content : string) :
  lines (sub_portrule p script_content)
  = map (sub_portrule_line p) (lines script_content)
  /\ sub_portrule q (sub_portrule p script_content) = sub_portrule q script_content
  /\ sub_portrule p (sub_portrule p script_content) = sub_portrule p script_content
  /\ (Forall (fun l => Str.startswith l "portrule =" = false) (lines script_content) ->
      sub_portrule p script_content = script_content).
Proof.
  assert (forall r c, lines (sub_portrule r c) = map (sub_portrule_line r) (lines c)) as L.
  { intros r c. unfold sub_portrule.
    destruct (lines_shape c) as (l & ls & E & H). rewrite E.
    change (map _ (l :: ls))
      with (sub_portrule_line r l :: map (sub_portrule_line r) ls).
    apply lines_unlines.
    change (Forall (fun x => Str.has newline x = false)
                   (map (sub_portrule_line r) (l :: ls))).
    apply Forall_map. eapply List.Forall_impl; [|exact H].
    intros x Hx. simpl. unfold sub_portrule_line.
    destruct (Str.startswith x "portrule ="); [apply portrule_no_newline | exact Hx]. }
  assert (forall r s c, sub_portrule s (sub_portrule r c) = sub_portrule s c) as A.
  { intros r s c. unfold sub_portrule at 1.
    change (fun l => if Str.startswith l "portrule =" then portrule s else l)
      with (sub_portrule_line s).
    rewrite L, map_map. unfold sub_portrule. f_equal.
    apply map_ext. intros l. apply sub_portrule_line_again. }
  split; [apply L|]. split; [apply A|]. split; [apply A|].
  intros H. unfold sub_portrule. rewrite <- (unlines_lines script_content) at 2.
  f_equal. rewrite <- (map_id (lines script_content)) at 2.
  apply map_ext_in. intros l Hl.
  now rewrite (proj1 (List.Forall_forall _ _) H l Hl).
Qed.



Lemma filter_none {A : Type} (f : A -> bool) (l : list A) :
  (forall x, In x l -> f x = false) -> List.filter f l = [].
Proof.
  induction l as [|a l IH]; intros H; [reflexivity|]. simpl.
  rewrite (H a (or_introl eq_refl)). apply IH. intros x Hx. apply H. now right.
Qed.





(** * The targets of [main] *)

Lemma drop_while_head {A : Type} (p : A -> bool) (l : list A) :
  match drop_while p l with
  | [] => True
  | a :: _ => p a = false
  end.
Proof.
  induction l as [|a l IH]; [exact I|]. simpl.
  destruct (p a) eqn:E; [exact IH | exact E].
Qed.

Lemma drop_while_idem {A : Type} (p : A -> bool) (l : list A) :
  drop_while p (drop_while p l) = drop_while p l.
Proof.
  pose proof (drop_while_head p l) as H.
  destruct (drop_while p l) as [|a l']; [reflexivity|]. simpl. now rewrite H.
Qed.

(** What is left of characters when those a predicate accepts are dropped
    at both ends. *)
Lemma strip_chars (p : string -> bool) (cs : list string) :
  let kept := rev (drop_while p (rev (drop_while p cs))) in
  (exists pre post, cs = pre ++ kept ++ post)
  /\ drop_while p kept = kept
  /\ drop_while p (rev kept) = rev kept.
Proof.
  intros kept.
  pose proof (take_drop_while p cs) as H1.
  pose proof (take_drop_while p (rev (drop_while p cs))) as H2.
  apply (f_equal (@rev string)) in H2. rewrite rev_app_distr, rev_involutive in H2.
  fold kept in H2.
  split; [|split].
  - exists (take_while p cs), (rev (take_while p (rev (drop_while p cs)))).
    now rewrite H2.
  - pose proof (drop_while_head p cs) as Hh. rewrite <- H2 in Hh.
    destruct kept as [|a k]; [reflexivity|]. simpl in *. now rewrite Hh.
  - unfold kept. rewrite rev_involutive. apply drop_while_idem.
Qed.

Lemma strip_idem (s : string) : strip (strip s) = strip s.
Proof.
  unfold strip.
  destruct (strip_chars isspace (Utf8.chars s)) as ((pre & post & Hcs) & Hl & Hr).
  set (kept := rev (drop_while isspace (rev (drop_while isspace (Utf8.chars s))))) in *.
  pose proof (segmented_chars s) as Hseg. rewrite Hcs in Hseg.
  apply segmented_app in Hseg as [_ Hseg]. apply segmented_app in Hseg as [Hseg _].
  rewrite (chars_join kept Hseg), Hl, Hr. now rewrite rev_involutive.
Qed.

Lemma length_pos_neq (s : string) :
  negb (String.eqb s EmptyString) = true <-> (0 < String.length s)%nat.
Proof. destruct s; simpl; split; intros H; try reflexivity; try discriminate; lia. Qed.

(** X6: the targets read from a file are the stripped texts of the lines
    that are not blank and whose first character is not [#], in the order
    of the file and as often as the file has them: the targets of two
    parts of a file are those of the first part followed by those of the
    second, and one line gives one target or none.  Each target is
    non-empty and has no white space left at either end.  The test for
    [#] is made on the line as read: a line whose [#] follows white space
    is a target. *)
Theorem read_targets_spec (file_lines : list string) :
  (forall first rest,
      file_lines = first ++ rest ->
      read_targets file_lines = read_targets first ++ read_targets rest)
  /\ (forall line,
        file_lines = [line] ->
        read_targets file_lines
        = if String.eqb (strip line) EmptyString || Str.startswith line "#"
          then [] else [strip line])
  /\ Forall (fun t => (0 < String.length t)%nat /\ strip t = t) (read_targets file_lines)
  /\ (forall t, In t (read_targets file_lines) <->
                exists line, In line file_lines /\ strip line = t
                             /\ (0 < String.length t)%nat
                             /\ Str.startswith line "#" = false)
  /\ (length (read_targets file_lines) <= length file_lines)%nat
  /\ (forall line, In line file_lines ->
                   Str.startswith (strip line) "#" = true ->
                   Str.startswith line "#" = false ->
                   In (strip line) (read_targets file_lines)).
Proof.
  assert (forall t, In t (read_targets file_lines) <->
                exists line, In line file_lines /\ strip line = t
                             /\ (0 < String.length t)%nat
                             /\ Str.startswith line "#" = false) as Hin.
  { intros t. unfold read_targets. rewrite in_map_iff. split.
    - intros (line & <- & H). apply List.filter_In in H as [H1 H2].
      apply andb_true_iff in H2 as [H2 H3]. apply length_pos_neq in H2.
      apply negb_true_iff in H3. now exists line.
    - intros (line & H1 & <- & H2 & H3). exists line. split; [reflexivity|].
      apply List.filter_In. split; [exact H1|].
      apply andb_true_iff. split; [now apply length_pos_neq | now rewrite H3]. }
  split; [|split; [|split; [|split; [exact Hin | split]]]].
  - intros first rest ->. unfold read_targets. now rewrite List.filter_app, map_app.
  - intros line ->. unfold read_targets. cbn [List.filter].
    destruct (String.eqb (strip line) EmptyString); cbn [negb andb orb]; [reflexivity|].
    now destruct (Str.startswith line "#").
  - apply List.Forall_forall. intros t Ht.
    apply Hin in Ht as (line & _ & <- & H & _). split; [exact H | apply strip_idem].
  - unfold read_targets. rewrite length_map. apply List.filter_length_le.
  - intros line H1 H2 H3. apply Hin. exists line. repeat split; try assumption.
    destruct (strip line); [discriminate | simpl; lia].
Qed.

(** * More of [scan_with_custom] *)

Section ProbeShape.

Variables (self : checker) (e : env) (target : Target.t).

Lemma auth_requests_for (creds : list Cred.t) (sent : nat) :
  map Request.auth (requests_for self e target creds sent) = map auth_of creds.
Proof.
  revert sent. induction creds as [|c creds IH]; intros sent; [reflexivity|].
  simpl. now rewrite IH.
Qed.

Lemma request_of_shape (cred : Cred.t) (sent : nat) :
  probe_request self target (request_of self e target cred sent).
Proof.
  unfold probe_request, request_of.
  cbn [Request.url Request.timeout Request.verify Request.follow_redirects
       Request.user_agent].
  do 4 (split; [reflexivity|]).
  destruct (evasion self); [|reflexivity]. split; [reflexivity|].
  apply nth_In. apply Nat.mod_upper_bound. discriminate.
Qed.

Lemma requests_for_shape (creds : list Cred.t) (sent : nat) :
  Forall (probe_request self target) (requests_for self e target creds sent).
Proof.
  revert sent. induction creds as [|c creds IH]; intros sent; simpl; constructor;
    [apply request_of_shape | apply IH].
Qed.

Lemma NoDup_firstn {A : Type} (n : nat) (l : list A) :
  List.NoDup l -> List.NoDup (firstn n l).
Proof.
  intros H. rewrite <- (firstn_skipn n l) in H. now apply NoDup_app_remove_r in H.
Qed.

Lemma DEFAULT_CREDS_distinct : List.NoDup (map auth_of DEFAULT_CREDS).
Proof.
  unfold DEFAULT_CREDS, auth_of. simpl.
  repeat (constructor; [simpl; intuition congruence|]). constructor.
Qed.

(** X7: the probe only sends what it is meant to send.  The new requests
    all ask for the URL built from the target, with the configured
    timeout, certificate checks off and redirects followed; the
    credentials they carry are an initial part of the credential list, in
    list order and none twice; a User-Agent is set exactly in evasion mode
    and then is one of the pool. *)
Theorem probe_requests_shape (w : world) :
  let out := scan_with_custom self e target w in
  exists new n,
    requests (snd out) = requests w ++ new
    /\ map Request.auth new = firstn n (map auth_of DEFAULT_CREDS)
    /\ List.NoDup (map Request.auth new)
    /\ Forall (probe_request self target) new.
Proof.
  intros out.
  assert (exists n, requests (snd out)
                    = requests w ++ requests_for self e target (firstn n DEFAULT_CREDS)
                                                 (length (requests w))) as [n Hn].
  { unfold out, scan_with_custom. destruct (httpx_installed e).
    - destruct (probe_requests self e target DEFAULT_CREDS [] w) as (n & _ & H). eauto.
    - exists O. simpl. now rewrite app_nil_r. }
  exists (requests_for self e target (firstn n DEFAULT_CREDS) (length (requests w))), n.
  split; [exact Hn|]. rewrite auth_requests_for, <- firstn_map.
  split; [reflexivity|]. split; [|apply requests_for_shape].
  apply NoDup_firstn, DEFAULT_CREDS_distinct.
Qed.

Lemma least_true (f : nat -> bool) (k : nat) :
  (forall i, (i < k)%nat -> f i = false)
  \/ (exists j, (j < k)%nat /\ f j = true /\ forall i, (i < j)%nat -> f i = false).
Proof.
  induction k as [|k [IH | IH]].
  - left. intros i Hi. lia.
  - destruct (f k) eqn:E.
    + right. exists k. repeat split; [lia | exact E | exact IH].
    + left. intros i Hi. destruct (Nat.eq_dec i k) as [-> | Hne]; [exact E|].
      apply IH. lia.
  - right. destruct IH as (j & Hj & H). exists j. split; [lia | exact H].
Qed.

Lemma wins_in_range (creds : list Cred.t) (w : world) (k : nat) :
  wins self e target creds w k = true -> (k < length creds)%nat.
Proof.
  unfold wins. destruct (nth_error creds k) eqn:E; [|discriminate].
  intros _. apply nth_error_Some. congruence.
Qed.

(** X8: the probe returns at most one dict, the success dict of a
    credential of the list; without [httpx] it does nothing at all, and
    with it a dict is returned exactly when the answer to some credential
    is classified as a success. *)
Theorem custom_finding_iff (w : world) :
  let out := scan_with_custom self e target w in
  (httpx_installed e = false -> out = ([], w))
  /\ (length (fst out) <= 1)%nat
  /\ Forall (fun r => exists cred, In cred DEFAULT_CREDS /\ r = success_result target cred)
            (fst out)
  /\ (httpx_installed e = true ->
      ((exists k, wins self e target DEFAULT_CREDS w k = true) <->
       exists r, fst out = [r])).
Proof.
  intros out. unfold out, scan_with_custom.
  destruct (httpx_installed e).
  - destruct (least_true (wins self e target DEFAULT_CREDS w) (length DEFAULT_CREDS))
      as [Hno | (j & Hj & Hw & Hlt)].
    + assert (forall k, wins self e target DEFAULT_CREDS w k = false) as Hall.
      { intros k. destruct (wins self e target DEFAULT_CREDS w k) eqn:E; [|reflexivity].
        rewrite <- E. apply Hno. exact (wins_in_range DEFAULT_CREDS w k E). }
      rewrite (probe_no_winner self e target DEFAULT_CREDS [] w Hall). simpl.
      split; [discriminate|]. split; [lia|]. split; [constructor|].
      intros _. split.
      * intros [k Hk]. rewrite Hall in Hk. discriminate.
      * intros [r Hr]. discriminate.
    + destruct (nth_error DEFAULT_CREDS j) as [cred|] eqn:Hn;
        [|apply nth_error_None in Hn; lia].
      rewrite (probe_winner self e target DEFAULT_CREDS [] w j cred Hn Hw Hlt).
      cbn [fst app]. split; [discriminate|]. split; [simpl; lia|].
      split.
      * constructor; [|constructor]. exists cred. split; [|reflexivity].
        eapply nth_error_In. exact Hn.
      * intros _. split; [eauto | intros _; eauto].
  - simpl. split; [reflexivity|]. split; [lia|]. split; [constructor | discriminate].
Qed.

End ProbeShape.

(** * The two scans, by cases *)

Lemma nmap_try_frame (self : checker) (e : env) (target : Target.t)
    (result : Result.t) (w : world) :
  let out := nmap_try self e target result w in
  db (snd out) = db w /\ self_results (snd out) = self_results w
  /\ requests (snd out) = requests w.
Proof.
  unfold nmap_try. destruct (read_nmap_script e); [|now repeat split].
  destruct (write_error e _); [now repeat split|].
  destruct (subprocess_run e _ _); now repeat split.
Qed.

Lemma nmap_try_credentials (self : checker) (e : env) (target : Target.t) (w : world) :
  let r := snd (fst (nmap_try self e target
                       (Result.mk (Target.url target) (Target.host target)
                          (Target.port target) (Target.proto target) "nmap-nse"
                          None None false None None) w)) in
  Result.success r = false -> Result.username r = None /\ Result.password r = None.
Proof.
  unfold nmap_try. destruct (read_nmap_script e); [|now split].
  destruct (write_error e _); [now split|].
  destruct (subprocess_run e _ _); try now split. simpl.
  destruct (_ || _); [|now split].
  destruct (search_cred (isalnum e) stdout) as [[u p]|]; discriminate.
Qed.

(** A scan with nmap is a cache hit, which changes nothing and answers
    from a row of the table, or it saves the dict it returns. *)
Lemma scan_with_nmap_cases (self : checker) (e : env) (target : Target.t) (w : world) :
  let out := scan_with_nmap self e target w in
  (exists row, In row (db w) /\ Row.success row = Result.success (fst out)
               /\ snd out = w)
  \/ (db (snd out) = db w ++ [row_of (Z.of_nat (length (db w)) + 1) (fst out)
                                     (now e (length (db w)))]
      /\ self_results (snd out) = self_results w ++ [fst out]
      /\ requests (snd out) = requests w
      /\ Result.method (fst out) = "nmap-nse"
      /\ (Result.success (fst out) = false ->
          Result.username (fst out) = None /\ Result.password (fst out) = None)).
Proof.
  intros out. unfold out, scan_with_nmap.
  destruct (if no_cache self then None else select_cached target (db w))
    as [row|] eqn:Hc.
  - left. exists row. destruct (no_cache self); [discriminate|].
    apply select_cached_Some in Hc as (Hin & _ & _). now repeat split.
  - right.
    pose proof (nmap_try_frame self e target
                  (Result.mk (Target.url target) (Target.host target)
                     (Target.port target) (Target.proto target) "nmap-nse"
                     None None false None None) w) as (Hdb & Hres & Hreq).
    pose proof (method_nmap_try self e target
                  (Result.mk (Target.url target) (Target.host target)
                     (Target.port target) (Target.proto target) "nmap-nse"
                     None None false None None) w) as [Hm _].
    pose proof (nmap_try_credentials self e target w) as Hcred.
    destruct (nmap_try _ _ _ _ _) as [[exc r] w1]. simpl in *.
    unfold _save_result. cbn [db self_results requests]. rewrite Hdb, Hres, Hreq.
    do 3 (split; [reflexivity|]).
    destruct exc; simpl; rewrite Hm; split; try reflexivity; exact Hcred.
Qed.

(** A probe returns nothing and saves nothing, or returns and saves the
    success dict of one credential of the list. *)
Lemma scan_with_custom_cases (self : checker) (e : env) (target : Target.t) (w : world) :
  let out := scan_with_custom self e target w in
  (fst out = [] /\ db (snd out) = db w /\ self_results (snd out) = self_results w)
  \/ (exists cred,
         In cred DEFAULT_CREDS
         /\ fst out = [success_result target cred]
         /\ db (snd out)
            = db w ++ [row_of (Z.of_nat (length (db w)) + 1)
                              (success_result target cred) (now e (length (db w)))]
         /\ self_results (snd out) = self_results w ++ [success_result target cred]).
Proof.
  intros out. unfold out, scan_with_custom.
  destruct (httpx_installed e); [|now left].
  destruct (least_true (wins self e target DEFAULT_CREDS w) (length DEFAULT_CREDS))
    as [Hno | (j & Hj & Hw & Hlt)].
  - left. rewrite (probe_no_winner self e target DEFAULT_CREDS [] w); [now repeat split|].
    intros k. destruct (wins self e target DEFAULT_CREDS w k) eqn:E; [|reflexivity].
    rewrite <- E. apply Hno. exact (wins_in_range self e target DEFAULT_CREDS w k E).
  - right. destruct (nth_error DEFAULT_CREDS j) as [cred|] eqn:Hn;
      [|apply nth_error_None in Hn; lia].
    exists cred. rewrite (probe_winner self e target DEFAULT_CREDS [] w j cred Hn Hw Hlt).
    split; [eapply nth_error_In; exact Hn | now repeat split].
Qed.

(** * What a run keeps true of the table *)

Lemma mirrors_row_of (id : Z) (result : Result.t) (ts : string) :
  mirrors (row_of id result ts) result.
Proof. reflexivity. Qed.

Lemma success_result_sound (target : Target.t) (cred : Cred.t) (id : Z) (ts : string) :
  In cred DEFAULT_CREDS -> sound_row (row_of id (success_result target cred) ts).
Proof.
  intros H. split; [|discriminate]. right. split; [reflexivity|]. now exists cred.
Qed.

(** X9: in every table a run of the program reaches, the rows and the
    dicts of [self.results] are the same records in the same order; every
    row comes from one of the two methods, a row of the probe carries a
    credential of the list, and a row without success carries neither a
    user name nor a password. *)
Theorem run_keeps_table_sound (w : world) :
  reachable w ->
  Forall2 mirrors (db w) (self_results w) /\ Forall sound_row (db w).
Proof.
  intros H. induction H as [fs | self e target w H [IH1 IH2] | self e target w H [IH1 IH2]].
  - split; constructor.
  - destruct (scan_with_nmap_cases self e target w)
      as [(row & _ & _ & ->) | (-> & -> & _ & Hm & Hc)].
    + now split.
    + split.
      * apply Forall2_app; [exact IH1|]. constructor; [apply mirrors_row_of | constructor].
      * apply Forall_app. split; [exact IH2|]. constructor; [|constructor].
        split; [left; exact Hm|]. cbn [row_of Row.success Row.username Row.password].
        intros Hs. destruct (Hc Hs) as [-> ->]. now split.
  - destruct (scan_with_custom_cases self e target w)
      as [(_ & -> & ->) | (cred & Hin & _ & -> & ->)].
    + now split.
    + split.
      * apply Forall2_app; [exact IH1|]. constructor; [apply mirrors_row_of | constructor].
      * apply Forall_app. split; [exact IH2|]. constructor; [|constructor].
        now apply success_result_sound.
Qed.

(** * [scan_targets]: the counts *)





(** * [scan_target] and a whole run *)

Section Run.

Variables (chk : string -> bool) (nfkc : string -> string).
Variables (self : checker) (m : methods).

Lemma found_mk (target : Target.t) (n : option Result.t) (c : list Result.t) :
  found (Scan.mk target n c)
  = match n with Some r => Result.success r | None => false end
    || existsb Result.success c.
Proof. reflexivity. Qed.

Lemma scan_target_store (e : env) (url : string) (w : world) :
  let out := scan_target chk nfkc self m e url w in
  (raises (fst out) = true -> snd out = w)
  /\ exists by_nmap by_custom,
       db (snd out) = db w ++ by_nmap ++ by_custom
       /\ (length by_nmap <= if nmap m then 1 else 0)%nat
       /\ (length by_custom <= if custom m then 1 else 0)%nat
       /\ Forall (fun row => Row.method row = "nmap-nse") by_nmap
       /\ Forall (fun row => Row.method row = "custom-basic"
                             /\ Row.success row = true) by_custom
       /\ (is_found (fst out) = true ->
           exists row, In row (db (snd out)) /\ Row.success row = true)
       /\ ((exists row, In row (by_nmap ++ by_custom) /\ Row.success row = true) ->
           is_found (fst out) = true).
Proof.
  intros out. unfold out, scan_target.
  destruct (parse_url chk nfkc url) as [target|ex].
  2:{ split; [reflexivity|]. exists [], []. simpl. rewrite app_nil_r.
      repeat split; try constructor; try lia; try discriminate.
      intros (row & [] & _). }
  pose proof (scan_with_nmap_cases self e target w) as Hn.
  destruct (nmap m).
  - destruct (scan_with_nmap self e target w) as [r1 w1]. cbn [fst snd] in Hn.
    pose proof (scan_with_custom_cases self e target w1) as Hc.
    destruct (custom m).
    + destruct (scan_with_custom self e target w1) as [rs w2]. cbn [fst snd] in *.
      split; [discriminate|].
      destruct Hn as [(row & Hin & Hs & ->) | (Hdb1 & _ & _ & Hm & _)];
        destruct Hc as [(-> & Hdb & _) | (cred & _ & -> & Hdb & _)];
        rewrite Hdb; try rewrite Hdb1; cbn [is_found]; rewrite found_mk; cbn [existsb].
      * exists [], []. rewrite !app_nil_r, orb_false_r.
        repeat split; try constructor; try (simpl; lia).
        -- intros Hf. exists row. split; [exact Hin | congruence].
        -- intros (x & [] & _).
      * eexists [], [_]. rewrite orb_true_r.
        repeat split; try (simpl; lia); try (repeat constructor).
        intros _. eexists. split; [apply in_or_app; right; left; reflexivity | reflexivity].
      * eexists [_], []. rewrite orb_false_r, app_nil_r.
        repeat split; try (simpl; lia); try (repeat constructor; exact Hm).
        -- intros Hf. eexists. split; [apply in_or_app; right; left; reflexivity|].
           exact Hf.
        -- intros (x & [<- | []] & Hx). exact Hx.
      * eexists [_], [_]. rewrite orb_true_r, <- app_assoc.
        repeat split; try (simpl; lia); try (repeat constructor; exact Hm).
        intros _. eexists.
        split; [apply in_or_app; right; right; left; reflexivity | reflexivity].
    + cbn [fst snd]. split; [discriminate|]. cbn [is_found]. rewrite found_mk. cbn [existsb].
      rewrite orb_false_r.
      destruct Hn as [(row & Hin & Hs & ->) | (-> & _ & _ & Hm & _)].
      * exists [], []. rewrite !app_nil_r.
        repeat split; try constructor; try (simpl; lia).
        -- intros Hf. exists row. split; [exact Hin | congruence].
        -- intros (x & [] & _).
      * eexists [_], [].
        repeat split; try (simpl; lia); try (repeat constructor; exact Hm).
        -- intros Hf. eexists. split; [apply in_or_app; right; left; reflexivity|].
           exact Hf.
        -- intros (x & [<- | []] & Hx). exact Hx.
  - clear Hn. pose proof (scan_with_custom_cases self e target w) as Hc.
    destruct (custom m).
    + destruct (scan_with_custom self e target w) as [rs w2]. cbn [fst snd] in *.
      split; [discriminate|]. cbn [is_found]. rewrite found_mk.
      destruct Hc as [(-> & Hdb & _) | (cred & _ & -> & Hdb & _)];
        rewrite Hdb; cbn [existsb orb].
      * exists [], []. rewrite !app_nil_r.
        repeat split; try constructor; try (simpl; lia); try discriminate.
        intros (x & [] & _).
      * eexists [], [_].
        repeat split; try (simpl; lia); try (repeat constructor).
        intros _. eexists. split; [apply in_or_app; right; left; reflexivity | reflexivity].
    + cbn [fst snd]. split; [discriminate|]. exists [], []. rewrite !app_nil_r.
      repeat split; try constructor; try (simpl; lia); try discriminate.
      intros (x & [] & _).
Qed.

(** X11: how the two methods compose in the scan of one target.  A target
    that does not parse is not scanned at all.  Otherwise the scan adds at
    most one row per enabled method, the row of nmap before the row of
    the probe; a disabled method adds none.  The scan counts as a finding
    only if the table then holds a successful row, and every successful
    row it adds makes it count as a finding. *)
Theorem scan_target_rows (e : env) (url : string) (w : world) :
  let out := scan_target chk nfkc self m e url w in
  (raises (fst out) = true -> snd out = w)
  /\ exists by_nmap by_custom,
       db (snd out) = db w ++ by_nmap ++ by_custom
       /\ (length by_nmap <= if nmap m then 1 else 0)%nat
       /\ (length by_custom <= if custom m then 1 else 0)%nat
       /\ Forall (fun row => Row.method row = "nmap-nse") by_nmap
       /\ Forall (fun row => Row.method row = "custom-basic"
                             /\ Row.success row = true) by_custom
       /\ (is_found (fst out) = true ->
           exists row, In row (db (snd out)) /\ Row.success row = true)
       /\ ((exists row, In row (by_nmap ++ by_custom) /\ Row.success row = true) ->
           is_found (fst out) = true).
Proof. exact (scan_target_store e url w). Qed.




(** X15: a target without a finding leaves the report as it was: when the
    scan of a target does not count as a finding, be it that the target
    did not parse, the query of the report returns after the scan what it
    returned before. *)
Theorem no_finding_no_report_change (e : env) (url : string) (w : world) :
  let out := scan_target chk nfkc self m e url w in
  is_found (fst out) = false ->
  listSucceeded (db (snd out)) = listSucceeded (db w).
Proof.
  intros out Hf.
  destruct (scan_target_store e url w)
    as (_ & rn & rc & Hdb & _ & _ & _ & _ & _ & Hr). fold out in Hdb, Hr.
  unfold listSucceeded. rewrite Hdb, List.filter_app.
  rewrite (filter_none Row.success (rn ++ rc)); [now rewrite app_nil_r|].
  intros row Hin. destruct (Row.success row) eqn:Hs; [|reflexivity].
  rewrite Hr in Hf; [discriminate | now exists row].
Qed.

End Run.

(** * The reports *)

Lemma occurs_append_l (x a b : string) : occurs x a -> occurs x (a +:+ b).
Proof.
  intros (pre & post & ->). exists pre, (post +:+ b). now rewrite !append_assoc.
Qed.

Lemma occurs_append_r (x a b : string) : occurs x b -> occurs x (a +:+ b).
Proof.
  intros (pre & post & ->). exists (a +:+ pre), post. now rewrite !append_assoc.
Qed.

Lemma occurs_html_rows (x : string) (scans : list (list sqlval)) (html : string) :
  occurs x html \/ (exists scan, In scan scans /\ occurs x (html_row scan)) ->
  occurs x (fold_left (fun html scan => html +:+ html_row scan) scans html).
Proof.
  revert html. induction scans as [|s scans IH]; intros html H; simpl.
  - destruct H as [H | (scan & [] & _)]. exact H.
  - apply IH. destruct H as [H | (scan & [<- | Hin] & H)].
    + left. now apply occurs_append_l.
    + left. now apply occurs_append_r.
    + right. now exists scan.
Qed.

Lemma of_int_head (n : Z) :
  exists c t, Str.of_int n = String c t /\ Ascii.eqb c "h" = false.
Proof.
  unfold Str.of_int, NilZero.string_of_int, NilZero.string_of_uint.
  destruct (Z.to_int n) as [d|d]; [destruct d | idtac]; simpl; eauto.
Qed.

(** X13: what the reports show as the URL of a finding.  The tuples of
    the query have the port in column 3 and the scheme in column 4, so the
    terminal report and the HTML report show the port, then [://], the
    host, a colon and the scheme; the text never starts with the scheme,
    and the HTML report holds it, host included, exactly as stored. *)
Theorem reports_show_port_first (scan_date : string) (rows : list Row.t) (row : Row.t) :
  In row rows ->
  let scans := map select_star rows in
  let shown :=
    Str.of_int (Row.port row) +:+ "://" +:+ Row.host row +:+ ":" +:+ Row.proto row in
  shown_url (select_star row) = shown
  /\ Str.startswith shown "http" = false
  /\ In (String newline ("URL: " +:+ shown)) (terminal_report scans)
  /\ occurs ("<td>" +:+ shown +:+ "</td>") (html_report scan_date scans).
Proof.
  intros Hin scans shown.
  assert (In (select_star row) scans) as Hs by now apply in_map.
  split; [reflexivity|]. split; [|split].
  - unfold shown. destruct (of_int_head (Row.port row)) as (c & t & -> & Hc).
    cbn [String.append Str.startswith]. rewrite Ascii.eqb_sym in Hc. now rewrite Hc.
  - unfold terminal_report. apply in_or_app. right. apply in_or_app. left.
    apply in_flat_map. exists (select_star row). split; [exact Hs|]. now left.
  - unfold html_report. apply occurs_append_l, occurs_html_rows. right.
    exists (select_star row). split; [exact Hs|].
    exists (String newline ("        <tr>" +:+ String newline "            ")).
    eexists. reflexivity.
Qed.

(** X14: the CSV report has the header and one record per finding, each of
    eight cells; read by the header, a record holds the scheme under
    [Port] and the port under [Protocol], the other columns hold what
    their names say. *)
Theorem csv_report_columns (rows : list Row.t) :
  let report := csv_report (map select_star rows) in
  length report = S (length rows)
  /\ Forall (fun record => length record = length csv_header) report
  /\ (forall row, In row rows ->
        exists record,
          In record report
          /\ combine csv_header (map fmt record)
             = [ ("URL", Row.url row); ("Host", Row.host row);
                 ("Port", Row.proto row); ("Protocol", Str.of_int (Row.port row));
                 ("Method", Row.method row); ("Username", Row.username row);
                 ("Password", Row.password row); ("Timestamp", Row.timestamp row) ]).
Proof.
  intros report. unfold report, csv_report. split; [|split].
  - simpl. now rewrite !length_map.
  - constructor; [reflexivity|]. apply List.Forall_forall. intros record H.
    apply in_map_iff in H as (scan & <- & _). reflexivity.
  - intros row H. exists (csv_record (select_star row)). split; [|reflexivity].
    right. apply in_map, in_map. exact H.
Qed.

(** * The host of a target *)

Lemma has_take_bound (c : ascii) (y : string) (n : nat) :
  (forall i, Str.find c y = Some i -> (n <= i)%nat) ->
  Str.has c (Str.take n y) = false.
Proof.
  revert n. induction y as [|a y IH]; intros n H; [now destruct n|].
  destruct n as [|n]; [reflexivity|]. cbn [Str.take]. rewrite has_cons.
  simpl in H. destruct (Ascii.eqb a c).
  - specialize (H O eq_refl). lia.
  - simpl. apply IH. intros i Hi. rewrite Hi in H. specialize (H (S i) eq_refl). lia.
Qed.

Lemma delim_le (url : string) (start : nat) (l : list ascii) (d0 : nat) :
  let d := fold_left
             (fun delim c =>
                match Str.find_from c start url with
                | Some wdelim => Nat.min delim wdelim
                | None => delim
                end) l d0 in
  (d <= d0)%nat
  /\ forall c w, In c l -> Str.find_from c start url = Some w -> (d <= w)%nat.
Proof.
  revert d0. induction l as [|a l IH]; intros d0; cbn [fold_left].
  - split; [lia | intros c w []].
  - destruct (IH (match Str.find_from a start url with
                  | Some wdelim => Nat.min d0 wdelim
                  | None => d0
                  end)) as [H1 H2].
    split.
    + destruct (Str.find_from a start url); lia.
    + intros c w [<- | Hc] Hw; [|now apply (H2 c)].
      rewrite Hw in H1 |- *. lia.
Qed.

Lemma splitnetloc_netloc (url : string) (start : nat) (c : ascii) :
  In c netloc_delimiters ->
  Str.has c (fst (Urllib._splitnetloc url start)) = false.
Proof.
  intros Hc. unfold Urllib._splitnetloc. cbn [fst].
  apply has_take_bound. intros i Hi.
  destruct (delim_le url start netloc_delimiters (String.length url)) as [_ H].
  assert (Str.find_from c start url = Some (start + i)%nat) as Hf
      by (unfold Str.find_from; now rewrite Hi).
  specialize (H c (start + i)%nat Hc Hf).
  unfold netloc_delimiters in H. lia.
Qed.

Lemma has_partition (c d : ascii) (s : string) :
  Str.has c s = false ->
  Str.has c (fst (fst (Str.partition d s))) = false
  /\ Str.has c (snd (Str.partition d s)) = false.
Proof.
  induction s as [|a s IH]; [now split|].
  rewrite has_cons. intros H. apply orb_false_iff in H as [Ha Hs].
  simpl. destruct (Ascii.eqb a d); [now split|].
  destruct (IH Hs) as [H1 H2]. destruct (Str.partition d s) as [[h b] t].
  simpl in *. rewrite has_cons, Ha. now split.
Qed.

Lemma has_rpartition (c d : ascii) (s : string) :
  Str.has c s = false -> Str.has c (snd (Str.rpartition d s)) = false.
Proof.
  induction s as [|a s IH]; [reflexivity|].
  rewrite has_cons. intros H. apply orb_false_iff in H as [Ha Hs].
  simpl. specialize (IH Hs). destruct (Str.rpartition d s) as [[h b] t].
  simpl in *. destruct b; [exact IH|].
  destruct (Ascii.eqb a d); [exact Hs|]. simpl. rewrite has_cons, Ha. exact IH.
Qed.

Lemma has_lower (c : ascii) (s : string) :
  Str.is_lower c = false -> Str.has c s = false -> Str.has c (Str.lower s) = false.
Proof.
  intros Hc. induction s as [|a s IH]; [reflexivity|].
  rewrite has_cons. intros H. apply orb_false_iff in H as [Ha Hs].
  cbn [Str.lower]. rewrite has_cons, (IH Hs), orb_false_r.
  unfold Str.lower_char. destruct (Str.is_upper a) eqn:Hu; [|exact Ha].
  apply Ascii.eqb_neq. intros <-.
  unfold Str.is_upper in Hu. unfold Str.is_lower in Hc.
  apply andb_true_iff in Hu as [H1 H2]. apply Nat.leb_le in H1, H2.
  rewrite nat_ascii_embedding in Hc by lia.
  apply andb_false_iff in Hc as [Hc | Hc]; apply Nat.leb_gt in Hc; lia.
Qed.

Lemma hostinfo_host (c : ascii) (netloc : string) :
  Str.has c netloc = false -> Str.has c (fst (Urllib._hostinfo netloc)) = false.
Proof.
  intros H. unfold Urllib._hostinfo.
  pose proof (has_rpartition c "@" netloc H) as H1.
  destruct (Str.rpartition "@" netloc) as [[? ?] hostinfo]. cbn [snd] in H1.
  pose proof (has_partition c "[" hostinfo H1) as [_ H2].
  pose proof (has_partition c ":" hostinfo H1) as [H3 _].
  destruct (Str.partition "[" hostinfo) as [[? have_open_br] bracketed]. cbn [snd] in H2.
  destruct have_open_br.
  - pose proof (has_partition c "]" bracketed H2) as [H4 _].
    destruct (Str.partition "]" bracketed) as [[hostname ?] port].
    now destruct (Str.partition ":" port) as [[? ?] ?].
  - now destruct (Str.partition ":" hostinfo) as [[hostname ?] port].
Qed.

(** X16: the host of a parsed target holds none of the characters [/],
    [?] and [#] that end the netloc of a URL: nothing of the host can be
    read as a path, a query or a fragment in a URL built from it. *)
Theorem parse_url_host_clean (chk : string -> bool) (nfkc : string -> string)
    (url : string) (t : Target.t) :
  parse_url chk nfkc url = Return t ->
  Forall (fun c => Str.has c (Target.host t) = false) netloc_delimiters.
Proof.
  intros H.
  apply parse_url_Return in H as (parsed & port & Hp & _ & ->). cbn [Target.host].
  assert (forall c, In c netloc_delimiters ->
                    Str.has c (Urllib.netloc parsed) = false) as Hn.
  { intros c Hc. apply urlparse_Return in Hp as (_ & -> & _).
    unfold Urllib.netloc_of, Urllib.split_authority.
    destruct (String.eqb _ "//"); [now apply splitnetloc_netloc | reflexivity]. }
  apply List.Forall_forall. intros c Hc. specialize (Hn c Hc).
  assert (Str.has c (split_colon_0 (Urllib.netloc parsed)) = false) as Hsplit.
  { unfold split_colon_0.
    pose proof (has_partition c ":" (Urllib.netloc parsed) Hn) as [H1 _].
    now destruct (Str.partition ":" (Urllib.netloc parsed)) as [[? ?] ?]. }
  unfold Urllib.hostname.
  pose proof (hostinfo_host c (Urllib.netloc parsed) Hn) as Hh.
  destruct (fst (Urllib._hostinfo (Urllib.netloc parsed))) as [|a h] eqn:E;
    [exact Hsplit|].
  pose proof (has_partition c "%" (String a h) Hh) as [H1 H2].
  destruct (Str.partition "%" (String a h)) as [[h0 percent] zone]. cbn [fst snd] in *.
  assert (Str.is_lower c = false /\ Ascii.eqb "%" c = false) as [Hl Hpc]
      by (destruct Hc as [<- | [<- | [<- | []]]]; now split).
  assert (Str.has c (Str.lower h0 +:+ (if percent then "%" else EmptyString) +:+ zone)
          = false) as Hhost.
  { rewrite !has_append, (has_lower c h0 Hl H1), H2.
    destruct percent; [rewrite has_cons, Hpc|]; reflexivity. }
  destruct (Str.lower h0 +:+ _ +:+ zone); [exact Hsplit | exact Hhost].
Qed.

(** * The URL rebuilt from a target *)

Lemma length_append (a b : string) :
  String.length (a +:+ b) = (String.length a + String.length b)%nat.
Proof. induction a as [|x a IH]; simpl; [reflexivity | now rewrite IH]. Qed.

Lemma take_append (a t : string) : Str.take (String.length a) (a +:+ t) = a.
Proof. induction a as [|x a IH]; simpl; [now destruct t | now rewrite IH]. Qed.

Lemma drop_append (a t : string) : Str.drop (String.length a) (a +:+ t) = t.
Proof. induction a as [|x a IH]; simpl; [reflexivity | exact IH]. Qed.

Lemma find_append_no (c : ascii) (a t : string) :
  Str.has c a = false ->
  Str.find c (a +:+ t) = option_map (Nat.add (String.length a)) (Str.find c t).
Proof.
  induction a as [|x a IH]; [simpl; destruct (Str.find c t); reflexivity|].
  rewrite has_cons. intros H. apply orb_false_iff in H as [Hx Ha].
  simpl. rewrite Hx, (IH Ha). destruct (Str.find c t); reflexivity.
Qed.

Lemma remove_no (c : ascii) (s : string) : Str.has c s = false -> Str.remove c s = s.
Proof.
  induction s as [|a s IH]; [reflexivity|].
  rewrite has_cons. intros H. apply orb_false_iff in H as [Ha Hs].
  simpl. now rewrite Ha, (IH Hs).
Qed.

Lemma has_remove (c d : ascii) (s : string) :
  Str.has c s = false \/ c = d -> Str.has c (Str.remove d s) = false.
Proof.
  induction s as [|a s IH]; [reflexivity|].
  rewrite has_cons. intros H. simpl.
  destruct (Ascii.eqb a d) eqn:Ea.
  - apply IH. destruct H as [H | H]; [|now right].
    apply orb_false_iff in H as [_ H]. now left.
  - rewrite has_cons. destruct H as [H | ->].
    + apply orb_false_iff in H as [Ha Hs]. rewrite Ha. apply IH. now left.
    + rewrite Ea. apply IH. now right.
Qed.

Lemma has_lstrip (p : ascii -> bool) (c : ascii) (s : string) :
  Str.has c s = false -> Str.has c (Str.lstrip p s) = false.
Proof.
  induction s as [|a s IH]; [reflexivity|]. intros H. simpl.
  destruct (p a); [|exact H]. apply IH.
  rewrite has_cons in H. now apply orb_false_iff in H as [_ H].
Qed.

Lemma has_take (c : ascii) (n : nat) (s : string) :
  Str.has c s = false -> Str.has c (Str.take n s) = false.
Proof.
  revert n. induction s as [|a s IH]; intros n H; [now destruct n|].
  destruct n as [|n]; [reflexivity|]. rewrite has_cons in H.
  apply orb_false_iff in H as [Ha Hs]. cbn [Str.take]. rewrite has_cons, Ha.
  now apply IH.
Qed.

Lemma has_drop (c : ascii) (n : nat) (s : string) :
  Str.has c s = false -> Str.has c (Str.drop n s) = false.
Proof.
  revert n. induction s as [|a s IH]; intros n H; [now destruct n|].
  destruct n as [|n]; [exact H|]. rewrite has_cons in H.
  apply orb_false_iff in H as [Ha Hs]. cbn [Str.drop]. now apply IH.
Qed.

Lemma has_drop_last (c : ascii) (s : string) :
  Str.has c s = false -> Str.has c (Str.drop_last s) = false.
Proof.
  induction s as [|a s IH]; [reflexivity|]. rewrite has_cons. intros H.
  apply orb_false_iff in H as [Ha Hs]. destruct s as [|b s]; [reflexivity|].
  change (Str.drop_last (String a (String b s)))
    with (String a (Str.drop_last (String b s))).
  rewrite has_cons, Ha. now apply IH.
Qed.

Lemma has_before_same (c : ascii) (s : string) : Str.has c (before c s) = false.
Proof.
  induction s as [|a s IH]; [reflexivity|]. rewrite before_cons.
  destruct (Ascii.eqb a c) eqn:E; [reflexivity|]. now rewrite has_cons, E.
Qed.

Lemma has_before (c d : ascii) (s : string) :
  Str.has c s = false -> Str.has c (before d s) = false.
Proof. intros H. unfold before. now apply has_partition. Qed.

Lemma all_has (p : ascii -> bool) (c : ascii) (s : string) :
  Str.all p s = true -> p c = false -> Str.has c s = false.
Proof.
  intros Hs Hc. induction s as [|a s IH]; [reflexivity|].
  simpl in Hs. apply andb_true_iff in Hs as [Ha Hs]. rewrite has_cons, (IH Hs).
  destruct (Ascii.eqb a c) eqn:E; [|reflexivity].
  apply Ascii.eqb_eq in E as ->. congruence.
Qed.

Lemma partition_no_sep (c : ascii) (s : string) :
  Str.has c s = false -> Str.partition c s = (s, false, EmptyString).
Proof.
  induction s as [|a s IH]; [reflexivity|]. rewrite has_cons. intros H.
  apply orb_false_iff in H as [Ha Hs]. simpl. now rewrite Ha, (IH Hs).
Qed.

Lemma partition_append (c : ascii) (a t : string) :
  Str.has c a = false -> Str.partition c (a +:+ String c t) = (a, true, t).
Proof.
  induction a as [|x a IH].
  - intros _. simpl. now rewrite Ascii.eqb_refl.
  - rewrite has_cons. intros H. apply orb_false_iff in H as [Hx Ha].
    simpl. now rewrite Hx, (IH Ha).
Qed.

Lemma partition_spec (c : ascii) (s : string) :
  let '(h, b, t) := Str.partition c s in
  Str.has c h = false
  /\ s = h +:+ (if b then String c t else EmptyString)
  /\ (b = false -> t = EmptyString).
Proof.
  induction s as [|a s IH]; [now repeat split|]. simpl.
  destruct (Ascii.eqb a c) eqn:E.
  - apply Ascii.eqb_eq in E as ->. split; [reflexivity|]. split; [reflexivity|discriminate].
  - destruct (Str.partition c s) as [[h b] t]. destruct IH as (H1 & H2 & H3).
    rewrite has_cons, E. simpl. split; [exact H1|]. split; [now rewrite <- H2 | exact H3].
Qed.

Lemma rpartition_no_sep (c : ascii) (s : string) :
  Str.has c s = false -> Str.rpartition c s = (EmptyString, false, s).
Proof.
  induction s as [|a s IH]; [reflexivity|]. rewrite has_cons. intros H.
  apply orb_false_iff in H as [Ha Hs]. simpl. now rewrite (IH Hs), Ha.
Qed.

Lemma rpartition_spec (c : ascii) (s : string) :
  Str.has c (snd (Str.rpartition c s)) = false
  /\ (snd (fst (Str.rpartition c s)) = false -> snd (Str.rpartition c s) = s).
Proof.
  induction s as [|a s [IH1 IH2]]; [now split|]. simpl.
  destruct (Str.rpartition c s) as [[h b] t]. simpl in *.
  destruct b; [split; [exact IH1 | discriminate]|].
  specialize (IH2 eq_refl). subst t.
  destruct (Ascii.eqb a c) eqn:E; simpl.
  - split; [exact IH1 | discriminate].
  - rewrite has_cons, E. split; [exact IH1 | reflexivity].
Qed.

(** ** Numbers as text *)

Lemma int_acc_uint (d : Decimal.uint) (acc : positive) :
  Str.int_acc (Z.pos acc) (NilEmpty.string_of_uint d) = Z.pos (Pos.of_uint_acc d acc).
Proof.
  revert acc. induction d; intros acc; cbn [NilEmpty.string_of_uint Str.int_acc Pos.of_uint_acc];
    [reflexivity | rewrite <- IHd; f_equal ..];
    match goal with
    | |- context [Z.of_nat (nat_of_ascii ?c)] =>
        let v := eval vm_compute in (Z.of_nat (nat_of_ascii c)) in
        change (Z.of_nat (nat_of_ascii c)) with v
    end; lia.
Qed.

Lemma int_uint (d : Decimal.uint) :
  Str.int_acc 0 (NilEmpty.string_of_uint d) = Z.of_uint d.
Proof.
  unfold Z.of_uint.
  induction d; cbn [NilEmpty.string_of_uint Str.int_acc Pos.of_uint];
    [reflexivity | exact IHd | apply (int_acc_uint d) ..].
Qed.

Lemma all_digit_uint (d : Decimal.uint) :
  Str.all Str.is_digit (NilEmpty.string_of_uint d) = true.
Proof. induction d; simpl; auto. Qed.

(** [int(str(n)) == n], and [str(n)] is made of digits, for [0 <= n]. *)
Lemma int_of_int (n : Z) :
  0 <= n -> Str.isdigit (Str.of_int n) = true /\ Str.int (Str.of_int n) = n.
Proof.
  intros Hn. pose proof (DecimalZ.of_to n) as H.
  unfold Str.of_int, Str.int, NilZero.string_of_int, NilZero.string_of_uint.
  destruct (Z.to_int n) as [d|d] eqn:E.
  - simpl in H. rewrite <- H. destruct d; try (split; [apply all_digit_uint | apply int_uint]).
    split; reflexivity.
  - destruct n; try discriminate. lia.
Qed.

Lemma isdigit_all (s : string) : Str.isdigit s = true -> Str.all Str.is_digit s = true.
Proof. now destruct s. Qed.

(** ** Lower case *)

Lemma lower_char_idem (a : ascii) : Str.lower_char (Str.lower_char a) = Str.lower_char a.
Proof. destruct a as [[] [] [] [] [] [] [] []]; reflexivity. Qed.

Lemma lower_idem (s : string) : Str.lower (Str.lower s) = Str.lower s.
Proof. induction s as [|a s IH]; simpl; [reflexivity | now rewrite lower_char_idem, IH]. Qed.

(** ** What [urlsplit] removes *)

Lemma clean_url_removed (c : ascii) (url : string) :
  In c Urllib.unsafe_url_bytes_to_remove -> Str.has c (Urllib.clean_url url) = false.
Proof.
  unfold Urllib.clean_url, Urllib.unsafe_url_bytes_to_remove. cbn [fold_left].
  intros [<- | [<- | [<- | []]]].
  - apply has_remove; left. apply has_remove; left. apply has_remove; now right.
  - apply has_remove; left. apply has_remove; now right.
  - apply has_remove; now right.
Qed.

Lemma clean_url_fixed (url : string) :
  Str.lstrip Urllib.c0_control_or_space url = url ->
  (forall c, In c Urllib.unsafe_url_bytes_to_remove -> Str.has c url = false) ->
  Urllib.clean_url url = url.
Proof.
  intros Hl H. unfold Urllib.clean_url, Urllib.unsafe_url_bytes_to_remove in *.
  cbn [fold_left]. rewrite Hl.
  rewrite (remove_no "009" url) by (apply H; simpl; auto).
  rewrite (remove_no "013" url) by (apply H; simpl; auto).
  apply remove_no, H. simpl; auto.
Qed.

(** A character that [s] does not hold is in none of the parts [urlsplit]
    cuts [s] into. *)
Lemma has_split_scheme (c : ascii) (s : string) :
  Str.has c s = false -> Str.has c (snd (Urllib.split_scheme s)) = false.
Proof.
  intros H. unfold Urllib.split_scheme.
  destruct (Str.find ":" s) as [[|i]|]; try exact H.
  destruct s as [|c0 s']; [exact H|].
  destruct (_ && _); [|exact H]. cbn [snd]. now apply has_drop.
Qed.

Lemma has_split_authority (c : ascii) (s : string) :
  Str.has c s = false ->
  Str.has c (fst (Urllib.split_authority s)) = false
  /\ Str.has c (snd (Urllib.split_authority s)) = false.
Proof.
  intros H. unfold Urllib.split_authority, Urllib._splitnetloc.
  destruct (String.eqb _ _); cbn [fst snd]; [|now split].
  split; [now apply has_take, has_drop | now apply has_drop].
Qed.

Lemma has_splitparams (c : ascii) (s : string) :
  Str.has c s = false -> Str.has c (fst (Urllib._splitparams s)) = false.
Proof.
  intros H. unfold Urllib._splitparams.
  destruct (Str.has "/" s).
  - destruct (Str.rfind "/" s) as [r|]; [|exact H].
    destruct (Str.find_from ";" r s); [now apply has_take | exact H].
  - destruct (Str.find ";" s); [now apply has_take | now apply has_drop_last].
Qed.

(** The netloc of a URL holds no tab and no line end. *)
Lemma netloc_of_removed (c : ascii) (url : string) :
  In c Urllib.unsafe_url_bytes_to_remove -> Str.has c (Urllib.netloc_of url) = false.
Proof.
  intros Hc. unfold Urllib.netloc_of.
  now apply has_split_authority, has_split_scheme, clean_url_removed.
Qed.

Lemma netloc_of_delimiter (c : ascii) (url : string) :
  In c netloc_delimiters -> Str.has c (Urllib.netloc_of url) = false.
Proof.
  intros Hc. unfold Urllib.netloc_of, Urllib.split_authority.
  destruct (String.eqb _ "//"); [now apply splitnetloc_netloc | reflexivity].
Qed.

(** ** [_splitnetloc] on a netloc followed by a path *)

Lemma splitnetloc_exact (netloc p : string) :
  (forall c, In c netloc_delimiters -> Str.has c netloc = false) ->
  Urllib._splitnetloc ("//" +:+ netloc +:+ String "/" p) 2 = (netloc, String "/" p).
Proof.
  intros H. unfold Urllib._splitnetloc. cbn [fold_left]. unfold Str.find_from.
  change (Str.drop 2 ("//" +:+ netloc +:+ String "/" p)) with (netloc +:+ String "/" p).
  rewrite !find_append_no by (apply H; simpl; auto).
  change (String.length ("//" +:+ netloc +:+ String "/" p))
    with (S (S (String.length (netloc +:+ String "/" p)))).
  rewrite length_append. cbn [String.length Str.find].
  change (Ascii.eqb "/" "/") with true. change (Ascii.eqb "/" "?") with false.
  change (Ascii.eqb "/" "#") with false. cbv iota.
  set (n := String.length netloc).
  assert (forall o : option nat,
             match option_map (Nat.add 2) (option_map (Nat.add n) (option_map S o)) with
             | Some wdelim => Nat.min (2 + n) wdelim
             | None => (2 + n)%nat
             end = (2 + n)%nat) as Hmin
      by (intros [k|]; simpl; lia).
  cbn [option_map].
  replace (Nat.min (S (S (n + S (String.length p)))) (2 + (n + 0)))%nat with (2 + n)%nat by lia.
  rewrite !Hmin.
  replace (2 + n - 2)%nat with n by lia.
  rewrite drop_drop. change (Str.drop 2 ("//" +:+ ?x)) with x.
  unfold n. f_equal; [apply take_append | apply drop_append].
Qed.

(** ** The parameters [urlparse] cuts off the path *)

Lemma rfind_None (c : ascii) (s : string) :
  Str.rfind c s = None <-> Str.has c s = false.
Proof.
  induction s as [|a s IH]; [now split|]. rewrite has_cons. simpl.
  destruct (Str.rfind c s) as [i|].
  - split; [discriminate|]. intros H. apply orb_false_iff in H as [_ H].
    apply IH in H. discriminate.
  - destruct (Ascii.eqb a c); [now split|]. split; [intros _|reflexivity].
    now apply IH.
Qed.

Lemma rfind_take (c : ascii) (s : string) (r n : nat) :
  Str.rfind c s = Some r -> (r < n)%nat -> Str.rfind c (Str.take n s) = Some r.
Proof.
  revert r n. induction s as [|a s IH]; intros r n; [discriminate|].
  simpl. destruct n as [|n]; [lia|]. cbn [Str.take Str.rfind].
  destruct (Str.rfind c s) as [j|] eqn:E.
  - intros H Hr. injection H as <-. rewrite (IH j n eq_refl) by lia. reflexivity.
  - destruct (Ascii.eqb a c); [|discriminate]. intros H _. injection H as <-.
    assert (Str.rfind c (Str.take n s) = None) as ->; [|reflexivity].
    apply rfind_None, has_take. now apply rfind_None.
Qed.

Lemma rfind_drop (c : ascii) (s : string) (r : nat) :
  Str.rfind c s = Some r -> exists t, Str.drop r s = String c t.
Proof.
  revert r. induction s as [|a s IH]; intros r; [discriminate|]. simpl.
  destruct (Str.rfind c s) as [j|].
  - intros H. injection H as <-. now apply IH.
  - destruct (Ascii.eqb a c) eqn:E; [|discriminate]. intros H. injection H as <-.
    apply Ascii.eqb_eq in E as ->. now exists s.
Qed.

Lemma drop_take (r k : nat) (s : string) :
  Str.drop r (Str.take (r + k) s) = Str.take k (Str.drop r s).
Proof.
  revert s. induction r as [|r IH]; intros s.
  - simpl. now destruct (Str.take k s).
  - destruct s as [|a s]; [now destruct k|]. simpl. apply IH.
Qed.

Lemma splitparams_cases (p : string) :
  Str.has "/" p = true ->
  (fst (Urllib._splitparams p) = p
   /\ exists r, Str.rfind "/" p = Some r /\ Str.find ";" (Str.drop r p) = None)
  \/ exists r k,
       Str.rfind "/" p = Some r /\ Str.find ";" (Str.drop r p) = Some k
       /\ fst (Urllib._splitparams p) = Str.take (r + k) p.
Proof.
  intros Hslash. unfold Urllib._splitparams. rewrite Hslash.
  destruct (Str.rfind "/" p) as [r|] eqn:Hr;
    [|apply rfind_None in Hr; congruence].
  unfold Str.find_from.
  destruct (Str.find ";" (Str.drop r p)) as [k|] eqn:Hk; cbn [option_map fst].
  - right. now exists r, k.
  - left. split; [reflexivity | now exists r].
Qed.

(** What [urlparse] keeps of the path of an [http] or [https] URL is kept
    as it is when it is parsed again. *)
Lemma splitparams_fixed (p : string) :
  let q := if Str.has ";" p then fst (Urllib._splitparams p) else p in
  Str.startswith p "/" = true ->
  (if Str.has ";" q then fst (Urllib._splitparams q) else q) = q.
Proof.
  intros q Hp.
  assert (Str.has "/" p = true) as Hslash
      by (apply startswith_spec in Hp as [post ->]; reflexivity).
  assert (q = p /\ (Str.has ";" p = true -> fst (Urllib._splitparams p) = p)
          \/ exists r k,
               Str.rfind "/" p = Some r /\ Str.find ";" (Str.drop r p) = Some k
               /\ q = Str.take (r + k) p) as [[Hq Hfix] | (r & k & Hr & Hk & Hq)].
  { unfold q. destruct (Str.has ";" p) eqn:Hsemi; [|left; split; [reflexivity|discriminate]].
    destruct (splitparams_cases p Hslash) as [[H _] | (r & k & Hr & Hk & H)].
    - left. now split.
    - right. now exists r, k. }
  - rewrite Hq. destruct (Str.has ";" p) eqn:Hsemi; [now apply Hfix | reflexivity].
  - rewrite Hq. destruct (Str.has ";" (Str.take (r + k) p)) eqn:Hsemi; [|reflexivity].
    destruct (rfind_drop _ _ _ Hr) as [t Ht].
    assert (0 < k)%nat as Hk0.
    { rewrite Ht in Hk. simpl in Hk. destruct (Str.find ";" t); [|discriminate].
      injection Hk as <-. lia. }
    assert (Str.rfind "/" (Str.take (r + k) p) = Some r) as Hr'
        by (apply rfind_take; [exact Hr | lia]).
    assert (Str.has "/" (Str.take (r + k) p) = true) as Hs.
    { destruct (Str.has "/" (Str.take (r + k) p)) eqn:E; [reflexivity|].
      apply rfind_None in E. congruence. }
    destruct (splitparams_cases _ Hs) as [[H _] | (r2 & k2 & Hr2 & Hk2 & _)];
      [exact H|].
    rewrite Hr' in Hr2. injection Hr2 as <-. rewrite drop_take in Hk2.
    assert (Str.has ";" (Str.take k (Str.drop r p)) = false) as Hno.
    { apply has_take_bound. intros i Hi. rewrite Hk in Hi. injection Hi as <-. lia. }
    unfold Str.has in Hno. rewrite Hk2 in Hno. discriminate.
Qed.

(** ** The host name of a netloc *)

Lemma hostinfo_host_of (c : ascii) (netloc : string) :
  Str.has c (snd (Str.rpartition "@" netloc)) = false ->
  Str.has c (fst (Urllib._hostinfo netloc)) = false.
Proof.
  intros H1. unfold Urllib._hostinfo.
  destruct (Str.rpartition "@" netloc) as [[? ?] hostinfo]. cbn [snd] in H1.
  pose proof (has_partition c "[" hostinfo H1) as [_ H2].
  pose proof (has_partition c ":" hostinfo H1) as [H3 _].
  destruct (Str.partition "[" hostinfo) as [[? have_open_br] bracketed]. cbn [snd] in H2.
  destruct have_open_br.
  - pose proof (has_partition c "]" bracketed H2) as [H4 _].
    destruct (Str.partition "]" bracketed) as [[hostname ?] port].
    now destruct (Str.partition ":" port) as [[? ?] ?].
  - now destruct (Str.partition ":" hostinfo) as [[hostname ?] port].
Qed.

(** The text the [hostname] property returns: the part before a [%] in
    lower case, and what follows as it is. *)
Lemma hostname_Some (netloc h : string) :
  Urllib.hostname netloc = Some h ->
  h <> EmptyString
  /\ exists h0 percent zone,
       Str.partition "%" (fst (Urllib._hostinfo netloc)) = (h0, percent, zone)
       /\ h = Str.lower h0 +:+ (if percent then "%" else EmptyString) +:+ zone.
Proof.
  unfold Urllib.hostname.
  destruct (fst (Urllib._hostinfo netloc)) as [|a hn] eqn:E; [discriminate|].
  pose proof (partition_spec "%" (String a hn)) as Hp.
  destruct (Str.partition "%" (String a hn)) as [[h0 percent] zone].
  destruct Hp as (_ & Hs & _). intros H. injection H as <-.
  split; [|now exists h0, percent, zone].
  destruct h0 as [|x h0]; [|discriminate].
  destruct percent; [discriminate|]. discriminate Hs.
Qed.

Lemma hostname_has (c : ascii) (netloc h : string) :
  Urllib.hostname netloc = Some h ->
  Str.has c (fst (Urllib._hostinfo netloc)) = false ->
  Str.is_lower c = false -> Str.has c h = false.
Proof.
  intros H Hc Hl. apply hostname_Some in H as (_ & h0 & percent & zone & Hp & ->).
  pose proof (has_partition c "%" _ Hc) as [H1 H2]. rewrite Hp in H1, H2.
  cbn [fst snd] in *.
  pose proof (partition_spec "%" (fst (Urllib._hostinfo netloc))) as Hs.
  rewrite Hp in Hs. destruct Hs as (_ & Hs & _).
  rewrite !has_append, (has_lower c h0 Hl H1), H2.
  destruct percent; [|reflexivity].
  rewrite Hs, has_append, has_cons in Hc.
  apply orb_false_iff in Hc as [_ Hc]. apply orb_false_iff in Hc as [Hc _].
  now rewrite has_cons, Hc.
Qed.

(** A host name that holds no [@], [[] and [:] is read again as itself
    from a netloc made of it and a port. *)
Lemma hostinfo_rebuilt (h p : string) :
  Str.has "@" h = false -> Str.has "[" h = false -> Str.has ":" h = false ->
  Str.isdigit p = true ->
  Urllib._hostinfo (h +:+ String ":" p) = (h, Some p).
Proof.
  intros H1 H2 H3 Hp. pose proof (isdigit_all p Hp) as Hd.
  assert (forall c, Str.is_digit c = false -> Ascii.eqb ":" c = false ->
                    Str.has c h = false -> Str.has c (h +:+ String ":" p) = false) as Hn.
  { intros c Hc Hcol Hh. rewrite has_append, Hh, has_cons, Hcol. simpl.
    now apply (all_has Str.is_digit). }
  unfold Urllib._hostinfo.
  rewrite (rpartition_no_sep "@") by now apply Hn.
  rewrite (partition_no_sep "[") by now apply Hn.
  rewrite (partition_append ":" h p H3).
  destruct p; [discriminate | reflexivity].
Qed.

Lemma hostname_rebuilt (netloc h p : string) :
  Urllib.hostname netloc = Some h ->
  Str.has "@" h = false -> Str.has "[" h = false -> Str.has ":" h = false ->
  Str.isdigit p = true ->
  Urllib.hostname (h +:+ String ":" p) = Some h.
Proof.
  intros H H1 H2 H3 Hp. unfold Urllib.hostname at 1.
  rewrite (hostinfo_rebuilt h p H1 H2 H3 Hp). cbn [fst].
  apply hostname_Some in H as (Hne & h0 & percent & zone & Hpart & Hh).
  destruct h as [|a h']; [congruence|]. rewrite Hh.
  pose proof (partition_spec "%" (fst (Urllib._hostinfo netloc))) as Hs.
  rewrite Hpart in Hs. destruct Hs as (Hno & _ & Hz).
  assert (Str.has "%" (Str.lower h0) = false) as Hlo by now apply has_lower.
  destruct percent.
  - change ("%" +:+ zone) with (String "%" zone).
    rewrite (partition_append "%" (Str.lower h0) zone Hlo). now rewrite lower_idem.
  - rewrite (Hz eq_refl). change (EmptyString +:+ EmptyString) with EmptyString.
    rewrite !append_nil_r.
    rewrite (partition_no_sep "%" _ Hlo). now rewrite lower_idem, !append_nil_r.
Qed.

(** ** Parsing the rebuilt URL *)

Section Rebuilt.

Variable chk : string -> bool.
Variable nfkc : string -> string.

Lemma all_append (p : ascii -> bool) (a b : string) :
  Str.all p (a +:+ b) = Str.all p a && Str.all p b.
Proof. induction a as [|x a IH]; simpl; [reflexivity | now rewrite IH, andb_assoc]. Qed.

Lemma all_impl (p q : ascii -> bool) (s : string) :
  (forall c, p c = true -> q c = true) -> Str.all p s = true -> Str.all q s = true.
Proof.
  intros H. induction s as [|a s IH]; [reflexivity|]. simpl.
  intros Hs. apply andb_true_iff in Hs as [Ha Hs]. now rewrite (H a Ha), (IH Hs).
Qed.

Lemma is_digit_ascii (c : ascii) : Str.is_digit c = true -> Str.is_ascii c = true.
Proof.
  unfold Str.is_digit, Str.is_ascii. intros H. apply andb_true_iff in H as [_ H].
  apply Nat.leb_le in H. apply Nat.ltb_lt. lia.
Qed.

Lemma nfkc_error_ascii (netloc : string) :
  Str.isascii netloc = true -> nfkc_error nfkc netloc = false.
Proof. intros H. unfold nfkc_error. now rewrite H. Qed.

Lemma checknetloc_accepts (netloc : string) :
  nfkc_error nfkc netloc = false -> Urllib._checknetloc nfkc netloc = Return tt.
Proof.
  intros H. rewrite <- raises_checknetloc in H.
  destruct (Urllib._checknetloc nfkc netloc) as [[]|]; [reflexivity | discriminate].
Qed.

Lemma urlparse_rebuilt (proto netloc path : string) :
  proto = "http" \/ proto = "https" ->
  (forall c, In c ["/"%char; "?"%char; "#"%char; "["%char; "]"%char; tab; carriage_return; newline] ->
             Str.has c netloc = false) ->
  Str.startswith path "/" = true ->
  (forall c, In c ["?"%char; "#"%char; tab; carriage_return; newline] -> Str.has c path = false) ->
  (if Str.has ";" path then fst (Urllib._splitparams path) else path) = path ->
  nfkc_error nfkc netloc = false ->
  exists params,
    Urllib.urlparse chk nfkc (proto +:+ "://" +:+ netloc +:+ path)
    = Return (Urllib.mkParseResult proto netloc path params EmptyString EmptyString).
Proof.
  intros Hproto Hn Hslash Hp Hparams Hk.
  assert (exists p, path = String "/" p) as [p Hpath]
      by (apply startswith_spec in Hslash as [post ->]; now exists post).
  set (url := proto +:+ "://" +:+ netloc +:+ path).
  assert (Urllib.clean_url url = url) as Hclean.
  { apply clean_url_fixed.
    - unfold url. destruct Hproto as [-> | ->]; reflexivity.
    - intros c Hc. unfold url.
      assert (Str.has c netloc = false /\ Str.has c path = false) as [H1 H2].
      { unfold Urllib.unsafe_url_bytes_to_remove in Hc.
        split; [apply Hn | apply Hp];
          destruct Hc as [<- | [<- | [<- | []]]]; simpl; auto 10. }
      rewrite !has_append, H1, H2.
      destruct Hproto as [-> | ->];
        unfold Urllib.unsafe_url_bytes_to_remove in Hc;
        destruct Hc as [<- | [<- | [<- | []]]]; reflexivity. }
  assert (Urllib.split_scheme url = (proto, "//" +:+ netloc +:+ path)) as Hscheme
      by (unfold url; destruct Hproto as [-> | ->]; reflexivity).
  assert (Urllib.split_authority ("//" +:+ netloc +:+ path) = (netloc, path)) as Hauth.
  { unfold Urllib.split_authority.
    change (Str.take 2 ("//" +:+ netloc +:+ path)) with "//".
    change (String.eqb "//" "//") with true. cbv iota. rewrite Hpath.
    apply splitnetloc_exact. intros c Hc. apply Hn.
    unfold netloc_delimiters in Hc. destruct Hc as [<- | [<- | [<- | []]]]; simpl; auto. }
  exists (snd (if Str.has ";" path then Urllib._splitparams path else (path, EmptyString))).
  unfold Urllib.urlparse, Urllib.urlsplit. rewrite Hclean, Hscheme, Hauth.
  rewrite (Hn "["%char), (Hn "]"%char) by (simpl; auto 10).
  cbn [andb orb negb mbind except_bind].
  rewrite (Hp "#"%char), (Hp "?"%char) by (simpl; auto 10).
  rewrite (checknetloc_accepts netloc Hk).
  cbn [mbind except_bind mret except_ret Urllib.sr_scheme Urllib.sr_path
       Urllib.sr_netloc Urllib.sr_query Urllib.sr_fragment].
  assert (Urllib.str_in_list proto Urllib.uses_params = true) as ->
      by (destruct Hproto as [-> | ->]; reflexivity).
  cbn [andb]. destruct (Str.has ";" path); [|reflexivity].
  destruct (Urllib._splitparams path) as [u q]. cbn [fst snd] in *. now subst u.
Qed.

Lemma parse_url_rebuilt (netloc0 proto host path : string) (port : Z) :
  proto = "http" \/ proto = "https" ->
  1 <= port <= 65535 ->
  Urllib.hostname netloc0 = Some host ->
  (forall c, In c ["/"%char; "?"%char; "#"%char; "@"%char; ":"%char; "["%char; "]"%char;
                   tab; carriage_return; newline] ->
             Str.has c host = false) ->
  Str.startswith path "/" = true ->
  (forall c, In c ["?"%char; "#"%char; tab; carriage_return; newline] -> Str.has c path = false) ->
  (if Str.has ";" path then fst (Urllib._splitparams path) else path) = path ->
  nfkc_error nfkc (host +:+ ":" +:+ Str.of_int port) = false ->
  let url := proto +:+ "://" +:+ host +:+ ":" +:+ Str.of_int port +:+ path in
  parse_url chk nfkc url = Return (Target.mk url proto host port path).
Proof.
  intros Hproto Hport Hhost Hh Hslash Hp Hparams Hk url.
  destruct (int_of_int port) as [Hd Hi]; [lia|].
  set (netloc := host +:+ ":" +:+ Str.of_int port) in *.
  assert (url = proto +:+ "://" +:+ netloc +:+ path) as Hurl.
  { unfold url, netloc. now rewrite !append_assoc. }
  assert (forall c, Str.is_digit c = false -> Ascii.eqb ":" c = false ->
                    Str.has c host = false -> Str.has c netloc = false) as Hn.
  { intros c Hc Hcol Hc'. unfold netloc.
    change (":" +:+ Str.of_int port) with (String ":" (Str.of_int port)).
    rewrite has_append, Hc', has_cons, Hcol. simpl.
    apply (all_has Str.is_digit); [now apply isdigit_all | exact Hc]. }
  destruct (urlparse_rebuilt proto netloc path Hproto) as [params Hparse];
    try assumption.
  { intros c Hc. simpl in Hc.
    destruct Hc as [<- | [<- | [<- | [<- | [<- | [<- | [<- | [<- | []]]]]]]]];
      apply Hn; try reflexivity; apply Hh; simpl; auto 12. }
  assert (with_scheme url = url) as Hw
      by (unfold url; destruct Hproto as [-> | ->]; reflexivity).
  unfold parse_url. rewrite Hw, <- Hurl in *. rewrite Hparse.
  cbn [mbind except_bind Urllib.scheme Urllib.netloc Urllib.path].
  unfold netloc. change (":" +:+ Str.of_int port) with (String ":" (Str.of_int port)).
  rewrite (hostname_rebuilt netloc0 host (Str.of_int port) Hhost) by
      (try exact Hd; apply Hh; simpl; auto 12).
  unfold Urllib.port.
  rewrite (hostinfo_rebuilt host (Str.of_int port)) by
      (try exact Hd; apply Hh; simpl; auto 12).
  cbn [snd]. rewrite Hd, Hi.
  assert ((0 <=? port) && (port <=? 65535) = true) as ->
      by (apply andb_true_iff; split; apply Z.leb_le; lia).
  cbn [mbind except_bind mret except_ret].
  apply hostname_Some in Hhost as [Hne _].
  assert (str_or proto "http" = proto) as -> by (destruct Hproto as [-> | ->]; reflexivity).
  assert (str_or host (split_colon_0 (host +:+ String ":" (Str.of_int port))) = host) as ->
      by (destruct host; [congruence | reflexivity]).
  assert (str_or path "/" = path) as ->
      by (apply startswith_spec in Hslash as [post ->]; reflexivity).
  destruct port; try lia. reflexivity.
Qed.

End Rebuilt.

Section Again.

Variable chk : string -> bool.
Variable nfkc : string -> string.

(** The path of a parsed target: it starts with a slash, holds no [?], no
    [#], no tab and no line end, and [urlparse] cuts nothing more off it. *)
Lemma parse_url_path (url : string) (t : Target.t) :
  parse_url chk nfkc url = Return t ->
  Str.startswith (Target.path t) "/" = true
  /\ (forall c, In c ["?"%char; "#"%char; tab; carriage_return; newline] ->
                Str.has c (Target.path t) = false)
  /\ (if Str.has ";" (Target.path t)
      then fst (Urllib._splitparams (Target.path t))
      else Target.path t) = Target.path t.
Proof.
  intros H. pose proof (parse_url_proto chk nfkc url t H) as [Hs Hproto].
  apply parse_url_Return in H as (parsed & port & Hp & _ & ->).
  cbn [Target.path Target.proto] in *.
  pose proof (urlparse_Return chk nfkc _ _ Hp) as (Hscheme & _).
  set (rest := snd (Urllib.split_authority
                      (snd (Urllib.split_scheme (Urllib.clean_url (with_scheme url)))))).
  set (s := before "?" (before "#" rest)).
  assert (Urllib.path parsed = if Str.has ";" s then fst (Urllib._splitparams s) else s)
    as Hpath.
  { unfold Urllib.urlparse in Hp. apply bind_Return_inv in Hp as (sr & Hsr & Hp).
    pose proof (urlsplit_Return chk nfkc _ _ Hsr) as (Hsch & _).
    apply urlsplit_path in Hsr. fold rest s in Hsr. rewrite Hsr, Hsch in Hp.
    rewrite <- Hscheme in Hp.
    assert (Urllib.str_in_list (Urllib.scheme parsed) Urllib.uses_params = true) as Hin.
    { destruct (Urllib.scheme parsed); [reflexivity|].
      cbn [str_or] in Hproto. destruct Hproto as [-> | ->]; reflexivity. }
    rewrite Hscheme in Hin. rewrite Hscheme, Hin in Hp. cbn [andb] in Hp.
    destruct (Str.has ";" s); [destruct (Urllib._splitparams s)|];
      injection Hp as <-; reflexivity. }
  assert (at_delimiter rest = true) as Hd.
  { unfold rest, Urllib.split_authority.
    destruct (with_scheme_cases url) as [[_ ->] | [[r ->] | [r ->]]];
      (destruct (String.eqb _ "//"); [apply splitnetloc_rest | reflexivity]). }
  assert (forall c, In c ["?"%char; "#"%char; tab; carriage_return; newline] -> Str.has c s = false) as Hclean.
  { intros c Hc. unfold s. simpl in Hc.
    destruct Hc as [<- | [<- | Hc]];
      [apply has_before_same | apply has_before, has_before_same |].
    apply has_before, has_before. unfold rest.
    apply has_split_authority, has_split_scheme, clean_url_removed.
    unfold Urllib.unsafe_url_bytes_to_remove. simpl.
    destruct Hc as [<- | [<- | [<- | []]]]; auto. }
  rewrite Hpath. apply path_after_cuts in Hd. fold s in Hd.
  destruct Hd as [Hd | [p Hd]].
  - rewrite Hd. cbn. split; [reflexivity|]. split; [|reflexivity].
    intros c Hc. simpl in Hc.
    destruct Hc as [<- | [<- | [<- | [<- | [<- | []]]]]]; reflexivity.
  - assert (Str.startswith s "/" = true) as Hstart by now rewrite Hd.
    pose proof (splitparams_fixed s Hstart) as Hfix. cbv zeta in Hfix.
    set (q := if Str.has ";" s then fst (Urllib._splitparams s) else s) in *.
    assert (exists p', q = String "/" p') as [p' Hq].
    { unfold q. rewrite Hd. destruct (Str.has ";" (String "/" p)); [|now exists p].
      apply splitparams_slash. }
    assert (str_or q "/" = q) as -> by now rewrite Hq.
    split; [now rewrite Hq|]. split; [|exact Hfix].
    intros c Hc. unfold q. destruct (Str.has ";" s); [apply has_splitparams|];
      now apply Hclean.
Qed.

(** The host of a parsed target, when [urllib] finds a host name. *)
Lemma parse_url_hostname (url : string) (t : Target.t) (h : string) :
  parse_url chk nfkc url = Return t ->
  Urllib.hostname (Urllib.netloc_of (with_scheme url)) = Some h ->
  Target.host t = h
  /\ forall c, In c ["/"%char; "?"%char; "#"%char; "@"%char; tab; carriage_return; newline] ->
               Str.has c h = false.
Proof.
  intros H Hh. apply parse_url_Return in H as (parsed & port & Hp & _ & ->).
  apply urlparse_Return in Hp as (_ & Hn & _). cbn [Target.host]. rewrite Hn, Hh.
  pose proof (hostname_Some _ _ Hh) as [Hne _].
  split; [destruct h; [congruence | reflexivity]|].
  intros c Hc. apply (hostname_has c _ h Hh).
  - simpl in Hc. destruct Hc as [<- | [<- | [<- | [<- | Hc]]]].
    + apply hostinfo_host, netloc_of_delimiter. simpl; auto.
    + apply hostinfo_host, netloc_of_delimiter. simpl; auto.
    + apply hostinfo_host, netloc_of_delimiter. simpl; auto.
    + apply hostinfo_host_of, rpartition_spec.
    + apply hostinfo_host, netloc_of_removed.
      unfold Urllib.unsafe_url_bytes_to_remove.
      destruct Hc as [<- | [<- | [<- | []]]]; simpl; auto.
  - simpl in Hc.
    destruct Hc as [<- | [<- | [<- | [<- | [<- | [<- | [<- | []]]]]]]]; reflexivity.
Qed.

Lemma parse_url_port (url : string) (t : Target.t) :
  parse_url chk nfkc url = Return t -> 1 <= Target.port t <= 65535.
Proof.
  intros H. pose proof (parse_url_proto chk nfkc url t H) as [_ Hproto].
  apply parse_url_Return in H as (parsed & port & Hp & Hport & ->).
  cbn [Target.port Target.proto] in *.
  unfold Urllib.port in Hport.
  destruct (snd (Urllib._hostinfo _)) as [ptxt|].
  - destruct (Str.isdigit ptxt); [|discriminate].
    destruct (0 <=? Str.int ptxt) eqn:E0; [|discriminate].
    destruct (Str.int ptxt <=? 65535) eqn:E1; [|discriminate].
    injection Hport as <-. apply Z.leb_le in E0, E1.
    destruct (Str.int ptxt) eqn:Ei; [|lia|lia].
    destruct Hproto as [-> | ->]; unfold default_port; simpl; lia.
  - injection Hport as <-.
    destruct Hproto as [-> | ->]; unfold default_port; simpl; lia.
Qed.

(** C9: parsing again what a parse produced.  The [url] entry of the dict,
    the input with its scheme prefix, parses to the same dict.  The URL
    rebuilt from the scheme, the host, the port and the path, as line 317
    builds it, parses to the same scheme, host, port and path when
    [urllib] found a host name in the input and that host holds no colon
    and no bracket, and when the rebuilt netloc passes the NFKC check as
    every ASCII netloc does.  A bracketed IPv6 literal is returned without
    its brackets, and the URL rebuilt from it is rejected. *)
Theorem parse_url_idempotent (url : string) (t : Target.t) :
  parse_url chk nfkc url = Return t ->
  parse_url chk nfkc (Target.url t) = Return t
  /\ (Urllib.hostname (Urllib.netloc_of (with_scheme url)) <> None ->
      Forall (fun c => Str.has c (Target.host t) = false) [":"%char; "["%char; "]"%char] ->
      Str.isascii (Target.host t) = true
      \/ nfkc_error nfkc (Target.host t +:+ ":" +:+ Str.of_int (Target.port t)) = false ->
      parse_url chk nfkc (probe_url t)
      = Return (Target.mk (probe_url t) (Target.proto t) (Target.host t)
                          (Target.port t) (Target.path t))).
Proof.
  intros H. split.
  { assert (Target.url t = with_scheme url) as ->.
    { apply parse_url_Return in H as (parsed & port & _ & _ & ->). reflexivity. }
    unfold parse_url in *. now rewrite with_scheme_idem. }
  intros Hh Hc Hk.
  destruct (Urllib.hostname (Urllib.netloc_of (with_scheme url))) as [h|] eqn:Eh;
    [clear Hh | congruence].
  destruct (parse_url_hostname url t h H Eh) as [Hhost Hclean].
  destruct (parse_url_path url t H) as (Hslash & Hp & Hparams).
  pose proof (parse_url_port url t H) as Hport.
  destruct (parse_url_proto chk nfkc url t H) as [_ Hproto].
  destruct (int_of_int (Target.port t)) as [Hd _]; [lia|].
  rewrite <- Hhost in Eh, Hclean.
  apply (parse_url_rebuilt chk nfkc _ _ _ _ _ Hproto Hport Eh); try assumption.
  - intros c Hin. simpl in Hin.
    rewrite !Forall_cons in Hc. destruct Hc as (H1 & H2 & H3 & _).
    destruct Hin as [<- | [<- | [<- | [<- | [<- | [<- | [<- | Hin]]]]]]];
      try assumption; apply Hclean; simpl; auto 10.
  - destruct Hk as [Hk | Hk]; [|exact Hk]. apply nfkc_error_ascii.
    unfold Str.isascii in *. rewrite !all_append, Hk. cbn [Str.all andb].
    rewrite andb_true_r.
    apply (all_impl Str.is_digit); [apply is_digit_ascii | now apply isdigit_all].
Qed.

End Again.

(** * The files the scans touch *)

Lemma files_probe (self : checker) (e : env) (target : Target.t)
    (creds : list Cred.t) (results : list Result.t) (w : world) :
  files (snd (probe self e target creds results w)) = files w.
Proof.
  revert w. induction creds as [|c creds IH]; intros w; [reflexivity|].
  simpl probe. rewrite attempt_cases. simpl.
  destruct (send e _ _) as [status_code text|msg];
    [destruct (authenticated status_code text)|]; try reflexivity;
    exact (IH (log_request (request_of self e target c (length (requests w))) w)).
Qed.

(** X17: what the scans write.  To the table of the database they only
    append: the rows it held stay as they are.  Of the other files the
    probe leaves all as they are, and after a scan with nmap every path
    other than the one of the transient script of the target holds what it
    held before. *)
Theorem scans_touch_only_temp_script (self : checker) (e : env) (target : Target.t)
    (w : world) (path : string) :
  files (snd (scan_with_custom self e target w)) = files w
  /\ (String.eqb path (temp_script_path self target) = false ->
      files (snd (scan_with_nmap self e target w)) !! path = files w !! path)
  /\ (exists new, db (snd (scan_with_custom self e target w)) = db w ++ new)
  /\ (exists new, db (snd (scan_with_nmap self e target w)) = db w ++ new).
Proof.
  split; [|split; [|split]].
  - unfold scan_with_custom. destruct (httpx_installed e); [apply files_probe | reflexivity].
  - intros Hp. apply String.eqb_neq in Hp.
    unfold scan_with_nmap.
    destruct (if no_cache self then None else select_cached target (db w));
      [reflexivity|].
    unfold nmap_try. destruct (read_nmap_script e); [|reflexivity].
    destruct (write_error e _); [reflexivity|].
    destruct (subprocess_run e _ _); simpl.
    + rewrite lookup_delete_ne by congruence. now rewrite lookup_insert_ne by congruence.
    + now rewrite lookup_insert_ne by congruence.
    + now rewrite lookup_insert_ne by congruence.
  - destruct (db_scan_with_custom self e target w) as (new & H & _). now exists new.
  - destruct (scan_with_nmap_cases self e target w)
      as [(row & _ & _ & ->) | (-> & _)]; [exists []; now rewrite app_nil_r | eauto].
Qed.

(** * The additional theorems at concrete inputs *)

Lemma parse_url_wellformed_witness :
  parse_url accept_bracketed nfkc_fixed "Example.com:0/a;b?c"
  = Return (Target.mk "http://Example.com:0/a;b?c" "http" "example.com" 80 "/a")
  /\ 1 <= 80 <= 65535.
Proof.
  split; [reflexivity|].
  exact (proj1 (parse_url_wellformed accept_bracketed nfkc_fixed "Example.com:0/a;b?c" _ eq_refl)).
Defined.

Lemma search_cred_spec_witness :
  search_cred (fun _ => true) "login josé:señor1 ok" = Some ("josé", "señor1")
  /\ occurs "josé:señor1" "login josé:señor1 ok".
Proof.
  split; [reflexivity|].
  exact (proj2 (proj2 (proj2 (proj2
           (proj1 (search_cred_spec (fun _ => true) "login josé:señor1 ok")
                  "josé" "señor1" eq_refl))))).
Defined.



Lemma run_keeps_table_sound_witness :
  let w := snd (scan_with_custom Demo.self Demo.e Demo.target
                  (snd (scan_with_nmap Demo.self Demo.e Demo.target empty_world))) in
  length (self_results w) = 2%nat
  /\ Forall2 mirrors (db w) (self_results w) /\ Forall sound_row (db w).
Proof.
  intros w. split; [reflexivity|].
  apply run_keeps_table_sound.
  apply reach_custom, reach_nmap. exact (reach_start ∅).
Defined.


Lemma no_finding_no_report_change_witness :
  listSucceeded
    (db (snd (scan_target accept_bracketed nfkc_fixed Demo.self DemoRun.both Demo.e_offline
                          "10.0.0.1" empty_world)))
  = listSucceeded (db empty_world).
Proof.
  exact (no_finding_no_report_change accept_bracketed nfkc_fixed Demo.self DemoRun.both
           Demo.e_offline "10.0.0.1" empty_world eq_refl).
Defined.

Lemma reports_show_port_first_witness :
  shown_url (select_star DemoRun.stored) = "8080://10.0.0.2:http"
  /\ occurs ("<td>" +:+ "8080://10.0.0.2:http" +:+ "</td>")
            (html_report "2024-01-01 00:00:02" (map select_star [DemoRun.stored])).
Proof.
  split; [reflexivity|].
  exact (proj2 (proj2 (proj2
           (reports_show_port_first "2024-01-01 00:00:02" [DemoRun.stored] DemoRun.stored
                                    (or_introl eq_refl))))).
Defined.

Lemma parse_url_host_clean_witness :
  parse_url accept_bracketed nfkc_fixed "User@Example.COM:8080/a/b?c#d"
  = Return (Target.mk "http://User@Example.COM:8080/a/b?c#d" "http" "example.com"
                      8080 "/a/b")
  /\ Forall (fun c => Str.has c "example.com" = false) netloc_delimiters.
Proof.
  split; [reflexivity|].
  exact (parse_url_host_clean accept_bracketed nfkc_fixed "User@Example.COM:8080/a/b?c#d"
                              _ eq_refl).
Defined.

Lemma scans_touch_only_temp_script_witness :
  files (snd (scan_with_nmap Demo.self Demo.e Demo.target
                (write_file "/opt/cred_checker/notes.txt" "keep" empty_world)))
    !! "/opt/cred_checker/notes.txt"
  = Some "keep".
Proof.
  exact (proj1 (proj2 (scans_touch_only_temp_script Demo.self Demo.e Demo.target
                         (write_file "/opt/cred_checker/notes.txt" "keep" empty_world)
                         "/opt/cred_checker/notes.txt"))
               eq_refl).
Defined.

Lemma sub_portrule_lines_witness :
  sub_portrule 8080 "local shortport = require 'shortport'"
  = "local shortport = require 'shortport'".
Proof.
  apply (proj2 (proj2 (proj2
           (sub_portrule_lines 8080 8080 "local shortport = require 'shortport'")))).
  repeat constructor.
Defined.

Lemma read_targets_spec_witness :
  read_targets DemoRun2.targets_file
  = ["10.0.0.1"; "# staging hosts"; "10.0.0.1"; "example.com:8443"]
  /\ In "# staging hosts" (read_targets DemoRun2.targets_file).
Proof.
  split; [reflexivity|].
  apply (proj2 (proj2 (proj2 (proj2 (proj2 (read_targets_spec DemoRun2.targets_file)))))
           (DemoRun2.line "  # staging hosts"));
    [right; right; left; reflexivity | reflexivity | reflexivity].
Defined.

Lemma custom_finding_iff_witness :
  scan_with_custom Demo.self DemoRun2.e_no_httpx Demo.target empty_world
  = ([], empty_world).
Proof.
  exact (proj1 (custom_finding_iff Demo.self DemoRun2.e_no_httpx Demo.target empty_world)
               eq_refl).
Defined.


Lemma scan_target_rows_witness :
  snd (scan_target accept_bracketed nfkc_fixed Demo.self DemoRun.both Demo.e "example.com:99999"
                   empty_world)
  = empty_world.
Proof.
  exact (proj1 (scan_target_rows accept_bracketed nfkc_fixed Demo.self DemoRun.both Demo.e
                  "example.com:99999" empty_world)
               eq_refl).
Defined.

Lemma csv_report_columns_witness :
  exists record,
    In record (csv_report (map select_star [DemoRun.stored]))
    /\ combine csv_header (map fmt record)
       = [ ("URL", "http://10.0.0.2:8080/app"); ("Host", "10.0.0.2");
           ("Port", "http"); ("Protocol", "8080");
           ("Method", "custom-basic"); ("Username", "root");
           ("Password", "root"); ("Timestamp", "2024-01-01T00:00:01") ].
Proof.
  exact (proj2 (proj2 (csv_report_columns [DemoRun.stored])) DemoRun.stored
               (or_introl eq_refl)).
Defined.

(** C9: [[::1]:8080] parses to the host [::1] and the port 8080; the
    URL rebuilt from these, [http://::1:8080/], is rejected for its port
    text.  In [A:x@] [urllib] finds no host name and [parse_url] falls
    back on the text before the first colon, the host [A]; the URL rebuilt
    from it parses to the host [a]. *)
Lemma rebuilt_url_of_ipv6_target_fails :
  parse_url accept_bracketed nfkc_fixed "[::1]:8080"
  = Return (Target.mk "http://[::1]:8080" "http" "::1" 8080 "/")
  /\ probe_url (Target.mk "http://[::1]:8080" "http" "::1" 8080 "/") = "http://::1:8080/"
  /\ parse_url accept_bracketed nfkc_fixed "http://::1:8080/"
     = Raise (ValueError Port_not_integer)
  /\ parse_url accept_bracketed nfkc_fixed "A:x@"
     = Return (Target.mk "http://A:x@" "http" "A" 80 "/")
  /\ parse_url accept_bracketed nfkc_fixed "http://A:80/"
     = Return (Target.mk "http://A:80/" "http" "a" 80 "/").
Proof. repeat split; reflexivity. Qed.

Lemma parse_url_idempotent_witness :
  parse_url accept_bracketed nfkc_fixed "Example.com:8080/x;p?q"
  = Return (Target.mk "http://Example.com:8080/x;p?q" "http" "example.com" 8080 "/x")
  /\ parse_url accept_bracketed nfkc_fixed "http://Example.com:8080/x;p?q"
     = Return (Target.mk "http://Example.com:8080/x;p?q" "http" "example.com" 8080 "/x")
  /\ parse_url accept_bracketed nfkc_fixed "http://example.com:8080/x"
     = Return (Target.mk "http://example.com:8080/x" "http" "example.com" 8080 "/x").
Proof.
  pose proof (parse_url_idempotent accept_bracketed nfkc_fixed "Example.com:8080/x;p?q"
                _ eq_refl) as [H1 H2].
  split; [reflexivity|]. split; [exact H1|].
  apply H2; [discriminate | repeat constructor | left; reflexivity].
Defined.

